(** * mysql-to-sqlite3: the transporter, embedded and verified

    A shallow embedding of [src/mysql_to_sqlite3/transporter.py]
    (class [MySQLtoSQLite]): the type mapper, the DDL builder, the table
    creator, the row transfer and the orchestrating [transfer] method.

    Python [str] values are modelled by [string]; a character is a code
    point below 256.  On that alphabet [str.upper] differs from the ASCII
    upper-casing used here only on characters that never produce one of the
    ASCII keywords the code compares against, so the type mapper computes
    the same result. *)

From Stdlib Require Import Bool Arith ZArith List Ascii String Lia.
Import ListNotations.
Local Open Scope string_scope.

(** ** Python string primitives *)

Module PyStr.

Definition code (c : ascii) : nat := nat_of_ascii c.

(** [str.isspace] on one character: TAB..CR, FS..US, SPACE, NEL, NBSP. *)
Definition isspace (c : ascii) : bool :=
  let n := code c in
  (((9 <=? n) && (n <=? 13)) || ((28 <=? n) && (n <=? 32))
   || (n =? 133) || (n =? 160))%nat.

(** The class [\d] of the [re] module, on this alphabet. *)
Definition isdigit (c : ascii) : bool :=
  let n := code c in ((48 <=? n) && (n <=? 57))%nat.

Definition upper_char (c : ascii) : ascii :=
  let n := code c in
  if ((97 <=? n) && (n <=? 122))%nat then ascii_of_nat (n - 32) else c.

(** [s.upper()] on ASCII: the letters [a] to [z] are raised and every
    other character is kept.  [str.upper] does more on other characters
    (it raises accented letters, and maps some characters beyond this
    alphabet to ASCII letters); a statement that depends on what happens
    to them asks for ASCII characters. *)
Fixpoint upper (s : string) : string :=
  match s with
  | EmptyString => EmptyString
  | String c r => String (upper_char c) (upper r)
  end.

(** [s.lstrip(chars)] for a set of characters given as a predicate. *)
Fixpoint lstrip_by (p : ascii -> bool) (s : string) : string :=
  match s with
  | EmptyString => EmptyString
  | String c r => if p c then lstrip_by p r else s
  end.

(** [s.rstrip(chars)]: the trailing characters of the set are removed. *)
Fixpoint rstrip_by (p : ascii -> bool) (s : string) : string :=
  match s with
  | EmptyString => EmptyString
  | String c r =>
      match rstrip_by p r with
      | EmptyString => if p c then EmptyString else String c EmptyString
      | r' => String c r'
      end
  end.

(** [s.strip()] *)
Definition strip (s : string) : string := rstrip_by isspace (lstrip_by isspace s).

Definition in_chars (chars : string) (c : ascii) : bool :=
  existsb (Ascii.eqb c) (list_ascii_of_string chars).

(** [s.rstrip(chars)] *)
Definition rstrip (chars s : string) : string := rstrip_by (in_chars chars) s.

(** [s.split()]: the maximal runs of non-whitespace characters.  [cur] is
    the run being read, reversed. *)
Fixpoint split_aux (s : string) (cur : list ascii) : list string :=
  let flush rest :=
    match cur with
    | [] => rest
    | _ => string_of_list_ascii (rev cur) :: rest
    end in
  match s with
  | EmptyString => flush []
  | String c r =>
      if isspace c then flush (split_aux r []) else split_aux r (c :: cur)
  end.

Definition split (s : string) : list string := split_aux s [].

(** [sep.join(parts)] *)
Fixpoint join (sep : string) (parts : list string) : string :=
  match parts with
  | [] => EmptyString
  | [p] => p
  | p :: ps => p ++ sep ++ join sep ps
  end.

(** [template.format( *args)] for a template whose only fields are the
    positional [{}]. *)
Fixpoint format (template : string) (args : list string) : string :=
  match template with
  | EmptyString => EmptyString
  | String c r =>
      match r with
      | String c' r' =>
          if Ascii.eqb c "{" && Ascii.eqb c' "}" then
            match args with
            | a :: args' => a ++ format r' args'
            | [] => format r' []
            end
          else String c (format r args)
      | EmptyString => String c EmptyString
      end
  end.

(** Every character of [s] satisfies [p]. *)
Fixpoint all_chars (p : ascii -> bool) (s : string) : bool :=
  match s with
  | EmptyString => true
  | String c r => p c && all_chars p r
  end.

(** The number of positions of [s] at which [sub] starts. *)
Fixpoint count_occurrences (sub s : string) : nat :=
  match s with
  | EmptyString => 0
  | String _ r =>
      (if String.prefix sub s then 1 else 0) + count_occurrences sub r
  end.

(** [s * n] *)
Fixpoint repeat (s : string) (n : nat) : string :=
  match n with
  | O => EmptyString
  | S k => s ++ repeat s k
  end.

End PyStr.

(** ** Exceptions *)

Inductive exn : Type :=
| MySQLError (errno : nat)       (* mysql.connector.Error *)
| SQLiteError (msg : string)     (* sqlite3.Error *)
| ValueError (msg : string)
| AttributeError                 (* [decode] looked up on a value without it *)
| UnicodeDecodeError.

Inductive result (A : Type) : Type :=
| Ok (a : A)
| Raise (e : exn).
Arguments Ok {A} a.
Arguments Raise {A} e.

(** [errorcode.CR_SERVER_LOST] *)
Definition CR_SERVER_LOST : nat := 2013.

(** ** The type mapper *)

Module TypeMapper.

(** [COLUMN_PATTERN = re.compile(r"^[^(]+")], matched at the start of
    its argument: the longest prefix free of an opening parenthesis, and
    no match when that prefix is empty. *)
Fixpoint column_prefix (s : string) : string :=
  match s with
  | EmptyString => EmptyString
  | String c r => if Ascii.eqb c "(" then EmptyString else String c (column_prefix r)
  end.

Definition COLUMN_PATTERN_match (s : string) : option string :=
  match column_prefix s with
  | EmptyString => None
  | m => Some m
  end.

Definition _valid_column_type (column_type : string) : option string :=
  COLUMN_PATTERN_match (PyStr.strip column_type).

(** [COLUMN_LENGTH_PATTERN = re.compile(r"\(\d+\)$")].  [take_digits] and
    [drop_digits] are the greedy [\d+]; [at_dollar] is [$], which holds
    at the end of the string and just before a final newline. *)
Fixpoint take_digits (s : string) : string :=
  match s with
  | EmptyString => EmptyString
  | String c r => if PyStr.isdigit c then String c (take_digits r) else EmptyString
  end.

Fixpoint drop_digits (s : string) : string :=
  match s with
  | EmptyString => EmptyString
  | String c r => if PyStr.isdigit c then drop_digits r else s
  end.

Definition at_dollar (s : string) : bool :=
  match s with
  | EmptyString => true
  | String c EmptyString => Ascii.eqb c "010"
  | _ => false
  end.

(** The pattern tried at the first position of [s]. *)
Definition length_pattern_here (s : string) : option string :=
  match s with
  | String "(" r =>
      match take_digits r, drop_digits r with
      | EmptyString, _ => None
      | ds, String ")" r' =>
          if at_dollar r' then Some ("(" ++ ds ++ ")") else None
      | _, _ => None
      end
  | _ => None
  end.

(** [COLUMN_LENGTH_PATTERN.search]: the leftmost position that matches. *)
Fixpoint COLUMN_LENGTH_PATTERN_search (s : string) : option string :=
  match length_pattern_here s with
  | Some m => Some m
  | None =>
      match s with
      | EmptyString => None
      | String _ r => COLUMN_LENGTH_PATTERN_search r
      end
  end.

Definition _column_type_length (column_type : string) : string :=
  match COLUMN_LENGTH_PATTERN_search column_type with
  | Some suffix => suffix
  | None => ""
  end.

(** [data_type in {...}] *)
Definition mem (x : string) (l : list string) : bool := existsb (String.eqb x) l.

(** The type names the chain of comparisons below knows. *)
Definition known_types : list string :=
  ["TINYINT"; "SMALLINT"; "MEDIUMINT"; "INT"; "INTEGER"; "BIGINT"; "DOUBLE";
   "FLOAT"; "DECIMAL"; "YEAR"; "TIME"; "NUMERIC"; "REAL"; "DATETIME";
   "TIMESTAMP"; "DATE"; "BIT"; "BINARY"; "BLOB"; "LONGBLOB"; "MEDIUMBLOB";
   "TINYBLOB"; "VARBINARY"; "BOOLEAN"; "CHAR"; "NCHAR"; "NVARCHAR"; "VARCHAR"].

Definition _translate_type_from_mysql_to_sqlite (column_type : string)
  : result string :=
  match _valid_column_type column_type with
  | None => Raise (ValueError "Invalid column_type!")
  | Some m =>
      let data_type := PyStr.upper m in
      if data_type =? "TINYINT" then Ok "TINYINT"
      else if data_type =? "SMALLINT" then Ok "SMALLINT"
      else if data_type =? "MEDIUMINT" then Ok "MEDIUMINT"
      else if mem data_type ["INT"; "INTEGER"] then Ok "INTEGER"
      else if data_type =? "BIGINT" then Ok "BIGINT"
      else if data_type =? "DOUBLE" then Ok "DOUBLE"
      else if data_type =? "FLOAT" then Ok "FLOAT"
      else if mem data_type ["DECIMAL"; "YEAR"; "TIME"; "NUMERIC"] then Ok "NUMERIC"
      else if data_type =? "REAL" then Ok "REAL"
      else if mem data_type ["DATETIME"; "TIMESTAMP"] then Ok "DATETIME"
      else if data_type =? "DATE" then Ok "DATE"
      else if mem data_type
                ["BIT"; "BINARY"; "BLOB"; "LONGBLOB"; "MEDIUMBLOB"; "TINYBLOB";
                 "VARBINARY"] then Ok "BLOB"
      else if data_type =? "BOOLEAN" then Ok "BOOLEAN"
      else if data_type =? "CHAR"
           then Ok ("CHARACTER" ++ _column_type_length column_type)
      else if data_type =? "NCHAR"
           then Ok ("NCHAR" ++ _column_type_length column_type)
      else if data_type =? "NVARCHAR"
           then Ok ("NVARCHAR" ++ _column_type_length column_type)
      else if data_type =? "VARCHAR"
           then Ok ("VARCHAR" ++ _column_type_length column_type)
      else Ok "TEXT"
  end.

End TypeMapper.

(** ** The DDL builder *)

(** One row of [SHOW COLUMNS], as the dictionary cursor returns it. *)
Record column_row : Type := mk_column_row {
  Field : string;
  Type_ : string;
  Null : string;
  Key : string
}.

Module Schema.
Import TypeMapper.

(** The double quote character, as a one-character string. *)
Definition DQ : string := String (ascii_of_nat 34) EmptyString.

Definition isalnum (c : ascii) : bool :=
  let n := PyStr.code c in
  (((48 <=? n) && (n <=? 57)) || ((65 <=? n) && (n <=? 90))
   || ((97 <=? n) && (n <=? 122)))%nat.

Definition lower_char (c : ascii) : ascii :=
  let n := PyStr.code c in
  if ((65 <=? n) && (n <=? 90))%nat then ascii_of_nat (n + 32) else c.

(** Modelled from the spec: [slugify] comes from the python-slugify
    package, which is not part of the repository.  The column name is
    lowercased and every run of non-alphanumeric characters is collapsed
    to a single separator.  [in_run] tells that the separator of the
    current run is already written. *)
Fixpoint slugify_aux (separator : string) (s : string) (in_run : bool) : string :=
  match s with
  | EmptyString => EmptyString
  | String c r =>
      if isalnum c then String (lower_char c) (slugify_aux separator r false)
      else if in_run then slugify_aux separator r true
      else separator ++ slugify_aux separator r true
  end.

Definition slugify (s separator : string) : string := slugify_aux separator s false.

(** The four accumulators of the loop of [_build_create_table_sql]. *)
Record acc : Type := mk_acc {
  sql : string;
  primary : string;
  has_primary_key : bool;
  indices : string
}.

(** The body of the loop over the rows of [SHOW COLUMNS]. *)
Definition column_step (table_name : string) (a : acc) (row : column_row)
  : result acc :=
  match _translate_type_from_mysql_to_sqlite (Type_ row) with
  | Raise e => Raise e
  | Ok type =>
      let sql' :=
        sql a ++ " " ++ DQ ++ Field row ++ DQ ++ " " ++ type ++ " "
            ++ (if Null row =? "YES" then "NULL" else "NOT NULL") ++ ", " in
      if mem (Key row) ["PRI"; "UNI"; "MUL"] then
        if Key row =? "PRI" then
          Ok (mk_acc sql' (primary a ++ DQ ++ Field row ++ DQ ++ ", ") true
                     (indices a))
        else
          Ok (mk_acc sql' (primary a) (has_primary_key a)
                (indices a ++ " CREATE "
                   ++ (if Key row =? "UNI" then "UNIQUE" else "")
                   ++ " INDEX " ++ table_name ++ "_"
                   ++ slugify (Field row) "_" ++ "_IDX ON "
                   ++ DQ ++ table_name ++ DQ ++ " (" ++ DQ ++ Field row ++ DQ
                   ++ ");"))
      else Ok (mk_acc sql' (primary a) (has_primary_key a) (indices a))
  end.

Fixpoint column_loop (table_name : string) (a : acc) (rows : list column_row)
  : result acc :=
  match rows with
  | [] => Ok a
  | row :: rest =>
      match column_step table_name a row with
      | Raise e => Raise e
      | Ok a' => column_loop table_name a' rest
      end
  end.

(** [_build_create_table_sql] once the rows of [SHOW COLUMNS] are fetched. *)
Definition render_create_table_sql (table_name : string) (rows : list column_row)
  : result string :=
  let a0 := mk_acc ("CREATE TABLE IF NOT EXISTS " ++ DQ ++ table_name ++ DQ ++ " (")
                   "PRIMARY KEY (" false "" in
  match column_loop table_name a0 rows with
  | Raise e => Raise e
  | Ok a =>
      let s1 := if has_primary_key a
                then sql a ++ PyStr.rstrip ", " (primary a) ++ ")"
                else sql a in
      let s2 := PyStr.rstrip ", " s1 ++ ");" in
      let s3 := s2 ++ indices a in
      Ok (PyStr.join " " (PyStr.split s3))
  end.

End Schema.

(** ** The two databases

    The MySQL server and the SQLite engine are outside the repository; the
    code only calls them.  They are modelled by what the calls used in
    [transporter.py] do. *)

(** A value of a fetched row.  The raw cursor yields byte strings and
    [None]; [PyInt] stands for a value that has no [decode] method. *)
Inductive pyval : Type :=
| PyNone
| PyBytes (b : string)
| PyInt (n : nat).

Definition raw_row : Type := list pyval.

(** A row as bound to the placeholders of the INSERT statement. *)
Definition bound_row : Type := list (option string).

Record mysql_table : Type := mk_mysql_table {
  tbl_name : string;               (* as [SHOW TABLES] returns it: bytes *)
  tbl_columns : list column_row;
  tbl_rows : list raw_row
}.

(** The source connection with its cursors.  [faults] scripts the server:
    every call that reaches it takes the next entry, and [Some errno] makes
    that call raise [mysql.connector.Error] with this [errno]; once the
    script is used up the calls succeed. *)
Record mysql_conn : Type := mk_mysql_conn {
  database : list mysql_table;
  result_set : list raw_row;       (* rows of [_mysql_cur] not fetched yet *)
  description : list string;       (* column names of that result set *)
  faults : list (option nat)
}.

Record sqlite_table : Type := mk_sqlite_table {
  st_name : string;
  st_columns : list column_row;    (* the columns the table was created from *)
  st_rows : list bound_row          (* in the order they entered the table *)
}.

Record sqlite_conn : Type := mk_sqlite_conn {
  tables : list sqlite_table;
  index_names : list string
}.

Inductive level : Type := INFO | WARNING | ERROR.

(** What the process does to its collaborators, in order. *)
Inductive event : Type :=
| EvReconnect                                   (* [_mysql.reconnect()] *)
| EvQuery (statement : string)                  (* [execute] on a MySQL cursor *)
| EvChunk (chunk : nat)                         (* [trange] hands out a chunk number *)
| EvFetchMany (size : nat)
| EvFetchAll
| EvFetchOne
| EvExecuteScript (script : string)             (* SQLite [executescript] *)
| EvExecuteMany (statement : string) (rows : list bound_row)
| EvExecute (statement : string)                (* SQLite [execute] *)
| EvCommit
| EvLog (lvl : level) (message : string).

(** The fields of [self] the methods read and write. *)
Record self : Type := mk_self {
  _current_chunk_number : nat;
  _chunk_size : option Z;
  _vacuum : bool;
  _mysql : mysql_conn;
  _sqlite : sqlite_conn;
  events : list event
}.

Definition set_current_chunk_number (n : nat) (s : self) : self :=
  mk_self n (_chunk_size s) (_vacuum s) (_mysql s) (_sqlite s) (events s).
Definition set_chunk_size (c : option Z) (s : self) : self :=
  mk_self (_current_chunk_number s) c (_vacuum s) (_mysql s) (_sqlite s) (events s).
Definition set_mysql (m : mysql_conn) (s : self) : self :=
  mk_self (_current_chunk_number s) (_chunk_size s) (_vacuum s) m (_sqlite s) (events s).
Definition set_sqlite (q : sqlite_conn) (s : self) : self :=
  mk_self (_current_chunk_number s) (_chunk_size s) (_vacuum s) (_mysql s) q (events s).
Definition emit (e : event) (s : self) : self :=
  mk_self (_current_chunk_number s) (_chunk_size s) (_vacuum s) (_mysql s) (_sqlite s)
          (events s ++ [e]).

(** ** Methods as state transformers that may raise *)

Definition M (A : Type) : Type := self -> result A * self.

Definition ret {A} (a : A) : M A := fun s => (Ok a, s).
Definition raise {A} (e : exn) : M A := fun s => (Raise e, s).
Definition bind {A B} (m : M A) (k : A -> M B) : M B :=
  fun s => match m s with
           | (Ok a, s') => k a s'
           | (Raise e, s') => (Raise e, s')
           end.
Definition lift {A} (r : result A) : M A := fun s => (r, s).
Definition get : M self := fun s => (Ok s, s).
Definition modify (f : self -> self) : M unit := fun s => (Ok tt, f s).
Definition log_event (e : event) : M unit := modify (emit e).

Declare Scope py_scope.
Delimit Scope py_scope with py.
Notation "x <- m ;; k" := (bind m (fun x => k))
  (at level 100, m at next level, right associativity) : py_scope.
Notation "m ;; k" := (bind m (fun _ => k))
  (at level 100, right associativity) : py_scope.
Local Open Scope py_scope.

(** [try: body  except mysql.connector.Error as err: on_mysql
                except sqlite3.Error as err: on_sqlite].
    Any other exception leaves the statement as it is; so does one raised
    inside a handler. *)
Definition try_except {A} (body : M A) (on_mysql : nat -> M A)
           (on_sqlite : string -> M A) : M A :=
  fun s => match body s with
           | (Ok a, s') => (Ok a, s')
           | (Raise (MySQLError errno), s') => on_mysql errno s'
           | (Raise (SQLiteError msg), s') => on_sqlite msg s'
           | (Raise e, s') => (Raise e, s')
           end.

(** *** Calls on the MySQL connection *)

(** [errorcode.ER_NO_SUCH_TABLE] *)
Definition ER_NO_SUCH_TABLE : nat := 1146.

Definition set_faults (f : list (option nat)) (m : mysql_conn) : mysql_conn :=
  mk_mysql_conn (database m) (result_set m) (description m) f.
Definition set_result_set (rows : list raw_row) (m : mysql_conn) : mysql_conn :=
  mk_mysql_conn (database m) rows (description m) (faults m).
Definition open_result_set (rows : list raw_row) (names : list string)
           (m : mysql_conn) : mysql_conn :=
  mk_mysql_conn (database m) rows names (faults m).

(** One round trip to the server: the next entry of the script decides. *)
Definition server_call : M unit :=
  fun s => match faults (_mysql s) with
           | [] => (Ok tt, s)
           | None :: rest => (Ok tt, set_mysql (set_faults rest (_mysql s)) s)
           | Some errno :: rest =>
               (Raise (MySQLError errno), set_mysql (set_faults rest (_mysql s)) s)
           end.

(** [self._mysql.reconnect()] *)
Definition reconnect : M unit := log_event EvReconnect;; server_call.

(** [ceil(total_records / chunk_size)] for a positive [chunk_size].  The
    source divides in floating point; the quotient is the exact ceiling as
    long as [total_records] is below 2^53. *)
Definition ceil_div (total_records chunk_size : nat) : nat :=
  (total_records + chunk_size - 1) / chunk_size.

Definition BQ : string := String (ascii_of_nat 96) EmptyString.
Definition NL : string := String (ascii_of_nat 10) EmptyString.

Section Transporter.

(** [bytes.decode()], the UTF-8 decoder of the interpreter: [None] when
    the bytes are not valid. *)
Variable decode : string -> option string.

Definition named (table_name : string) (t : mysql_table) : bool :=
  match decode (tbl_name t) with
  | Some n => n =? table_name
  | None => false
  end.

(** A statement about one table: the server fails when it has no table of
    that name. *)
Definition query_table (statement table_name : string) : M mysql_table :=
  log_event (EvQuery statement);;
  server_call;;
  s <- get;;
  match find (named table_name) (database (_mysql s)) with
  | Some t => ret t
  | None => raise (MySQLError ER_NO_SUCH_TABLE)
  end.

(** [_mysql_cur.execute("SHOW TABLES")] and the [fetchall()] after it. *)
Definition show_tables : M (list string) :=
  log_event (EvQuery "SHOW TABLES");;
  server_call;;
  log_event EvFetchAll;;
  server_call;;
  s <- get;;
  ret (map tbl_name (database (_mysql s))).

(** [_mysql_cur_dict.execute("SHOW COLUMNS FROM ...")] and [fetchall()]. *)
Definition show_columns (table_name : string) : M (list column_row) :=
  t <- query_table ("SHOW COLUMNS FROM " ++ BQ ++ table_name ++ BQ) table_name;;
  log_event EvFetchAll;;
  server_call;;
  ret (tbl_columns t).

(** The [SELECT COUNT( * )] of [transfer] and its [fetchone()]. *)
Definition count_records (table_name : string) : M nat :=
  t <- query_table ("SELECT COUNT(*) AS " ++ BQ ++ "total_records" ++ BQ
                      ++ " FROM " ++ BQ ++ table_name ++ BQ) table_name;;
  log_event EvFetchOne;;
  server_call;;
  ret (List.length (tbl_rows t)).

(** [_mysql_cur.execute("SELECT * FROM ...")]; returns
    [[column[0] for column in self._mysql_cur.description]]. *)
Definition select_all (table_name : string) : M (list string) :=
  t <- query_table ("SELECT * FROM " ++ BQ ++ table_name ++ BQ) table_name;;
  let names := map Field (tbl_columns t) in
  modify (fun s => set_mysql (open_result_set (tbl_rows t) names (_mysql s)) s);;
  ret names.

(** [_mysql_cur.fetchmany(size)] *)
Definition fetchmany (size : nat) : M (list raw_row) :=
  log_event (EvFetchMany size);;
  server_call;;
  s <- get;;
  let rows := result_set (_mysql s) in
  modify (set_mysql (set_result_set (skipn size rows) (_mysql s)));;
  ret (firstn size rows).

(** [_mysql_cur.fetchall()] *)
Definition fetchall : M (list raw_row) :=
  log_event EvFetchAll;;
  server_call;;
  s <- get;;
  let rows := result_set (_mysql s) in
  modify (set_mysql (set_result_set [] (_mysql s)));;
  ret rows.

(** *** Calls on the SQLite connection *)

Definition value_eqb (a b : option string) : bool :=
  match a, b with
  | Some x, Some y => x =? y
  | None, None => true
  | _, _ => false
  end.

Fixpoint values_eqb (a b : list (option string)) : bool :=
  match a, b with
  | [], [] => true
  | x :: a', y :: b' => value_eqb x y && values_eqb a' b'
  | _, _ => false
  end.

Definition is_some (a : option string) : bool :=
  match a with Some _ => true | None => false end.

(** The values a row has in the columns of the [PRIMARY KEY] clause. *)
Definition primary_key (cols : list column_row) (row : bound_row)
  : list (option string) :=
  map snd (filter (fun cv => Key (fst cv) =? "PRI") (combine cols row)).

(** Two rows clash on the primary key, or on a column with a unique
    index.  A null never clashes. *)
Definition conflicts (cols : list column_row) (r1 r2 : bound_row) : bool :=
  (match primary_key cols r1 with
   | [] => false
   | k => forallb is_some k && values_eqb k (primary_key cols r2)
   end)
  || existsb (fun cvv => (Key (fst cvv) =? "UNI")
                         && is_some (fst (snd cvv))
                         && value_eqb (fst (snd cvv)) (snd (snd cvv)))
             (combine cols (combine r1 r2)).

(** A null in a column rendered [NOT NULL]. *)
Definition violates_not_null (cols : list column_row) (row : bound_row) : bool :=
  existsb (fun cv => negb (Null (fst cv) =? "YES") && negb (is_some (snd cv)))
          (combine cols row).

(** The row cannot enter the table: it has a null where none is allowed,
    or it clashes with a row of the table. *)
Definition breaks_constraint (cols : list column_row) (rows : list bound_row)
           (row : bound_row) : bool :=
  violates_not_null cols row || existsb (conflicts cols row) rows.

(** [INSERT OR IGNORE] of one row: a row that breaks a constraint is
    skipped. *)
Definition insert_or_ignore (cols : list column_row) (rows : list bound_row)
           (row : bound_row) : list bound_row :=
  if breaks_constraint cols rows row then rows else rows ++ [row].

Definition find_sqlite_table (table_name : string) (q : sqlite_conn)
  : option sqlite_table :=
  find (fun t => st_name t =? table_name) (tables q).

Fixpoint replace_table (t : sqlite_table) (ts : list sqlite_table)
  : list sqlite_table :=
  match ts with
  | [] => []
  | t' :: rest =>
      if st_name t' =? st_name t then t :: rest else t' :: replace_table t rest
  end.

(** [CREATE TABLE IF NOT EXISTS] *)
Definition create_table_if_not_exists (table_name : string)
           (cols : list column_row) (q : sqlite_conn) : sqlite_conn :=
  match find_sqlite_table table_name q with
  | Some _ => q
  | None => mk_sqlite_conn (tables q ++ [mk_sqlite_table table_name cols []])
                           (index_names q)
  end.

Definition index_name (table_name : string) (col : column_row) : string :=
  table_name ++ "_" ++ Schema.slugify (Field col) "_" ++ "_IDX".

(** The [CREATE INDEX] statements of the script, one per column keyed
    [UNI] or [MUL], in order; a name already taken stops the script. *)
Fixpoint create_indexes (table_name : string) (cols : list column_row)
         (q : sqlite_conn) : result unit * sqlite_conn :=
  match cols with
  | [] => (Ok tt, q)
  | col :: rest =>
      if TypeMapper.mem (Key col) ["UNI"; "MUL"] then
        let name := index_name table_name col in
        if TypeMapper.mem name (index_names q)
        then (Raise (SQLiteError ("index " ++ name ++ " already exists")), q)
        else create_indexes table_name rest
               (mk_sqlite_conn (tables q) (index_names q ++ [name]))
      else create_indexes table_name rest q
  end.

(** The statements of the script rendered for [table_name] from the column
    rows [cols], run on the target.  The engine is given the rows the
    script was rendered from and not its text: it performs the
    [CREATE TABLE IF NOT EXISTS] and the [CREATE INDEX] statements these
    rows stand for.  That the text spells these very statements is what
    [script_spells] below says, and a statement that depends on it asks
    for it. *)
Definition run_script (table_name : string) (cols : list column_row) : M unit :=
  fun s =>
    let (r, q) := create_indexes table_name cols
                    (create_table_if_not_exists table_name cols (_sqlite s)) in
    (r, set_sqlite q s).

(** [_sqlite_cur.executescript(script)] *)
Definition executescript (script table_name : string) (cols : list column_row)
  : M unit :=
  log_event (EvExecuteScript script);;
  run_script table_name cols.

(** [_sqlite.commit()] *)
Definition commit : M unit := log_event EvCommit.

(** [col.decode() if col is not None else None] *)
Definition decode_col (col : pyval) : result (option string) :=
  match col with
  | PyNone => Ok None
  | PyBytes b =>
      match decode b with
      | Some text => Ok (Some text)
      | None => Raise UnicodeDecodeError
      end
  | PyInt _ => Raise AttributeError
  end.

(** [tuple(... for col in row)] *)
Fixpoint decode_row (row : raw_row) : result bound_row :=
  match row with
  | [] => Ok []
  | col :: rest =>
      match decode_col col with
      | Raise e => Raise e
      | Ok v =>
          match decode_row rest with
          | Raise e => Raise e
          | Ok vs => Ok (v :: vs)
          end
      end
  end.

(** The generator handed to [executemany] is consumed row by row: the
    rows before the first one that fails to decode reach the engine. *)
Fixpoint bind_rows (rows : list raw_row) : list bound_row * option exn :=
  match rows with
  | [] => ([], None)
  | row :: rest =>
      match decode_row row with
      | Raise e => ([], Some e)
      | Ok b => let (bs, e) := bind_rows rest in (b :: bs, e)
      end
  end.

(** The table [t] after the rows [bound] went through [INSERT OR IGNORE],
    and the connection with [t] put in place of the table of its name. *)
Definition insert_bound (t : sqlite_table) (bound : list bound_row) : sqlite_table :=
  mk_sqlite_table (st_name t) (st_columns t)
                  (fold_left (insert_or_ignore (st_columns t)) bound (st_rows t)).

Definition put_table (t : sqlite_table) (q : sqlite_conn) : sqlite_conn :=
  mk_sqlite_conn (replace_table t (tables q)) (index_names q).

Definition raise_if (failure : option exn) : result unit :=
  match failure with
  | Some e => Raise e
  | None => Ok tt
  end.

(** [_sqlite_cur.executemany(sql, generator)] for an [INSERT OR IGNORE]
    into [table_name]. *)
Definition executemany (statement table_name : string) (rows : list raw_row)
  : M unit :=
  s <- get;;
  match find_sqlite_table table_name (_sqlite s) with
  | None =>
      log_event (EvExecuteMany statement []);;
      raise (SQLiteError ("no such table: " ++ table_name))
  | Some t =>
      log_event (EvExecuteMany statement (fst (bind_rows rows)));;
      modify (fun s' => set_sqlite (put_table (insert_bound t (fst (bind_rows rows)))
                                              (_sqlite s')) s');;
      lift (raise_if (snd (bind_rows rows)))
  end.

(** *** The methods *)

(** Returns the script together with the rows of [SHOW COLUMNS] it was
    rendered from; the engine model reads the meaning of the script off
    these rows. *)
Definition _build_create_table_sql (table_name : string)
  : M (string * list column_row) :=
  rows <- show_columns table_name;;
  match Schema.render_create_table_sql table_name rows with
  | Raise e => raise e
  | Ok script => ret (script, rows)
  end.

Definition lost_reconnecting : string :=
  "Connection to MySQL server lost." ++ NL ++ "Attempting to reconnect.".
Definition lost_aborted : string :=
  "Connection to MySQL server lost." ++ NL ++ "Reconnection attempt aborted.".

(** The [except] clauses shared by [_create_table] and
    [_transfer_table_data]; [again] is the call of the method on itself
    with [attempting_reconnect=True], [failed] the message of the error
    log.  After [again] returns, control falls through to the error log
    and the bare [raise]. *)
Definition on_mysql_error (attempting_reconnect : bool) (again : M unit)
           (failed : string) (errno : nat) : M unit :=
  (if (errno =? CR_SERVER_LOST)%nat then
     if negb attempting_reconnect then
       log_event (EvLog WARNING lost_reconnecting);;
       again
     else
       log_event (EvLog WARNING lost_aborted);;
       raise (MySQLError errno)
   else ret tt);;
  log_event (EvLog ERROR failed);;
  raise (MySQLError errno).

Definition on_sqlite_error (failed : string) (msg : string) : M unit :=
  log_event (EvLog ERROR failed);;
  raise (SQLiteError msg).

(** The [try] block of [_create_table]. *)
Definition create_table_block (table_name : string) (attempting_reconnect : bool)
  : M unit :=
  (if attempting_reconnect then reconnect else ret tt);;
  ddl <- _build_create_table_sql table_name;;
  executescript (fst ddl) table_name (snd ddl);;
  commit.

(** One activation of [_create_table]. *)
Definition create_table_call (again : M unit) (table_name : string)
           (attempting_reconnect : bool) : M unit :=
  let failed := "_create_table failed creating table " ++ table_name in
  try_except
    (create_table_block table_name attempting_reconnect)
    (on_mysql_error attempting_reconnect again failed)
    (on_sqlite_error failed).

(** The method calls itself only with [attempting_reconnect=True], and an
    activation with [True] makes no further call: two levels unfold the
    recursion completely. *)
Definition _create_table (table_name : string) (attempting_reconnect : bool)
  : M unit :=
  create_table_call (create_table_call (ret tt) table_name true)
                    table_name attempting_reconnect.

(** The body of the [for chunk in trange(...)] loop, and the loop over
    [count] consecutive chunk numbers starting at [chunk]. *)
Definition transfer_chunk (sql table_name : string) (size chunk : nat) : M unit :=
  log_event (EvChunk chunk);;
  modify (set_current_chunk_number chunk);;
  rows <- fetchmany size;;
  executemany sql table_name rows.

Fixpoint chunk_loop (sql table_name : string) (size chunk count : nat) : M unit :=
  match count with
  | O => ret tt
  | S count' =>
      transfer_chunk sql table_name size chunk;;
      chunk_loop sql table_name size (S chunk) count'
  end.

(** The [try] block of [_transfer_table_data]. *)
Definition transfer_block (table_name sql : string) (total_records : nat)
  : M unit :=
  s <- get;;
  (match _chunk_size s with
   | Some n =>
       if (n >? 0)%Z then
         let size := Z.to_nat n in
         let start := _current_chunk_number s in
         chunk_loop sql table_name size start (ceil_div total_records size - start)
       else
         rows <- fetchall;;
         executemany sql table_name rows
   | None =>
       rows <- fetchall;;
       executemany sql table_name rows
   end);;
  commit.

(** One activation of [_transfer_table_data]. *)
Definition transfer_table_data_call (again : M unit) (table_name sql : string)
           (total_records : nat) (attempting_reconnect : bool) : M unit :=
  let failed := "transfer failed inserting data into table " ++ table_name in
  (if attempting_reconnect then reconnect else ret tt);;
  try_except
    (transfer_block table_name sql total_records)
    (on_mysql_error attempting_reconnect again failed)
    (on_sqlite_error failed).

Definition _transfer_table_data (table_name sql : string) (total_records : nat)
           (attempting_reconnect : bool) : M unit :=
  transfer_table_data_call
    (transfer_table_data_call (ret tt) table_name sql total_records true)
    table_name sql total_records attempting_reconnect.

(** The INSERT statement [transfer] builds for a table. *)
Definition insert_statement (table_name : string) (columns : list string)
  : string :=
  let n := List.length columns in
  "INSERT OR IGNORE INTO " ++ Schema.DQ ++ table_name ++ Schema.DQ ++ " ("
    ++ PyStr.format (PyStr.rstrip " ," (PyStr.repeat (Schema.DQ ++ "{}" ++ Schema.DQ ++ ", ") n))
                    columns
    ++ ") VALUES (" ++ PyStr.rstrip " ," (PyStr.repeat "?, " n) ++ ")".

(** [row[0].decode()] *)
Definition decode_name (raw : string) : M string :=
  match decode raw with
  | Some text => ret text
  | None => raise UnicodeDecodeError
  end.

(** The body of the loop of [transfer] over the rows of [SHOW TABLES]. *)
Definition transfer_table (row : string) : M unit :=
  modify (set_current_chunk_number 0);;
  table_name <- decode_name row;;
  _create_table table_name false;;
  total_records <- count_records table_name;;
  if (0 <? total_records)%nat then
    log_event (EvLog INFO ("Transferring table " ++ table_name));;
    columns <- select_all table_name;;
    _transfer_table_data table_name (insert_statement table_name columns)
                         total_records false
  else ret tt.

Fixpoint transfer_tables (rows : list string) : M unit :=
  match rows with
  | [] => ret tt
  | row :: rest => transfer_table row;; transfer_tables rest
  end.

Definition transfer : M unit :=
  rows <- show_tables;;
  transfer_tables rows;;
  s <- get;;
  (if _vacuum s then
     log_event (EvLog INFO ("Vacuuming created SQLite database file." ++ NL
                              ++ "This might take a while."));;
     log_event (EvExecute "VACUUM")
   else ret tt);;
  log_event (EvLog INFO "Done!").

(** *** The effect of a copy on the target, stated on its own

    One bulk insert of [rows] into [table_name]: what an [executemany] over
    all the rows leaves in the target, and whether it raised. *)
Definition copy_outcome (table_name : string) (rows : list raw_row)
           (q : sqlite_conn) : result unit * sqlite_conn :=
  match find_sqlite_table table_name q with
  | None => (Raise (SQLiteError ("no such table: " ++ table_name)), q)
  | Some t =>
      (raise_if (snd (bind_rows rows)),
       put_table (insert_bound t (fst (bind_rows rows))) q)
  end.

(** *** Sources a second run leaves the target alone for

    A row is keyed when, once it is in the table, an insert of the same
    row is skipped: it decodes, and it clashes with itself on the primary
    key (or is refused for a null). *)
Definition keyed (cols : list column_row) (row : raw_row) : bool :=
  match decode_row row with
  | Ok b => violates_not_null cols b || conflicts cols b b
  | Raise _ => false
  end.

(** The table renders, has no column keyed [UNI] or [MUL] (so its script
    holds no [CREATE INDEX]), and all its rows are keyed. *)
Definition rerun_safe_table (table_name : string) (t : mysql_table) : bool :=
  match Schema.render_create_table_sql table_name (tbl_columns t) with
  | Ok _ => true
  | Raise _ => false
  end
  && forallb (fun c => negb (TypeMapper.mem (Key c) ["UNI"; "MUL"])) (tbl_columns t)
  && forallb (keyed (tbl_columns t)) (tbl_rows t).

(** The same for the table a row of [SHOW TABLES] names. *)
Definition rerun_safe_row (db : list mysql_table) (row : string) : bool :=
  match decode row with
  | Some table_name =>
      match find (named table_name) db with
      | Some t => rerun_safe_table table_name t
      | None => false
      end
  | None => false
  end.

Definition rerun_safe (db : list mysql_table) : bool :=
  forallb (rerun_safe_row db) (map tbl_name db).

(** The target after the table [t] went through one step of the loop of
    [transfer], and after all the rows of [SHOW TABLES] did. *)
Definition copy_table (t : mysql_table) (table_name : string) (q : sqlite_conn)
  : sqlite_conn :=
  let q1 := create_table_if_not_exists table_name (tbl_columns t) q in
  match tbl_rows t with
  | [] => q1
  | _ => snd (copy_outcome table_name (tbl_rows t) q1)
  end.

Definition copy_row (db : list mysql_table) (q : sqlite_conn) (row : string)
  : sqlite_conn :=
  match decode row with
  | Some table_name =>
      match find (named table_name) db with
      | Some t => copy_table t table_name q
      | None => q
      end
  | None => q
  end.

End Transporter.

(** ** Concrete databases and runs used below *)

Module Scenario.

(** A decoder for the examples: it agrees with UTF-8 on ASCII bytes and
    rejects every other byte. *)
Definition ascii_decode (b : string) : option string :=
  if PyStr.all_chars (fun c => (PyStr.code c <? 128)%nat) b then Some b else None.

(** A freshly constructed object: chunk number 0, nothing fetched, an
    empty target. *)
Definition new_object (db : list mysql_table) (chunk_size : option Z) (vacuum : bool)
           (script : list (option nat)) : self :=
  mk_self 0 chunk_size vacuum (mk_mysql_conn db [] [] script)
          (mk_sqlite_conn [] []) [].

(** A second object on the same source, opened on the target file the
    run [s] left behind. *)
Definition reopened (s : self) : self :=
  mk_self 0 (_chunk_size s) (_vacuum s)
          (mk_mysql_conn (database (_mysql s)) [] [] [])
          (_sqlite s) [].

(** The table [orders] of the scenario, as [SHOW COLUMNS] reports it when
    [sku] is declared NOT NULL, and when it is left nullable. *)
Definition orders_columns : list column_row :=
  [ mk_column_row "id" "int(11)" "NO" "PRI";
    mk_column_row "sku" "varchar(50)" "NO" "UNI";
    mk_column_row "qty" "int(11)" "NO" "" ].

Definition orders_columns_nullable_sku : list column_row :=
  [ mk_column_row "id" "int(11)" "NO" "PRI";
    mk_column_row "sku" "varchar(50)" "YES" "UNI";
    mk_column_row "qty" "int(11)" "NO" "" ].

Definition quoted (s : string) : string := Schema.DQ ++ s ++ Schema.DQ.

(** The script as the scenario of the specification spells it. *)
Definition orders_script_claimed : string :=
  "CREATE TABLE IF NOT EXISTS " ++ quoted "orders" ++ " ( " ++ quoted "id"
    ++ " INTEGER NOT NULL, " ++ quoted "sku" ++ " VARCHAR(50) NOT NULL, " ++ quoted "qty"
    ++ " INTEGER NOT NULL, PRIMARY KEY(" ++ quoted "id"
    ++ "));CREATE UNIQUE INDEX orders_sku_IDX ON " ++ quoted "orders" ++ " ("
    ++ quoted "sku" ++ ");".

(** The script the builder renders, for a nullability [sku_null] of [sku]. *)
Definition orders_script (sku_null : string) : string :=
  "CREATE TABLE IF NOT EXISTS " ++ quoted "orders" ++ " ( " ++ quoted "id"
    ++ " INTEGER NOT NULL, " ++ quoted "sku" ++ " VARCHAR(50) " ++ sku_null ++ ", "
    ++ quoted "qty" ++ " INTEGER NOT NULL, PRIMARY KEY (" ++ quoted "id"
    ++ ")); CREATE UNIQUE INDEX orders_sku_IDX ON " ++ quoted "orders" ++ " ("
    ++ quoted "sku" ++ ");".

(** A table without any key: one nullable integer column. *)
Definition plain_columns : list column_row :=
  [ mk_column_row "v" "int(11)" "YES" "" ].

Definition digit (n : nat) : pyval :=
  PyBytes (String (ascii_of_nat (48 + n)) EmptyString).

Definition plain_db : list mysql_table :=
  [ mk_mysql_table "t" plain_columns [[digit 1]; [digit 2]] ].

(** A table with a primary key. *)
Definition keyed_columns : list column_row :=
  [ mk_column_row "id" "int(11)" "NO" "PRI";
    mk_column_row "v" "text" "YES" "" ].

Definition keyed_db : list mysql_table :=
  [ mk_mysql_table "k" keyed_columns
      [[digit 1; PyBytes "a"]; [digit 2; PyNone]; [digit 3; PyBytes "c"]];
    mk_mysql_table "empty" keyed_columns [] ].

(** The state in which [transfer] calls [_transfer_table_data] for a
    table [t] of [rows]: the result set of [SELECT *] is open. *)
Definition copying (rows : list raw_row) (chunk_size : option Z)
           (script : list (option nat)) : self :=
  mk_self 0 chunk_size false
          (mk_mysql_conn [mk_mysql_table "t" plain_columns rows] rows ["v"] script)
          (mk_sqlite_conn [mk_sqlite_table "t" plain_columns []] []) [].

Definition insert_t : string := insert_statement "t" ["v"].

(** A thousand rows, for the scenario of ten chunks of a hundred. *)
Definition thousand_rows : list raw_row := List.repeat [PyBytes "x"] 1000.

(** The script under which the first [lost] fetches succeed and the next
    one loses the connection. *)
Definition lost_after (fetches : nat) : list (option nat) :=
  List.repeat None fetches ++ [Some CR_SERVER_LOST].

(** The run of ten chunks of a hundred rows in which the connection is lost
    at the fetch of chunk [k]; [again] tells whether the fetch after the
    reconnect loses it once more. *)
Definition disconnect_at (k : nat) (again : bool) : result unit * self :=
  _transfer_table_data ascii_decode "t" insert_t 1000 false
    (copying thousand_rows (Some 100%Z)
             (lost_after k ++ (if again then [None; Some CR_SERVER_LOST] else []))).

Definition count_reconnects (evs : list event) : nat :=
  List.length (filter (fun e => match e with EvReconnect => true | _ => false end) evs).

(** The chunk numbers handed out during a run, in order. *)
Fixpoint chunks_of (evs : list event) : list nat :=
  match evs with
  | [] => []
  | EvChunk c :: rest => c :: chunks_of rest
  | _ :: rest => chunks_of rest
  end.

(** The calls on the SQLite connection among the events. *)
Definition on_target (e : event) : bool :=
  match e with
  | EvExecuteScript _ | EvExecuteMany _ _ | EvExecute _ | EvCommit => true
  | _ => false
  end.

(** Every [executemany] is directly followed by a [commit] on the target. *)
Fixpoint commit_follows_each_insert (target_events : list event) : bool :=
  match target_events with
  | [] => true
  | EvExecuteMany _ _ :: rest =>
      match rest with
      | EvCommit :: _ => commit_follows_each_insert rest
      | _ => false
      end
  | _ :: rest => commit_follows_each_insert rest
  end.

Definition is_insert (e : event) : bool :=
  match e with EvExecuteMany _ _ => true | _ => false end.

Definition is_commit (e : event) : bool :=
  match e with EvCommit => true | _ => false end.

(** The number of rows of every table of the target, by table name. *)
Definition row_counts (q : sqlite_conn) : list (string * nat) :=
  map (fun t => (st_name t, List.length (st_rows t))) (tables q).

End Scenario.

(** ** Predicates used in the statements below *)

(** What a step leaves unchanged when the server raises nothing, and what
    it leaves in the result set and in the target. *)
Definition leaves (s s' : self) (rest : list raw_row) (q : sqlite_conn) : Prop :=
  _sqlite s' = q
  /\ result_set (_mysql s') = rest
  /\ faults (_mysql s') = faults (_mysql s)
  /\ database (_mysql s') = database (_mysql s)
  /\ _chunk_size s' = _chunk_size s
  /\ _vacuum s' = _vacuum s.

(** What a step leaves unchanged on a server that raises nothing. *)
Definition unchanged (s s' : self) : Prop :=
  faults (_mysql s') = faults (_mysql s)
  /\ database (_mysql s') = database (_mysql s)
  /\ _chunk_size s' = _chunk_size s
  /\ _vacuum s' = _vacuum s.

(** Every run of [m] appends events that all satisfy [P]. *)
Definition emits {A} (P : event -> Prop) (m : M A) : Prop :=
  forall s, exists evs, events (snd (m s)) = (events s ++ evs)%list /\ Forall P evs.

Definition not_commit (e : event) : Prop := Scenario.is_commit e = false.
Definition not_insert (e : event) : Prop := Scenario.is_insert e = false.

Section RerunPredicates.

Variable decode : string -> option string.

(** Every row of [bound] is one the table [T] would skip. *)
Definition absorbed (T : sqlite_table) (bound : list bound_row) : Prop :=
  Forall (fun b => breaks_constraint (st_columns T) (st_rows T) b = true) bound.

(** The target has the table, and the table would skip every row of the
    source table [t]. *)
Definition settled (q : sqlite_conn) (table_name : string) (t : mysql_table) : Prop :=
  exists T, find_sqlite_table table_name q = Some T
            /\ absorbed T (fst (bind_rows decode (tbl_rows t))).

(** Every table of the target has the columns of the source table of its
    name. *)
Definition columns_agree (db : list mysql_table) (q : sqlite_conn) : Prop :=
  forall table_name T t,
    find_sqlite_table table_name q = Some T ->
    find (named decode table_name) db = Some t ->
    st_columns T = tbl_columns t.

End RerunPredicates.

(** ** Further definitions for the properties of the whole file *)

(** The names the type mapper returns without a length, and the ones it
    returns with the length of the source type appended. *)
Definition plain_target_types : list string :=
  ["TINYINT"; "SMALLINT"; "MEDIUMINT"; "INTEGER"; "BIGINT"; "DOUBLE"; "FLOAT";
   "NUMERIC"; "REAL"; "DATETIME"; "DATE"; "BLOB"; "BOOLEAN"; "TEXT"].

Definition sized_target_types : list string :=
  ["CHARACTER"; "NCHAR"; "NVARCHAR"; "VARCHAR"].

(** An ASCII letter. *)
Definition isalpha (c : ascii) : bool :=
  let n := PyStr.code c in
  (((65 <=? n) && (n <=? 90)) || ((97 <=? n) && (n <=? 122)))%nat.

(** An ASCII character: on these [str.upper] is the upper-casing above. *)
Definition isascii (c : ascii) : bool := (PyStr.code c <? 128)%nat.

(** A string as [" ".join(s.split())] leaves it: the only whitespace is
    the single space, never at either end and never twice in a row.
    [after_space] tells that the character before was a space (or that
    there was none). *)
Fixpoint single_spaced_from (after_space : bool) (s : string) : bool :=
  match s with
  | EmptyString => negb after_space
  | String c r =>
      if PyStr.isspace c
      then Ascii.eqb c " " && negb after_space && single_spaced_from true r
      else single_spaced_from false r
  end.

Definition single_spaced (s : string) : bool :=
  match s with
  | EmptyString => true
  | _ => single_spaced_from true s
  end.

(** The column row has a type in which the pattern finds no leading token. *)
Definition bad_type (row : column_row) : bool :=
  match TypeMapper._valid_column_type (Type_ row) with
  | None => true
  | Some _ => false
  end.

(** A word of [s.split()]: not empty, and free of whitespace. *)
Definition word (w : string) : Prop :=
  w <> EmptyString /\ PyStr.all_chars (fun c => negb (PyStr.isspace c)) w = true.

(** The kinds of events.  The message [Done!] has a kind of its own, and
    so has the only statement ever run with [execute], the [VACUUM]. *)
Inductive event_kind : Type :=
| KReconnect | KQuery | KFetch | KChunk | KScript | KInsert | KVacuum | KCommit
| KLog | KDone.

Definition kind_of (e : event) : event_kind :=
  match e with
  | EvReconnect => KReconnect
  | EvQuery _ => KQuery
  | EvChunk _ => KChunk
  | EvFetchMany _ | EvFetchAll | EvFetchOne => KFetch
  | EvExecuteScript _ => KScript
  | EvExecuteMany _ _ => KInsert
  | EvExecute _ => KVacuum
  | EvCommit => KCommit
  | EvLog _ message => if message =? "Done!" then KDone else KLog
  end.

Definition kind_eqb (a b : event_kind) : bool :=
  match a, b with
  | KReconnect, KReconnect | KQuery, KQuery | KFetch, KFetch | KChunk, KChunk
  | KScript, KScript | KInsert, KInsert | KVacuum, KVacuum | KCommit, KCommit
  | KLog, KLog | KDone, KDone => true
  | _, _ => false
  end.

(** The event is of one of the [kinds]. *)
Definition only (kinds : list event_kind) (e : event) : Prop :=
  existsb (kind_eqb (kind_of e)) kinds = true.

(** What the [try] block of [_create_table] emits on a first attempt, what
    the one of [_transfer_table_data] emits, and what the loop of
    [transfer] emits. *)
Definition creating : list event_kind := [KQuery; KFetch; KScript; KCommit].
Definition copying_rows : list event_kind := [KChunk; KFetch; KInsert; KCommit].
Definition working : list event_kind :=
  [KReconnect; KQuery; KFetch; KChunk; KScript; KInsert; KCommit; KLog].

(** Every run of [m] makes at most [n] reconnects. *)
Definition reconnects_within (n : nat) {A} (m : M A) : Prop :=
  forall s, exists evs,
    events (snd (m s)) = (events s ++ evs)%list
    /\ Scenario.count_reconnects evs <= n.

Definition vacuum_message : string :=
  "Vacuuming created SQLite database file." ++ NL ++ "This might take a while.".

(** The target [q'] still has every table of [q], with the same columns,
    and with the rows of [q] first and in their order. *)
Definition grows (q q' : sqlite_conn) : Prop :=
  forall table_name T,
    find_sqlite_table table_name q = Some T ->
    exists T',
      find_sqlite_table table_name q' = Some T'
      /\ st_columns T' = st_columns T
      /\ exists more, st_rows T' = (st_rows T ++ more)%list.

(** No run of [m] takes anything away from the target. *)
Definition append_only {A} (m : M A) : Prop :=
  forall s, grows (_sqlite s) (_sqlite (snd (m s))).

(** The size of the chunks when the object copies in chunks:
    [self._chunk_size is not None and self._chunk_size > 0]. *)
Definition chunking (s : self) : option nat :=
  match _chunk_size s with
  | Some n => if (n >? 0)%Z then Some (Z.to_nat n) else None
  | None => None
  end.

(** The rows of the open result set that [_transfer_table_data] reads
    when the server raises nothing: in chunks, as many chunks as the count
    of records asks for beyond the current chunk number; otherwise all. *)
Definition rows_read (total_records : nat) (s : self) : list raw_row :=
  match chunking s with
  | Some size =>
      firstn ((ceil_div total_records size - _current_chunk_number s) * size)
             (result_set (_mysql s))
  | None => result_set (_mysql s)
  end.

(** The names of the indexes the script of a table creates, in order. *)
Definition index_names_of (table_name : string) (cols : list column_row)
  : list string :=
  map (index_name table_name)
      (filter (fun c => TypeMapper.mem (Key c) ["UNI"; "MUL"]) cols).

Fixpoint distinct (l : list string) : bool :=
  match l with
  | [] => true
  | x :: rest => negb (TypeMapper.mem x rest) && distinct rest
  end.

(** No row has a null in a [NOT NULL] column, and no row clashes with a
    row before it. *)
Fixpoint compatible (cols : list column_row) (rows : list bound_row) : bool :=
  match rows with
  | [] => true
  | r :: rest =>
      negb (violates_not_null cols r)
      && forallb (fun r' => negb (conflicts cols r' r)) rest
      && compatible cols rest
  end.

(** ** The statements a script spells

    What SQLite reads in a script of the shape [_build_create_table_sql]
    writes, and in the INSERT statement of [transfer].  The reader is
    strict: a text it does not read as statements of that shape is not
    read at all. *)

Inductive token : Type :=
| TWord (w : string)       (* a run of letters, digits and underscores *)
| TName (name : string)    (* a name in double quotes *)
| TOpen | TClose | TComma | TSemi | TMark.

Inductive lex_state : Type :=
| LOut
| LWord (w : string)
| LName (name : string).

Definition isword (c : ascii) : bool := Schema.isalnum c || Ascii.eqb c "_".

Definition snoc (s : string) (c : ascii) : string := s ++ String c EmptyString.

(** The character [c] read between two tokens; [rest] reads what follows
    in the state it is given. *)
Definition lex_between (c : ascii) (rest : lex_state -> option (list token))
  : option (list token) :=
  if Ascii.eqb c " " then rest LOut
  else if (PyStr.code c =? 34)%nat then rest (LName EmptyString)
  else if isword c then rest (LWord (String c EmptyString))
  else
    match (if Ascii.eqb c "(" then Some TOpen
           else if Ascii.eqb c ")" then Some TClose
           else if Ascii.eqb c "," then Some TComma
           else if Ascii.eqb c ";" then Some TSemi
           else if Ascii.eqb c "?" then Some TMark
           else None) with
    | Some t => option_map (cons t) (rest LOut)
    | None => None
    end.

(** A name in double quotes holds no double quote, no NUL, and is not
    empty; a closing quote is not followed by another quote. *)
Fixpoint lex (st : lex_state) (s : string) : option (list token) :=
  match s with
  | EmptyString =>
      match st with
      | LOut => Some []
      | LWord w => Some [TWord w]
      | LName _ => None
      end
  | String c r =>
      match st with
      | LName name =>
          if (PyStr.code c =? 34)%nat then
            match name, r with
            | EmptyString, _ => None
            | _, String c' _ =>
                if (PyStr.code c' =? 34)%nat then None
                else option_map (cons (TName name)) (lex LOut r)
            | _, EmptyString => Some [TName name]
            end
          else if (PyStr.code c =? 0)%nat then None
          else lex (LName (snoc name c)) r
      | LWord w =>
          if isword c then lex (LWord (snoc w c)) r
          else option_map (cons (TWord w)) (lex_between c (fun st' => lex st' r))
      | LOut => lex_between c (fun st' => lex st' r)
      end
  end.

Record sql_column : Type := mk_sql_column {
  sc_name : string;
  sc_type : string;
  sc_nullable : bool
}.

Inductive statement : Type :=
| CreateTable (table_name : string) (columns : list sql_column)
              (primary_key : list string)
| CreateIndex (unique : bool) (index table_name column : string)
| InsertOrIgnore (table_name : string) (columns : list string) (marks : nat).

(** An identifier written without quotes: it does not start with a digit. *)
Definition identifier (w : string) : bool :=
  match w with
  | EmptyString => false
  | String c _ => isword c && negb (PyStr.isdigit c)
  end.

Definition all_letters (w : string) : bool :=
  match w with
  | EmptyString => false
  | _ => PyStr.all_chars (fun c => isword c && negb (PyStr.isdigit c)
                                   && negb (Ascii.eqb c "_")) w
  end.

Definition all_digits (w : string) : bool :=
  match w with
  | EmptyString => false
  | _ => PyStr.all_chars PyStr.isdigit w
  end.

(** [TYPE] or [TYPE(digits)] *)
Definition read_type (ts : list token) : option (string * list token) :=
  match ts with
  | TWord w :: TOpen :: TWord d :: TClose :: rest =>
      if all_letters w && all_digits d
      then Some (w ++ "(" ++ d ++ ")", rest) else None
  | TWord w :: rest => if all_letters w then Some (w, rest) else None
  | _ => None
  end.

(** [NULL] or [NOT NULL] *)
Definition read_null (ts : list token) : option (bool * list token) :=
  match ts with
  | TWord "NULL" :: rest => Some (true, rest)
  | TWord "NOT" :: TWord "NULL" :: rest => Some (false, rest)
  | _ => None
  end.

(** ["a", "b", ... )]: the names up to the closing parenthesis. *)
Fixpoint read_names (ts : list token) : option (list string * list token) :=
  match ts with
  | TName n :: TClose :: rest => Some ([n], rest)
  | TName n :: TComma :: rest =>
      match read_names rest with
      | Some (ns, rest') => Some (n :: ns, rest')
      | None => None
      end
  | _ => None
  end.

(** The column definitions and the [PRIMARY KEY] clause, up to the
    parenthesis that closes [CREATE TABLE]. *)
Fixpoint read_columns (fuel : nat) (ts : list token)
  : option (list sql_column * list string * list token) :=
  match fuel with
  | O => None
  | S fuel' =>
      match ts with
      | TName n :: ts1 =>
          match read_type ts1 with
          | Some (ty, ts2) =>
              match read_null ts2 with
              | Some (nullable, ts3) =>
                  let col := mk_sql_column n ty nullable in
                  match ts3 with
                  | TClose :: rest => Some ([col], [], rest)
                  | TComma :: TWord "PRIMARY" :: TWord "KEY" :: TOpen :: ts4 =>
                      match read_names ts4 with
                      | Some (pk, TClose :: rest) => Some ([col], pk, rest)
                      | _ => None
                      end
                  | TComma :: ts4 =>
                      match read_columns fuel' ts4 with
                      | Some (cols, pk, rest) => Some (col :: cols, pk, rest)
                      | None => None
                      end
                  | _ => None
                  end
              | None => None
              end
          | None => None
          end
      | _ => None
      end
  end.

(** [?, ?, ... )] *)
Fixpoint read_marks (ts : list token) : option (nat * list token) :=
  match ts with
  | TMark :: TClose :: rest => Some (1, rest)
  | TMark :: TComma :: rest =>
      match read_marks rest with
      | Some (n, rest') => Some (S n, rest')
      | None => None
      end
  | _ => None
  end.

Definition read_statement (ts : list token) : option (statement * list token) :=
  match ts with
  | TWord "CREATE" :: TWord "TABLE" :: TWord "IF" :: TWord "NOT" :: TWord "EXISTS"
      :: TName t :: TOpen :: ts1 =>
      match read_columns (List.length ts1) ts1 with
      | Some (cols, pk, TSemi :: rest) => Some (CreateTable t cols pk, rest)
      | _ => None
      end
  | TWord "CREATE" :: TWord "UNIQUE" :: TWord "INDEX" :: TWord i :: TWord "ON"
      :: TName t :: TOpen :: TName c :: TClose :: TSemi :: rest =>
      if identifier i then Some (CreateIndex true i t c, rest) else None
  | TWord "CREATE" :: TWord "INDEX" :: TWord i :: TWord "ON"
      :: TName t :: TOpen :: TName c :: TClose :: TSemi :: rest =>
      if identifier i then Some (CreateIndex false i t c, rest) else None
  | TWord "INSERT" :: TWord "OR" :: TWord "IGNORE" :: TWord "INTO" :: TName t
      :: TOpen :: ts1 =>
      match read_names ts1 with
      | Some (cols, TWord "VALUES" :: TOpen :: ts2) =>
          match read_marks ts2 with
          | Some (n, rest) => Some (InsertOrIgnore t cols n, rest)
          | None => None
          end
      | _ => None
      end
  | _ => None
  end.

Fixpoint read_statements (fuel : nat) (ts : list token) : option (list statement) :=
  match ts with
  | [] => Some []
  | _ =>
      match fuel with
      | O => None
      | S fuel' =>
          match read_statement ts with
          | Some (st, rest) =>
              match read_statements fuel' rest with
              | Some sts => Some (st :: sts)
              | None => None
              end
          | None => None
          end
      end
  end.

Definition read_script (script : string) : option (list statement) :=
  match lex LOut script with
  | Some ts => read_statements (List.length ts) ts
  | None => None
  end.

(** The statements the engine model performs for a script rendered for
    [table_name] from the rows [cols]: the table with its columns, their
    translated types and nullability and its primary key, then one index
    per column keyed [UNI] or [MUL]. *)
Fixpoint sql_columns (cols : list column_row) : option (list sql_column) :=
  match cols with
  | [] => Some []
  | c :: rest =>
      match TypeMapper._translate_type_from_mysql_to_sqlite (Type_ c),
            sql_columns rest with
      | Ok type, Some l =>
          Some (mk_sql_column (Field c) type (Null c =? "YES") :: l)
      | _, _ => None
      end
  end.

Definition statements_of (table_name : string) (cols : list column_row)
  : option (list statement) :=
  match sql_columns cols with
  | Some l =>
      Some (CreateTable table_name l
                        (map Field (filter (fun c => Key c =? "PRI") cols))
              :: map (fun c => CreateIndex (Key c =? "UNI")
                                           (index_name table_name c)
                                           table_name (Field c))
                     (filter (fun c => TypeMapper.mem (Key c) ["UNI"; "MUL"]) cols))
  | None => None
  end.

(** The script the builder renders for the table spells the statements
    the engine model performs; and the INSERT statement of [transfer]
    spells an insert into the table, with its columns and one mark each. *)
Definition script_spells (table_name : string) (cols : list column_row) : Prop :=
  match Schema.render_create_table_sql table_name cols with
  | Ok script =>
      exists statements,
        statements_of table_name cols = Some statements
        /\ read_script script = Some statements
  | Raise _ => True
  end.

Definition insert_spells (table_name : string) (columns : list string) : Prop :=
  read_script (insert_statement table_name columns)
  = Some [InsertOrIgnore table_name columns (List.length columns)].

(** A name SQLite keeps for itself. *)
Definition reserved (name : string) : bool :=
  String.prefix "SQLITE_" (PyStr.upper name).

(** A column of the declared type keeps a text as it is bound (SQLite
    gives it the affinity TEXT or BLOB); in a column of another type a
    text that reads as a number is stored as that number. *)
Definition keeps_text (type : string) : bool :=
  String.prefix "CHARACTER" type || String.prefix "NCHAR" type
  || String.prefix "NVARCHAR" type || String.prefix "VARCHAR" type
  || (type =? "TEXT") || (type =? "BLOB").

(** A decimal number of at most 15 digits without a sign or leading
    zeros: two of them are the same number only when they are the same
    text. *)
Definition plain_number (text : string) : bool :=
  match text with
  | EmptyString => false
  | String c rest =>
      PyStr.all_chars PyStr.isdigit text
      && (negb (Ascii.eqb c "0") || (rest =? EmptyString))
      && (String.length text <=? 15)%nat
  end.

(** The value is compared by the engine as the text bound: it is no part
    of a key, or it sits in a column that keeps texts, or it is a plain
    number.  A primary key has a value. *)
Definition key_value_plain (col : column_row) (value : option string) : bool :=
  if TypeMapper.mem (Key col) ["PRI"; "UNI"] then
    match value with
    | None => negb (Key col =? "PRI")
    | Some text =>
        match TypeMapper._translate_type_from_mysql_to_sqlite (Type_ col) with
        | Ok type => keeps_text type || plain_number text
        | Raise _ => false
        end
    end
  else true.

Definition keys_plain (cols : list column_row) (row : bound_row) : bool :=
  forallb (fun cv => key_value_plain (fst cv) (snd cv)) (combine cols row).

Section Fidelity.

Variable decode : string -> option string.

Definition decoded_name (t : mysql_table) : string :=
  match decode (tbl_name t) with
  | Some table_name => table_name
  | None => EmptyString
  end.

(** The source table as a table of the target: its decoded name, its
    columns, and its rows decoded, in order. *)
Definition image (t : mysql_table) : sqlite_table :=
  mk_sqlite_table (decoded_name t) (tbl_columns t)
                  (fst (bind_rows decode (tbl_rows t))).

Definition indexes_of (t : mysql_table) : list string :=
  index_names_of (decoded_name t) (tbl_columns t).

(** The table can be copied whole: its name decodes, its columns render,
    all its values decode, and its rows are compatible. *)
Definition copies_whole (t : mysql_table) : bool :=
  match decode (tbl_name t) with
  | Some table_name =>
      match Schema.render_create_table_sql table_name (tbl_columns t) with
      | Ok _ => true
      | Raise _ => false
      end
  | None => false
  end
  && match snd (bind_rows decode (tbl_rows t)) with
     | None => true
     | Some _ => false
     end
  && compatible (tbl_columns t) (fst (bind_rows decode (tbl_rows t))).

(** The table fits the target: no two of its columns share a name, every
    row has one value per column, its name is not reserved, and the
    values of its keys are compared as the texts bound.  SQLite compares
    names without regard to the case of ASCII letters. *)
Definition table_fits (t : mysql_table) : bool :=
  distinct (map PyStr.upper (map Field (tbl_columns t)))
  && forallb (fun row => (List.length row =? List.length (tbl_columns t))%nat)
             (tbl_rows t)
  && negb (reserved (decoded_name t))
  && forallb (keys_plain (tbl_columns t)) (fst (bind_rows decode (tbl_rows t))).

(** Every table can be copied whole and fits the target, and no two of
    the tables and indexes share a name. *)
Definition faithful_source (db : list mysql_table) : bool :=
  forallb copies_whole db
  && forallb table_fits db
  && distinct (map PyStr.upper (map decoded_name db ++ flat_map indexes_of db)).

(** What the run sends for the table spells what the engine model does
    with it. *)
Definition scripts_spell (t : mysql_table) : Prop :=
  match decode (tbl_name t) with
  | Some table_name =>
      script_spells table_name (tbl_columns t)
      /\ insert_spells table_name (map Field (tbl_columns t))
  | None => True
  end.

End Fidelity.

Section Sent.

Variable decode : string -> option string.
Variable db : list mysql_table.

(** [t] is a table of the source, and [table_name] is its name. *)
Definition of_source (table_name : string) (t : mysql_table) : Prop :=
  In t db /\ decode (tbl_name t) = Some table_name.

(** What is sent to SQLite with the event, if anything, spells the
    creation of a table of the source with its indexes, or an insert into
    one, or is the [VACUUM].  (A [commit] sends no statement.) *)
Definition spelt (e : event) : Prop :=
  match e with
  | EvExecuteScript script =>
      exists table_name t statements,
        of_source table_name t
        /\ statements_of table_name (tbl_columns t) = Some statements
        /\ read_script script = Some statements
  | EvExecuteMany statement _ =>
      exists table_name t,
        of_source table_name t
        /\ read_script statement
           = Some [InsertOrIgnore table_name (map Field (tbl_columns t))
                                  (List.length (map Field (tbl_columns t)))]
  | EvExecute statement => statement = "VACUUM"
  | _ => True
  end.

(** Every run of [m] on the source [db] stays on it and appends events
    that are all [spelt]; a value it returns satisfies [Q]. *)
Definition sends {A} (Q : A -> Prop) (m : M A) : Prop :=
  forall s,
    database (_mysql s) = db ->
    exists evs,
      events (snd (m s)) = (events s ++ evs)%list
      /\ Forall spelt evs
      /\ database (_mysql (snd (m s))) = db
      /\ match fst (m s) with
         | Ok a => Q a
         | Raise _ => True
         end.

End Sent.

(** No condition on the value returned. *)
Definition anything {A : Type} : A -> Prop := fun _ => True.

(** A source with a primary key, a unique index, a table without any key
    that holds the same row twice, and an empty table. *)
Definition shop_db : list mysql_table :=
  [ mk_mysql_table "orders" Scenario.orders_columns
      [[Scenario.digit 1; PyBytes "a"; Scenario.digit 5];
       [Scenario.digit 2; PyBytes "b"; Scenario.digit 5]];
    mk_mysql_table "t" Scenario.plain_columns [[Scenario.digit 1]; [Scenario.digit 1]];
    mk_mysql_table "empty" Scenario.keyed_columns [] ].

(** The events up to the first reconnect. *)
Fixpoint before_reconnect (evs : list event) : list event :=
  match evs with
  | [] => []
  | EvReconnect :: _ => []
  | e :: rest => e :: before_reconnect rest
  end.

(** A source of two tables, and the run of [transfer] on it, in chunks of
    two rows, in which the connection is lost once: at the fetch of the
    second chunk of the first table (the ninth call on the server). *)
Definition two_tables : list mysql_table :=
  [ mk_mysql_table "a" Scenario.plain_columns
      [[Scenario.digit 1]; [Scenario.digit 2]; [Scenario.digit 3]; [Scenario.digit 4]];
    mk_mysql_table "b" Scenario.plain_columns [[Scenario.digit 5]] ].

Definition lost_in_first_table : result unit * self :=
  transfer Scenario.ascii_decode
           (Scenario.new_object two_tables (Some 2%Z) false (Scenario.lost_after 8)).

(** * Properties of the type mapper *)

Module TypeMapperFacts.
Import TypeMapper.

Lemma column_prefix_empty (s : string) :
  column_prefix s = EmptyString <->
  s = EmptyString \/ exists r, s = String "(" r.
Proof.
  destruct s as [|c r]; cbn.
  - split; auto.
  - destruct (Ascii.eqb_spec c "(") as [->|Hc].
    + split; eauto.
    + split; [discriminate|].
      intros [H|[r' H]]; [discriminate|]. injection H as H _. contradiction.
Qed.

Lemma pattern_match_none (s : string) :
  COLUMN_PATTERN_match s = None <-> column_prefix s = EmptyString.
Proof.
  unfold COLUMN_PATTERN_match. destruct (column_prefix s); split; congruence.
Qed.

(** After a successful match the result is never an exception. *)
Lemma translate_some_ok (s m : string) :
  _valid_column_type s = Some m ->
  exists t, _translate_type_from_mysql_to_sqlite s = Ok t.
Proof.
  intros Hm. unfold _translate_type_from_mysql_to_sqlite. rewrite Hm.
  repeat match goal with
         | |- context [if ?b then _ else _] => destruct b; [eauto|]
         end.
  eauto.
Qed.

Lemma mem_false_cons (x y : string) (l : list string) :
  mem x (y :: l) = false -> (x =? y) = false /\ mem x l = false.
Proof. unfold mem. cbn [existsb]. apply orb_false_iff. Qed.

Ltac split_mem H :=
  repeat match type of H with
         | mem _ (_ :: _) = false =>
             let E := fresh "E" in
             apply mem_false_cons in H; destruct H as [E H]
         end.

(** Claim C6.  The type mapper is a function, so it is deterministic and
    gives a result on every string.  It raises exactly when the pattern
    finds no leading token, which is exactly when the stripped input is
    empty or begins with an opening parenthesis; and when a token is
    found whose upper-case form is none of the known type names, the
    result is TEXT. *)
Theorem translate_raises_iff_no_token (s : string) :
  ((exists e, _translate_type_from_mysql_to_sqlite s = Raise e) <->
   _valid_column_type s = None)
  /\ (_valid_column_type s = None <->
      (PyStr.strip s = EmptyString \/ exists r, PyStr.strip s = String "(" r))
  /\ (forall m, _valid_column_type s = Some m ->
                mem (PyStr.upper m) known_types = false ->
                _translate_type_from_mysql_to_sqlite s = Ok "TEXT").
Proof.
  split; [|split].
  - split.
    + intros [e He]. destruct (_valid_column_type s) as [m|] eqn:Hm; [|reflexivity].
      destruct (translate_some_ok s m Hm) as [t Ht]. congruence.
    + intros Hm. unfold _translate_type_from_mysql_to_sqlite. rewrite Hm. eauto.
  - unfold _valid_column_type. rewrite pattern_match_none.
    apply column_prefix_empty.
  - intros m Hm Hk. unfold _translate_type_from_mysql_to_sqlite. rewrite Hm.
    unfold known_types in Hk. split_mem Hk. cbv zeta.
    unfold mem. cbn [existsb].
    repeat match goal with
           | E : (_ =? _) = false |- _ => rewrite E; clear E
           end.
    reflexivity.
Qed.

Lemma translate_raises_iff_no_token_witness :
  _translate_type_from_mysql_to_sqlite "ENUM('a','b')" = Ok "TEXT"
  /\ (exists e, _translate_type_from_mysql_to_sqlite "(11)" = Raise e)
  /\ (exists e, _translate_type_from_mysql_to_sqlite "" = Raise e).
Proof.
  split; [|split].
  - exact (proj2 (proj2 (translate_raises_iff_no_token "ENUM('a','b')"))
                 "ENUM" eq_refl eq_refl).
  - exact (proj2 (proj1 (translate_raises_iff_no_token "(11)")) eq_refl).
  - exact (proj2 (proj1 (translate_raises_iff_no_token "")) eq_refl).
Defined.

(** Claim C5, as stated, fails on its own example: the branch for CHAR
    returns the name CHARACTER, not CHAR. *)
Lemma char_maps_to_character :
  _valid_column_type "CHAR(5)" = Some "CHAR"
  /\ _translate_type_from_mysql_to_sqlite "CHAR(5)" = Ok "CHARACTER(5)"
  /\ ~ _translate_type_from_mysql_to_sqlite "CHAR(5)" = Ok "CHAR(5)".
Proof. repeat split. discriminate. Qed.

(** Claim C5, amended.  When the leading token is CHAR the result is
    CHARACTER followed by the length suffix of the original string; when
    it is NCHAR, NVARCHAR or VARCHAR the result is that same name followed
    by the suffix.  The suffix is what [_column_type_length] finds, empty
    when the pattern does not match. *)
Theorem length_preserving_types (s m : string) :
  _valid_column_type s = Some m ->
  In (PyStr.upper m) ["CHAR"; "NCHAR"; "NVARCHAR"; "VARCHAR"] ->
  _translate_type_from_mysql_to_sqlite s =
  Ok ((if PyStr.upper m =? "CHAR" then "CHARACTER" else PyStr.upper m)
        ++ _column_type_length s).
Proof.
  intros Hm Hin. unfold _translate_type_from_mysql_to_sqlite. rewrite Hm.
  cbv zeta.
  destruct Hin as [H|[H|[H|[H|[]]]]]; rewrite <- H; reflexivity.
Qed.

Lemma length_preserving_types_witness :
  _translate_type_from_mysql_to_sqlite "VARCHAR(191)" = Ok "VARCHAR(191)".
Proof.
  exact (length_preserving_types "VARCHAR(191)" "VARCHAR" eq_refl
           (or_intror (or_intror (or_intror (or_introl eq_refl))))).
Defined.

(** The suffix is copied verbatim: for a prefix free of parentheses and a
    non-empty run of digits, the search returns the parenthesised run. *)
Lemma take_drop_digits (ds rest : string) :
  PyStr.all_chars PyStr.isdigit ds = true ->
  take_digits (ds ++ String ")" rest) = ds
  /\ drop_digits (ds ++ String ")" rest) = String ")" rest.
Proof.
  induction ds as [|c ds IH]; cbn [PyStr.all_chars append take_digits drop_digits].
  - intros _. split; reflexivity.
  - intros H. apply andb_true_iff in H. destruct H as [Hc Hds].
    rewrite Hc. destruct (IH Hds) as [-> ->]. split; reflexivity.
Qed.

Lemma length_pattern_here_digits (c : ascii) (ds : string) :
  PyStr.all_chars PyStr.isdigit (String c ds) = true ->
  length_pattern_here ("(" ++ String c ds ++ ")") = Some ("(" ++ String c ds ++ ")").
Proof.
  intros H. unfold length_pattern_here.
  change ("(" ++ String c ds ++ ")") with (String "(" (String c ds ++ String ")" "")).
  destruct (take_drop_digits (String c ds) "" H) as [-> ->].
  reflexivity.
Qed.

Lemma search_skips_prefix (p rest : string) :
  PyStr.all_chars (fun c => negb (Ascii.eqb c "(")) p = true ->
  COLUMN_LENGTH_PATTERN_search (p ++ rest) = COLUMN_LENGTH_PATTERN_search rest.
Proof.
  induction p as [|c p IH]; [reflexivity|].
  cbn [PyStr.all_chars]. intros H. apply andb_true_iff in H. destruct H as [Hc Hp].
  cbn [append COLUMN_LENGTH_PATTERN_search].
  assert (Hhere : length_pattern_here (String c (p ++ rest)) = None).
  { unfold length_pattern_here.
    destruct (Ascii.eqb_spec c "(") as [->|Hne]; [discriminate|].
    destruct c as [[] [] [] [] [] [] [] []]; try reflexivity.
    contradiction Hne; reflexivity. }
  rewrite Hhere. apply IH, Hp.
Qed.

Lemma column_type_length_verbatim (p : string) (c : ascii) (ds : string) :
  PyStr.all_chars (fun c => negb (Ascii.eqb c "(")) p = true ->
  PyStr.all_chars PyStr.isdigit (String c ds) = true ->
  _column_type_length (p ++ "(" ++ String c ds ++ ")") = "(" ++ String c ds ++ ")".
Proof.
  intros Hp Hds. unfold _column_type_length.
  rewrite (search_skips_prefix p _ Hp).
  change ("(" ++ String c ds ++ ")") with (String "(" (String c ds ++ String ")" "")).
  cbn [COLUMN_LENGTH_PATTERN_search].
  change (String "(" (String c ds ++ String ")" "")) with ("(" ++ String c ds ++ ")").
  rewrite (length_pattern_here_digits c ds Hds). reflexivity.
Qed.

End TypeMapperFacts.

Ltac by_computation :=
  cbv zeta; repeat match goal with |- _ /\ _ => split end; vm_compute; reflexivity.

(** * Properties of the DDL builder *)

Module SchemaFacts.
Import Schema Scenario.

(** Claim C8, as stated, fails: the rendered script differs from the one
    the scenario spells, even when [sku] is reported NOT NULL.  The
    builder writes a space between PRIMARY KEY and the parenthesis, and
    the whitespace normalisation leaves a space after the semicolon that
    closes CREATE TABLE. *)
Lemma orders_script_differs_from_claimed :
  render_create_table_sql "orders" orders_columns = Ok (orders_script "NOT NULL")
  /\ (orders_script "NOT NULL" =? orders_script_claimed) = false.
Proof. by_computation. Qed.

(** Claim C8, amended.  For the table [orders] the builder renders the
    script with PRIMARY KEY followed by a space and with a space after
    the first semicolon; [sku] is NOT NULL when the source reports it so
    and NULL when it is left nullable.  Either way there is exactly one
    PRIMARY KEY clause and exactly one CREATE UNIQUE INDEX statement. *)
Theorem orders_script_rendered :
  render_create_table_sql "orders" orders_columns = Ok (orders_script "NOT NULL")
  /\ render_create_table_sql "orders" orders_columns_nullable_sku
     = Ok (orders_script "NULL")
  /\ PyStr.count_occurrences "PRIMARY KEY" (orders_script "NOT NULL") = 1
  /\ PyStr.count_occurrences "CREATE UNIQUE INDEX" (orders_script "NOT NULL") = 1
  /\ PyStr.count_occurrences "PRIMARY KEY" (orders_script "NULL") = 1
  /\ PyStr.count_occurrences "CREATE UNIQUE INDEX" (orders_script "NULL") = 1.
Proof. by_computation. Qed.

End SchemaFacts.

(** * Runs on concrete databases *)

Module ScenarioFacts.
Import Scenario.

(** Claim C1 at a concrete input.  The first call on the server loses
    the connection, the reconnect and the second attempt go through (the
    table is created, both rows are inserted and committed), and the
    method raises the connection loss all the same: after the call on
    itself returns, the handler goes on to the error log and the
    [raise]. *)
Theorem retry_succeeds_and_still_raises :
  let created :=
    _create_table ascii_decode "t" false
                  (new_object plain_db None false [Some CR_SERVER_LOST]) in
  let copied :=
    _transfer_table_data ascii_decode "t" insert_t 2 false
                         (copying [[digit 1]; [digit 2]] None [Some CR_SERVER_LOST]) in
  fst created = Raise (MySQLError CR_SERVER_LOST)
  /\ count_reconnects (events (snd created)) = 1
  /\ row_counts (_sqlite (snd created)) = [("t", 0)]
  /\ fst copied = Raise (MySQLError CR_SERVER_LOST)
  /\ count_reconnects (events (snd copied)) = 1
  /\ row_counts (_sqlite (snd copied)) = [("t", 2)]
  /\ List.length (filter is_commit (events (snd copied))) = 1.
Proof. by_computation. Qed.


(** Claim C7 at its scenario, where the code departs from it.  Ten chunks
    of a hundred rows; the connection is lost while chunk 3 is fetched.
    One reconnect is made and the chunk numbers go on from 3, neither
    from 0 nor from 4, and all the rows reach the target.  But chunk 3 is
    the chunk in flight and not a committed one: nothing is committed
    before the loss, and the one commit comes after the last chunk.  And
    the run is aborted by this one loss as it is by a second: after the
    resumed transfer has gone through, the method raises the connection
    loss, and [transfer] stops there, so that in a source of two tables
    the second table is never copied.  When the fetch after the reconnect
    loses the connection again, no second reconnect is made and the
    connection loss is raised. *)
Theorem disconnect_during_chunk_3 :
  count_reconnects (events (snd (disconnect_at 3 false))) = 1
  /\ chunks_of (events (snd (disconnect_at 3 false)))
     = [0; 1; 2; 3; 3; 4; 5; 6; 7; 8; 9]
  /\ row_counts (_sqlite (snd (disconnect_at 3 false))) = [("t", 1000)]
  /\ fst (disconnect_at 3 true) = Raise (MySQLError CR_SERVER_LOST)
  /\ count_reconnects (events (snd (disconnect_at 3 true))) = 1
  /\ chunks_of (events (snd (disconnect_at 3 true))) = [0; 1; 2; 3; 3]
  /\ fst (disconnect_at 3 false) = Raise (MySQLError CR_SERVER_LOST)
  /\ chunks_of (before_reconnect (events (snd (disconnect_at 3 false))))
     = [0; 1; 2; 3]
  /\ filter is_commit (before_reconnect (events (snd (disconnect_at 3 false)))) = []
  /\ List.length (filter is_commit (events (snd (disconnect_at 3 false)))) = 1
  /\ fst lost_in_first_table = Raise (MySQLError CR_SERVER_LOST)
  /\ count_reconnects (events (snd lost_in_first_table)) = 1
  /\ chunks_of (events (snd lost_in_first_table)) = [0; 1; 1]
  /\ row_counts (_sqlite (snd lost_in_first_table)) = [("a", 4)].
Proof. by_computation. Qed.

(** The same holds at whichever of the ten chunks the connection is lost. *)
Lemma disconnect_during_any_chunk :
  Forall (fun k =>
            count_reconnects (events (snd (disconnect_at k false))) = 1
            /\ chunks_of (events (snd (disconnect_at k false)))
               = (seq 0 (S k) ++ seq k (10 - k))%list
            /\ fst (disconnect_at k true) = Raise (MySQLError CR_SERVER_LOST)
            /\ count_reconnects (events (snd (disconnect_at k true))) = 1
            /\ chunks_of (events (snd (disconnect_at k true)))
               = (seq 0 (S k) ++ [k])%list)
         (seq 0 10).
Proof. repeat constructor; vm_compute; reflexivity. Qed.

(** Claim C4, as stated, fails: a table without a primary key or unique
    column has nothing an insert could conflict with, and the second run
    inserts every row again. *)
Lemma rerun_duplicates_rows_without_key :
  let once := transfer ascii_decode (new_object plain_db None false []) in
  let twice := transfer ascii_decode (reopened (snd once)) in
  fst once = Ok tt
  /\ fst twice = Ok tt
  /\ row_counts (_sqlite (snd once)) = [("t", 2)]
  /\ row_counts (_sqlite (snd twice)) = [("t", 4)].
Proof. by_computation. Qed.

End ScenarioFacts.

Import Scenario.

(** * The row transfer without faults *)

Section TransferFacts.

Variable decode : string -> option string.

Lemma server_call_quiet (s : self) :
  faults (_mysql s) = [] -> server_call s = (Ok tt, s).
Proof. intros H. unfold server_call. rewrite H. reflexivity. Qed.

Lemma fetchmany_quiet (size : nat) (s : self) :
  faults (_mysql s) = [] ->
  fetchmany size s =
  (Ok (firstn size (result_set (_mysql s))),
   set_mysql (set_result_set (skipn size (result_set (_mysql s))) (_mysql s))
             (emit (EvFetchMany size) s)).
Proof.
  intros H. unfold fetchmany, bind, log_event, modify, get, server_call.
  cbn. rewrite H. reflexivity.
Qed.

Lemma fetchall_quiet (s : self) :
  faults (_mysql s) = [] ->
  fetchall s =
  (Ok (result_set (_mysql s)),
   set_mysql (set_result_set [] (_mysql s)) (emit EvFetchAll s)).
Proof.
  intros H. unfold fetchall, bind, log_event, modify, get, server_call.
  cbn. rewrite H. reflexivity.
Qed.

Lemma executemany_found (statement table_name : string) (rows : list raw_row)
      (s : self) (t : sqlite_table) :
  find_sqlite_table table_name (_sqlite s) = Some t ->
  executemany decode statement table_name rows s =
  (raise_if (snd (bind_rows decode rows)),
   set_sqlite (put_table (insert_bound t (fst (bind_rows decode rows))) (_sqlite s))
              (emit (EvExecuteMany statement (fst (bind_rows decode rows))) s)).
Proof.
  intros H. unfold executemany, bind, get. rewrite H.
  unfold log_event, modify. reflexivity.
Qed.

Lemma executemany_missing (statement table_name : string) (rows : list raw_row)
      (s : self) :
  find_sqlite_table table_name (_sqlite s) = None ->
  executemany decode statement table_name rows s =
  (Raise (SQLiteError ("no such table: " ++ table_name)),
   emit (EvExecuteMany statement []) s).
Proof.
  intros H. unfold executemany, bind, get. rewrite H. reflexivity.
Qed.

(** Facts on the target tables. *)

Lemma find_replace_table (t : sqlite_table) (ts : list sqlite_table) (t0 : sqlite_table) :
  find (fun x => st_name x =? st_name t) ts = Some t0 ->
  find (fun x => st_name x =? st_name t) (replace_table t ts) = Some t.
Proof.
  induction ts as [|x ts IH]; cbn; [discriminate|].
  destruct (st_name x =? st_name t) eqn:E.
  - intros _. cbn. rewrite String.eqb_refl. reflexivity.
  - intros H. cbn. rewrite E. auto.
Qed.

Lemma replace_replace_table (t1 t2 : sqlite_table) (ts : list sqlite_table) :
  st_name t1 = st_name t2 ->
  replace_table t2 (replace_table t1 ts) = replace_table t2 ts.
Proof.
  intros Hn. induction ts as [|x ts IH]; cbn; [reflexivity|].
  rewrite Hn. destruct (st_name x =? st_name t2) eqn:E; cbn.
  - rewrite <- Hn at 1. rewrite Hn, String.eqb_refl. reflexivity.
  - rewrite E. f_equal. exact IH.
Qed.

Lemma find_sqlite_table_name (table_name : string) (q : sqlite_conn) (t : sqlite_table) :
  find_sqlite_table table_name q = Some t -> st_name t = table_name.
Proof.
  unfold find_sqlite_table. intros H. apply find_some in H.
  destruct H as [_ H]. apply String.eqb_eq in H. exact H.
Qed.

Lemma find_put_table (table_name : string) (q : sqlite_conn) (t t' : sqlite_table) :
  find_sqlite_table table_name q = Some t ->
  st_name t' = table_name ->
  find_sqlite_table table_name (put_table t' q) = Some t'.
Proof.
  unfold find_sqlite_table, put_table. cbn. intros H Hn. subst table_name.
  eapply find_replace_table. exact H.
Qed.

Lemma put_put_table (t1 t2 : sqlite_table) (q : sqlite_conn) :
  st_name t1 = st_name t2 ->
  put_table t2 (put_table t1 q) = put_table t2 q.
Proof.
  intros H. unfold put_table. cbn. f_equal. apply replace_replace_table, H.
Qed.

(** Binding a batch in two parts. *)

Lemma bind_rows_app (a b : list raw_row) :
  bind_rows decode (a ++ b) =
  match snd (bind_rows decode a) with
  | Some e => bind_rows decode a
  | None => ((fst (bind_rows decode a) ++ fst (bind_rows decode b))%list,
             snd (bind_rows decode b))
  end.
Proof.
  induction a as [|r a IH]; cbn.
  - destruct (bind_rows decode b); reflexivity.
  - destruct (decode_row decode r); cbn; [|reflexivity].
    rewrite IH. destruct (bind_rows decode a) as [ba [e|]]; cbn; [reflexivity|].
    destruct (bind_rows decode b); reflexivity.
Qed.

Lemma insert_bound_app (t : sqlite_table) (a b : list bound_row) :
  insert_bound t (a ++ b) = insert_bound (insert_bound t a) b.
Proof. unfold insert_bound. cbn. rewrite fold_left_app. reflexivity. Qed.

Lemma insert_bound_nil (t : sqlite_table) : insert_bound t [] = t.
Proof. destruct t; reflexivity. Qed.

Lemma put_table_same (table_name : string) (q : sqlite_conn) (t : sqlite_table) :
  find_sqlite_table table_name q = Some t -> put_table t q = q.
Proof.
  unfold find_sqlite_table, put_table. destruct q as [ts ix]. cbn.
  intros H. f_equal. induction ts as [|x ts IH]; cbn in *; [reflexivity|].
  destruct (st_name x =? table_name) eqn:E.
  - injection H as ->. rewrite String.eqb_refl. reflexivity.
  - assert (Hn : st_name t = table_name).
    { apply find_some in H. destruct H as [_ H]. apply String.eqb_eq in H. exact H. }
    rewrite Hn, E. f_equal. apply IH, H.
Qed.

Lemma firstn_plus {A : Type} (n m : nat) (l : list A) :
  firstn (n + m) l = (firstn n l ++ firstn m (skipn n l))%list.
Proof.
  revert l. induction n as [|n IH]; intros l; [reflexivity|].
  destruct l as [|x l]; cbn.
  - destruct m; reflexivity.
  - f_equal. apply IH.
Qed.

Lemma transfer_chunk_quiet (sql table_name : string) (size chunk : nat)
      (s : self) (t : sqlite_table) :
  faults (_mysql s) = [] ->
  find_sqlite_table table_name (_sqlite s) = Some t ->
  let batch := bind_rows decode (firstn size (result_set (_mysql s))) in
  exists s',
    transfer_chunk decode sql table_name size chunk s = (raise_if (snd batch), s')
    /\ leaves s s' (skipn size (result_set (_mysql s)))
              (put_table (insert_bound t (fst batch)) (_sqlite s))
    /\ _current_chunk_number s' = chunk.
Proof.
  intros Hq Ht batch. unfold transfer_chunk.
  unfold bind at 1. unfold log_event at 1, modify at 1.
  unfold bind at 1. unfold modify at 1.
  unfold bind at 1. rewrite fetchmany_quiet by exact Hq.
  rewrite (executemany_found _ _ _ _ t) by exact Ht.
  eexists. split; [reflexivity|]. cbn. repeat split.
Qed.

Lemma chunk_loop_quiet (sql table_name : string) (size : nat) :
  forall (count chunk : nat) (s : self) (t : sqlite_table),
    faults (_mysql s) = [] ->
    find_sqlite_table table_name (_sqlite s) = Some t ->
    let batch := bind_rows decode (firstn (count * size) (result_set (_mysql s))) in
    exists s',
      chunk_loop decode sql table_name size chunk count s = (raise_if (snd batch), s')
      /\ leaves s s' (match snd batch with
                      | Some _ => result_set (_mysql s')
                      | None => skipn (count * size) (result_set (_mysql s))
                      end)
                (put_table (insert_bound t (fst batch)) (_sqlite s)).
Proof.
  induction count as [|count IH]; intros chunk s t Hq Ht; cbn zeta.
  - cbn. exists s. rewrite insert_bound_nil, (put_table_same _ _ _ Ht).
    repeat split.
  - cbn [chunk_loop Nat.mul]. rewrite firstn_plus, bind_rows_app.
    destruct (transfer_chunk_quiet sql table_name size chunk s t Hq Ht)
      as (s1 & Hrun & (Hsq & Hrs & Hf & Hdb & Hcs & Hv) & _).
    unfold bind. rewrite Hrun.
    destruct (snd (bind_rows decode (firstn size (result_set (_mysql s))))) as [e|] eqn:Hfail.
    + cbn [raise_if]. exists s1. rewrite Hfail. split; [reflexivity|].
      repeat split; assumption.
    + cbn [raise_if].
      assert (Hq1 : faults (_mysql s1) = []) by congruence.
      assert (Ht1 : find_sqlite_table table_name (_sqlite s1)
                    = Some (insert_bound t (fst (bind_rows decode (firstn size (result_set (_mysql s))))))).
      { rewrite Hsq. eapply find_put_table; [exact Ht|].
        cbn. eapply find_sqlite_table_name, Ht. }
      destruct (IH (S chunk) s1 _ Hq1 Ht1) as (s2 & Hrun2 & (Hsq2 & Hrs2 & Hf2 & Hdb2 & Hcs2 & Hv2)).
      rewrite Hrs in *. exists s2. cbn [fst snd]. split; [exact Hrun2|].
      repeat split; try congruence.
      * rewrite Hsq2, Hsq, put_put_table by reflexivity.
        rewrite insert_bound_app. reflexivity.
      * rewrite Hrs2.
        destruct (snd (bind_rows decode (firstn (count * size) (skipn size (result_set (_mysql s))))));
          [reflexivity|].
        rewrite skipn_skipn. f_equal. lia.
Qed.

Lemma ceil_div_covers (total size : nat) :
  0 < size -> total <= ceil_div total size * size.
Proof.
  intros Hs. unfold ceil_div.
  pose proof (Nat.div_mod_eq (total + size - 1) size) as E.
  pose proof (Nat.mod_upper_bound (total + size - 1) size) as B.
  nia.
Qed.

Lemma ceil_div_positive (total size : nat) :
  0 < size -> 0 < total -> 0 < ceil_div total size.
Proof.
  intros Hs Ht. unfold ceil_div.
  apply Nat.div_str_pos. lia.
Qed.

Lemma decode_row_failure (row : raw_row) (e : exn) :
  decode_row decode row = Raise e -> e = AttributeError \/ e = UnicodeDecodeError.
Proof.
  induction row as [|c row IH]; cbn; [discriminate|].
  destruct c as [|b|n]; cbn.
  - destruct (decode_row decode row); [discriminate|]. intros H. injection H as <-. auto.
  - destruct (decode b); cbn.
    + destruct (decode_row decode row); [discriminate|]. intros H. injection H as <-. auto.
    + intros H. injection H as <-. auto.
  - intros H. injection H as <-. auto.
Qed.

Lemma bind_rows_failure (rows : list raw_row) (e : exn) :
  snd (bind_rows decode rows) = Some e -> e = AttributeError \/ e = UnicodeDecodeError.
Proof.
  induction rows as [|r rows IH]; cbn; [discriminate|].
  destruct (decode_row decode r) eqn:E; cbn.
  - destruct (bind_rows decode rows); cbn in *. exact IH.
  - intros H. injection H as <-. eapply decode_row_failure, E.
Qed.

(** An exception that is neither of MySQL nor of SQLite passes the
    [except] clauses untouched. *)
Lemma try_except_passes {A} (body : M A) (h1 : nat -> M A) (h2 : string -> M A)
      (s s' : self) (e : exn) :
  body s = (Raise e, s') ->
  e = AttributeError \/ e = UnicodeDecodeError ->
  try_except body h1 h2 s = (Raise e, s').
Proof.
  intros H [-> | ->]; unfold try_except; rewrite H; reflexivity.
Qed.

Lemma try_except_ok {A} (body : M A) (h1 : nat -> M A) (h2 : string -> M A)
      (s s' : self) (a : A) :
  body s = (Ok a, s') -> try_except body h1 h2 s = (Ok a, s').
Proof. intros H. unfold try_except. rewrite H. reflexivity. Qed.

(** The [try] block of [_transfer_table_data], on a server that raises
    nothing, does to the target what one bulk insert of the whole result
    set does, with or without chunks. *)
Lemma transfer_block_quiet (table_name sql : string) (total_records : nat) (s : self) :
  faults (_mysql s) = [] ->
  _current_chunk_number s = 0 ->
  0 < total_records ->
  List.length (result_set (_mysql s)) <= total_records ->
  exists s',
    transfer_block decode table_name sql total_records s
    = (fst (copy_outcome decode table_name (result_set (_mysql s)) (_sqlite s)), s')
    /\ _sqlite s' = snd (copy_outcome decode table_name (result_set (_mysql s)) (_sqlite s))
    /\ unchanged s s'.
Proof.
  intros Hq Hc Htot Hlen. unfold transfer_block, copy_outcome.
  unfold bind at 1. unfold get at 1.
  assert (Hall :
    exists s',
      (rows <- fetchall;; executemany decode sql table_name rows) s
      = (fst (copy_outcome decode table_name (result_set (_mysql s)) (_sqlite s)), s')
      /\ _sqlite s' = snd (copy_outcome decode table_name (result_set (_mysql s)) (_sqlite s))
      /\ unchanged s s').
  { unfold bind, copy_outcome. rewrite fetchall_quiet by exact Hq.
    destruct (find_sqlite_table table_name (_sqlite s)) as [t|] eqn:Ht.
    - rewrite (executemany_found _ _ _ _ t) by exact Ht.
      eexists. split; [reflexivity|]. cbn. repeat split.
    - rewrite executemany_missing by exact Ht.
      eexists. split; [reflexivity|]. cbn. repeat split. }
  assert (Hcommit : forall (m : M unit) r q,
             (exists s', m s = (r, s') /\ _sqlite s' = q /\ unchanged s s') ->
             exists s', (m;; commit) s = (r, s') /\ _sqlite s' = q /\ unchanged s s').
  { intros m r q (s1 & Hm & Hs & Hu). unfold bind. rewrite Hm.
    destruct r as [[]|e]; [|eauto].
    unfold commit, log_event, modify. eexists. split; [reflexivity|].
    cbn. split; [exact Hs|exact Hu]. }
  unfold copy_outcome in Hall.
  destruct (_chunk_size s) as [n|] eqn:Hcs; [|apply Hcommit, Hall].
  destruct (n >? 0)%Z eqn:Hn; [|apply Hcommit, Hall].
  apply Hcommit. rewrite Hc, Nat.sub_0_r.
  assert (Hsize : 0 < Z.to_nat n) by (apply Z.gtb_lt in Hn; lia).
  set (size := Z.to_nat n) in *.
  destruct (find_sqlite_table table_name (_sqlite s)) as [t|] eqn:Ht.
  - destruct (chunk_loop_quiet sql table_name size (ceil_div total_records size) 0 s t Hq Ht)
      as (s1 & Hrun & (Hsq & _ & Hf & Hdb & Hc1 & Hv)).
    rewrite firstn_all2 in Hrun, Hsq
      by (pose proof (ceil_div_covers total_records size Hsize); lia).
    exists s1. cbn [fst snd]. split; [exact Hrun|]. split; [exact Hsq|].
    repeat split; assumption.
  - pose proof (ceil_div_positive total_records size Hsize Htot) as Hpos.
    destruct (ceil_div total_records size) as [|count]; [lia|].
    cbn [chunk_loop]. unfold bind at 1. unfold transfer_chunk.
    unfold bind at 1. unfold log_event at 1, modify at 1.
    unfold bind at 1. unfold modify at 1.
    unfold bind at 1. rewrite fetchmany_quiet by exact Hq.
    rewrite executemany_missing by exact Ht.
    eexists. split; [reflexivity|]. cbn. repeat split.
Qed.

Lemma copy_outcome_failure (table_name : string) (rows : list raw_row)
      (q : sqlite_conn) (e : exn) :
  fst (copy_outcome decode table_name rows q) = Raise e ->
  (exists msg, e = SQLiteError msg) \/ e = AttributeError \/ e = UnicodeDecodeError.
Proof.
  unfold copy_outcome. destruct (find_sqlite_table table_name q); cbn.
  - destruct (snd (bind_rows decode rows)) eqn:E; cbn; [|discriminate].
    intros H. injection H as <-. right. eapply bind_rows_failure, E.
  - intros H. injection H as <-. eauto.
Qed.

(** The same for the whole method. *)
Lemma transfer_table_data_quiet (table_name sql : string) (total_records : nat)
      (s : self) :
  faults (_mysql s) = [] ->
  _current_chunk_number s = 0 ->
  0 < total_records ->
  List.length (result_set (_mysql s)) <= total_records ->
  exists s',
    _transfer_table_data decode table_name sql total_records false s
    = (fst (copy_outcome decode table_name (result_set (_mysql s)) (_sqlite s)), s')
    /\ _sqlite s' = snd (copy_outcome decode table_name (result_set (_mysql s)) (_sqlite s))
    /\ unchanged s s'.
Proof.
  intros Hq Hc Htot Hlen.
  destruct (transfer_block_quiet table_name sql total_records s Hq Hc Htot Hlen)
    as (s1 & Hrun & Hsq & Hu).
  unfold _transfer_table_data, transfer_table_data_call.
  unfold bind at 1. unfold ret at 1.
  destruct (fst (copy_outcome decode table_name (result_set (_mysql s)) (_sqlite s)))
    as [[]|e] eqn:Hr.
  - exists s1. split; [|split; assumption]. apply try_except_ok, Hrun.
  - destruct (copy_outcome_failure _ _ _ _ Hr) as [[msg ->]|He].
    + unfold try_except. rewrite Hrun.
      unfold on_sqlite_error, bind, log_event, modify, raise.
      eexists. split; [reflexivity|]. cbn. split; [exact Hsq|exact Hu].
    + exists s1. split; [|split; assumption]. apply try_except_passes; assumption.
Qed.

End TransferFacts.

(** * What a method adds to the events *)

Section Emits.

Variable P : event -> Prop.

Lemma emits_silent {A} (m : M A) :
  (forall s, events (snd (m s)) = events s) -> emits P m.
Proof. intros H s. exists []. rewrite app_nil_r. auto. Qed.

Lemma emits_ret {A} (a : A) : emits P (ret a).
Proof. apply emits_silent. reflexivity. Qed.

Lemma emits_raise {A} (e : exn) : emits P (@raise A e).
Proof. apply emits_silent. reflexivity. Qed.

Lemma emits_lift {A} (r : result A) : emits P (lift r).
Proof. apply emits_silent. reflexivity. Qed.

Lemma emits_get : emits P get.
Proof. apply emits_silent. reflexivity. Qed.

Lemma emits_modify (f : self -> self) :
  (forall s, events (f s) = events s) -> emits P (modify f).
Proof. intros H. apply emits_silent. exact H. Qed.

Lemma emits_log_event (e : event) : P e -> emits P (log_event e).
Proof. intros H s. exists [e]. cbn. auto. Qed.

Lemma emits_server_call : emits P server_call.
Proof.
  apply emits_silent. intros s. unfold server_call.
  destruct (faults (_mysql s)) as [|[errno|] rest]; reflexivity.
Qed.

Lemma emits_bind {A B} (m : M A) (k : A -> M B) :
  emits P m -> (forall a, emits P (k a)) -> emits P (bind m k).
Proof.
  intros Hm Hk s. unfold bind. destruct (Hm s) as (e1 & E1 & F1).
  destruct (m s) as [[a|e] s1]; cbn in *.
  - destruct (Hk a s1) as (e2 & E2 & F2). exists (e1 ++ e2)%list.
    rewrite E2, E1, app_assoc. split; [reflexivity|]. apply Forall_app; auto.
  - exists e1. auto.
Qed.

Lemma emits_try_except {A} (body : M A) (h1 : nat -> M A) (h2 : string -> M A) :
  emits P body -> (forall n, emits P (h1 n)) -> (forall m, emits P (h2 m)) ->
  emits P (try_except body h1 h2).
Proof.
  intros Hb H1 H2 s. unfold try_except. destruct (Hb s) as (e1 & E1 & F1).
  assert (Hk : forall (h : M A),
             emits P h ->
             exists evs, events (snd (h (snd (body s)))) = (events s ++ evs)%list
                         /\ Forall P evs).
  { intros h Hh. destruct (Hh (snd (body s))) as (e2 & E2 & F2).
    exists (e1 ++ e2)%list. rewrite E2, E1, app_assoc.
    split; [reflexivity|]. apply Forall_app; auto. }
  destruct (body s) as [[a|[errno|msg|msg| |]] s1]; cbn in *; eauto.
Qed.

Lemma run_script_silent (table_name : string)
      (cols : list column_row) :
  emits P (run_script table_name cols).
Proof.
  apply emits_silent. intros s. unfold run_script.
  destruct (create_indexes _ _ _). reflexivity.
Qed.

End Emits.

Ltac emits_step :=
  first
    [ apply emits_ret | apply emits_raise | apply emits_lift | apply emits_get
    | apply emits_server_call
    | apply run_script_silent
    | apply emits_log_event; solve [reflexivity | assumption]
    | apply emits_modify; intros ?; reflexivity
    | apply emits_bind; [|intros ?]
    | apply emits_try_except; [| intros ? | intros ?]
    | match goal with
      | |- emits _ (match ?x with _ => _ end) => destruct x
      | |- emits _ (if ?x then _ else _) => destruct x
      end ].

Ltac emits_auto := repeat emits_step.

Section EmitsOfMethods.

Variable decode : string -> option string.

Lemma transfer_chunk_no_commit (sql table_name : string) (size chunk : nat) :
  emits not_commit (transfer_chunk decode sql table_name size chunk).
Proof. unfold transfer_chunk, fetchmany, executemany. emits_auto. Qed.

Lemma chunk_loop_no_commit (sql table_name : string) (size : nat) :
  forall count chunk,
    emits not_commit (chunk_loop decode sql table_name size chunk count).
Proof.
  induction count as [|count IH]; intros chunk; cbn [chunk_loop].
  - emits_auto.
  - apply emits_bind; [apply transfer_chunk_no_commit|intros _; apply IH].
Qed.

Lemma query_table_no_insert (statement table_name : string) :
  emits not_insert (query_table decode statement table_name).
Proof. unfold query_table. emits_auto. Qed.

Lemma create_table_call_no_insert (again : M unit) (table_name : string)
      (attempting_reconnect : bool) :
  emits not_insert again ->
  emits not_insert (create_table_call decode again table_name attempting_reconnect).
Proof.
  intros Ha. unfold create_table_call, create_table_block, on_mysql_error,
    on_sqlite_error, _build_create_table_sql, show_columns, reconnect, commit.
  unfold executescript.
  emits_auto; try apply query_table_no_insert; try apply run_script_silent;
    try exact Ha.
Qed.

Lemma create_table_no_insert (table_name : string) (attempting_reconnect : bool) :
  emits not_insert (_create_table decode table_name attempting_reconnect).
Proof.
  unfold _create_table. apply create_table_call_no_insert.
  apply create_table_call_no_insert. emits_auto.
Qed.

Lemma count_records_no_insert (table_name : string) :
  emits not_insert (count_records decode table_name).
Proof.
  unfold count_records. emits_auto; try apply query_table_no_insert.
Qed.

End EmitsOfMethods.

Section ChunkFacts.

Variable decode : string -> option string.

(** Whatever happens in it, the body of the loop leaves the chunk number
    it was given in [_current_chunk_number]. *)
Lemma transfer_chunk_number (sql table_name : string) (size chunk : nat)
      (s s' : self) (r : result unit) :
  transfer_chunk decode sql table_name size chunk s = (r, s') ->
  _current_chunk_number s' = chunk.
Proof.
  unfold transfer_chunk, fetchmany, executemany, bind, log_event, modify, get,
    server_call, raise, lift.
  cbn.
  destruct (faults (_mysql s)) as [|[errno|] rest]; cbn;
    try (intros H; injection H as <- <-; reflexivity);
    destruct (find_sqlite_table table_name (_sqlite s)); cbn;
    intros H; injection H as <- <-; reflexivity.
Qed.

(** A loop that raises did so in some chunk [chunk + j], after the [j]
    chunks before it went through; the chunk number it leaves is that of
    the chunk that failed. *)
Lemma chunk_loop_raise (sql table_name : string) (size : nat) :
  forall (count chunk : nat) (s s' : self) (e : exn),
    chunk_loop decode sql table_name size chunk count s = (Raise e, s') ->
    exists j sj,
      j < count
      /\ chunk_loop decode sql table_name size chunk j s = (Ok tt, sj)
      /\ transfer_chunk decode sql table_name size (chunk + j) sj = (Raise e, s')
      /\ _current_chunk_number s' = chunk + j.
Proof.
  induction count as [|count IH]; intros chunk s s' e; cbn [chunk_loop].
  - discriminate.
  - unfold bind at 1.
    destruct (transfer_chunk decode sql table_name size chunk s) as [[[]|e1] s1] eqn:E1.
    + intros H. destruct (IH _ _ _ _ H) as (j & sj & Hj & Hloop & Hch & Hn).
      exists (S j), sj. split; [lia|]. split.
      * cbn [chunk_loop]. unfold bind at 1. rewrite E1. exact Hloop.
      * rewrite <- Nat.add_succ_comm. split; assumption.
    + intros H. injection H as <- <-. exists 0, s.
      rewrite Nat.add_0_r. repeat split; try lia; try assumption.
      eapply transfer_chunk_number, E1.
Qed.


End ChunkFacts.


Section Equivalence.

Variable decode : string -> option string.

(** Claim C3.  On a server that raises nothing, for a result set of
    [total] rows and a chunk size between 1 and [total], the chunked
    transfer and the transfer with chunking disabled (no chunk size, or
    one that is not positive) end the same way and leave the same tables,
    rows and columns in the same order, in the target. *)
Theorem chunked_equals_unchunked (table_name sql : string) (size : nat)
        (off : option Z) (s : self) :
  faults (_mysql s) = [] ->
  _current_chunk_number s = 0 ->
  1 <= size <= List.length (result_set (_mysql s)) ->
  match off with Some z => (z <= 0)%Z | None => True end ->
  let total := List.length (result_set (_mysql s)) in
  let chunked :=
    _transfer_table_data decode table_name sql total false
                         (set_chunk_size (Some (Z.of_nat size)) s) in
  let unchunked :=
    _transfer_table_data decode table_name sql total false (set_chunk_size off s) in
  fst chunked = fst unchunked
  /\ tables (_sqlite (snd chunked)) = tables (_sqlite (snd unchunked)).
Proof.
  intros Hq Hc Hsize Hoff total chunked unchunked.
  destruct (transfer_table_data_quiet decode table_name sql total
              (set_chunk_size (Some (Z.of_nat size)) s))
    as (s1 & H1 & Hs1 & _); try assumption; try (cbn; lia).
  destruct (transfer_table_data_quiet decode table_name sql total (set_chunk_size off s))
    as (s2 & H2 & Hs2 & _); try assumption; try (cbn; lia).
  subst chunked unchunked. rewrite H1, H2. cbn [fst snd].
  rewrite Hs1, Hs2. split; reflexivity.
Qed.

End Equivalence.

Lemma chunked_equals_unchunked_witness :
  let s := copying [[digit 1]; [digit 2]; [digit 3]] None [] in
  let chunked :=
    _transfer_table_data ascii_decode "t" insert_t 3 false
                         (set_chunk_size (Some 2%Z) s) in
  let unchunked :=
    _transfer_table_data ascii_decode "t" insert_t 3 false (set_chunk_size None s) in
  fst chunked = fst unchunked
  /\ tables (_sqlite (snd chunked)) = tables (_sqlite (snd unchunked)).
Proof.
  apply (chunked_equals_unchunked ascii_decode "t" insert_t 2 None
           (copying [[digit 1]; [digit 2]; [digit 3]] None []));
    [reflexivity | reflexivity | cbn; lia | exact I].
Defined.

(** * Values without a decoder *)

Section Undecodable.

Variable decode : string -> option string.

Lemma bind_ok {A B} (m : M A) (k : A -> M B) (s s' : self) (b : B) :
  bind m k s = (Ok b, s') ->
  exists a s0, m s = (Ok a, s0) /\ k a s0 = (Ok b, s').
Proof.
  unfold bind. destruct (m s) as [[a|e] s0]; [eauto|discriminate].
Qed.

Lemma decode_row_uniform (row : raw_row) (bound : bound_row) :
  decode_row decode row = Ok bound ->
  Forall2 (fun col v => decode_col decode col = Ok v) row bound.
Proof.
  revert bound. induction row as [|c row IH]; cbn; intros bound.
  - intros H. injection H as <-. constructor.
  - destruct (decode_col decode c) as [v|] eqn:Hc; [|discriminate].
    destruct (decode_row decode row) as [vs|]; [|discriminate].
    intros H. injection H as <-. constructor; auto.
Qed.

Lemma decode_row_undecodable (row : raw_row) (n : nat) :
  In (PyInt n) row -> exists e, decode_row decode row = Raise e.
Proof.
  induction row as [|c row IH]; cbn; [contradiction|].
  intros [->|H]; cbn; [eauto|].
  destruct (decode_col decode c); [|eauto].
  destruct (IH H) as [e ->]. eauto.
Qed.

Lemma bind_rows_undecodable (rows : list raw_row) (bad : raw_row) (n : nat) :
  In bad rows -> In (PyInt n) bad -> exists e, snd (bind_rows decode rows) = Some e.
Proof.
  intros Hin Hbad. induction rows as [|r rows IH]; cbn; [contradiction|].
  destruct Hin as [->|Hin].
  - destruct (decode_row_undecodable bad n Hbad) as [e ->]. cbn. eauto.
  - destruct (decode_row decode r); cbn; [|eauto].
    destruct (IH Hin) as [e He]. destruct (bind_rows decode rows). cbn in *. eauto.
Qed.

Lemma bind_rows_stops (pre post : list raw_row) (bad : raw_row) (n : nat) :
  In (PyInt n) bad ->
  fst (bind_rows decode (pre ++ bad :: post)) = fst (bind_rows decode pre).
Proof.
  intros Hbad. rewrite bind_rows_app.
  destruct (snd (bind_rows decode pre)); [reflexivity|].
  cbn. destruct (decode_row_undecodable bad n Hbad) as [e ->]. cbn.
  apply app_nil_r.
Qed.

Lemma executemany_undecodable (statement table_name : string)
      (rows : list raw_row) (bad : raw_row) (n : nat) (s : self) :
  In bad rows -> In (PyInt n) bad ->
  exists e, fst (executemany decode statement table_name rows s) = Raise e.
Proof.
  intros Hin Hbad.
  destruct (find_sqlite_table table_name (_sqlite s)) as [t|] eqn:Ht.
  - rewrite (executemany_found decode _ _ _ _ t Ht).
    destruct (bind_rows_undecodable rows bad n Hin Hbad) as [e ->]. cbn. eauto.
  - rewrite (executemany_missing decode _ _ _ _ Ht). cbn. eauto.
Qed.

Lemma fetchmany_ok (size : nat) (s s' : self) (rows : list raw_row) :
  fetchmany size s = (Ok rows, s') ->
  rows = firstn size (result_set (_mysql s))
  /\ result_set (_mysql s') = skipn size (result_set (_mysql s))
  /\ _sqlite s' = _sqlite s.
Proof.
  unfold fetchmany, bind, log_event, modify, get, server_call. cbn.
  destruct (faults (_mysql s)) as [|[errno|] rest]; cbn;
    try discriminate; intros H; injection H as <- <-; auto.
Qed.

Lemma fetchall_ok (s s' : self) (rows : list raw_row) :
  fetchall s = (Ok rows, s') ->
  rows = result_set (_mysql s) /\ _sqlite s' = _sqlite s.
Proof.
  unfold fetchall, bind, log_event, modify, get, server_call. cbn.
  destruct (faults (_mysql s)) as [|[errno|] rest]; cbn;
    try discriminate; intros H; injection H as <- <-; auto.
Qed.

Lemma executemany_ok (statement table_name : string) (rows : list raw_row)
      (s s' : self) :
  executemany decode statement table_name rows s = (Ok tt, s') ->
  snd (bind_rows decode rows) = None /\ _mysql s' = _mysql s.
Proof.
  destruct (find_sqlite_table table_name (_sqlite s)) as [t|] eqn:Ht.
  - rewrite (executemany_found decode _ _ _ _ t Ht).
    destruct (snd (bind_rows decode rows)); cbn; [discriminate|].
    intros H. injection H as <-. auto.
  - rewrite (executemany_missing decode _ _ _ _ Ht). discriminate.
Qed.

Lemma transfer_chunk_ok (sql table_name : string) (size chunk : nat) (s s' : self) :
  transfer_chunk decode sql table_name size chunk s = (Ok tt, s') ->
  snd (bind_rows decode (firstn size (result_set (_mysql s)))) = None
  /\ result_set (_mysql s') = skipn size (result_set (_mysql s)).
Proof.
  unfold transfer_chunk. intros H.
  apply bind_ok in H. destruct H as ([] & s1 & H1 & H).
  apply bind_ok in H. destruct H as ([] & s2 & H2 & H).
  apply bind_ok in H. destruct H as (rows & s3 & H3 & H).
  unfold log_event, modify in H1, H2. injection H1 as <-. injection H2 as <-.
  apply fetchmany_ok in H3. destruct H3 as (-> & Hrs & _). cbn in Hrs.
  apply executemany_ok in H. destruct H as (Hnone & Hm).
  split; [exact Hnone|]. rewrite Hm. exact Hrs.
Qed.

Lemma chunk_loop_ok (sql table_name : string) (size : nat) :
  forall (count chunk : nat) (s s' : self),
    chunk_loop decode sql table_name size chunk count s = (Ok tt, s') ->
    snd (bind_rows decode (firstn (count * size) (result_set (_mysql s)))) = None.
Proof.
  induction count as [|count IH]; intros chunk s s'; cbn [chunk_loop Nat.mul].
  - reflexivity.
  - intros H. apply bind_ok in H. destruct H as ([] & s1 & H1 & H).
    apply transfer_chunk_ok in H1. destruct H1 as (Hnone & Hrs).
    apply IH in H. rewrite Hrs in H.
    rewrite firstn_plus, bind_rows_app, Hnone. exact H.
Qed.

(** The handler of a MySQL error never returns: whatever the call of the
    method on itself does, the handler ends in a [raise]. *)
Lemma on_mysql_error_raises (attempting_reconnect : bool) (again : M unit)
      (failed : string) (errno : nat) (s : self) :
  exists e, fst (on_mysql_error attempting_reconnect again failed errno s) = Raise e.
Proof.
  unfold on_mysql_error, bind, log_event, modify, raise, ret.
  destruct (errno =? CR_SERVER_LOST)%nat; [|cbn; eauto].
  destruct attempting_reconnect; cbn; [eauto|].
  destruct (again _) as [[[]|e] s1]; cbn; eauto.
Qed.

Lemma try_except_raises (body : M unit) (attempting_reconnect : bool)
      (again : M unit) (failed : string) (s : self) :
  (exists e, fst (body s) = Raise e) ->
  exists e,
    fst (try_except body (on_mysql_error attempting_reconnect again failed)
                    (on_sqlite_error failed) s) = Raise e.
Proof.
  intros [e He]. unfold try_except. destruct (body s) as [r s1]. cbn in He. subst r.
  destruct e; cbn; eauto.
  apply on_mysql_error_raises.
Qed.

Lemma transfer_block_undecodable (table_name sql : string) (total_records : nat)
      (s : self) (bad : raw_row) (n : nat) :
  In bad (result_set (_mysql s)) ->
  In (PyInt n) bad ->
  List.length (result_set (_mysql s)) <= total_records ->
  _current_chunk_number s = 0 ->
  exists e, fst (transfer_block decode table_name sql total_records s) = Raise e.
Proof.
  intros Hin Hbad Hlen Hc.
  destruct (transfer_block decode table_name sql total_records s) as [[[]|e] s'] eqn:E;
    [exfalso|cbn; eauto].
  unfold transfer_block in E.
  apply bind_ok in E. destruct E as (s0 & s1 & Hget & E). injection Hget as <- <-.
  apply bind_ok in E. destruct E as ([] & s2 & E & _).
  assert (Hwhole : forall s2,
             (rows <- fetchall;; executemany decode sql table_name rows) s = (Ok tt, s2) ->
             False).
  { intros s3 H. apply bind_ok in H. destruct H as (rows & s4 & Hf & H).
    apply fetchall_ok in Hf. destruct Hf as (-> & _).
    apply executemany_ok in H. destruct H as (Hnone & _).
    destruct (bind_rows_undecodable _ bad n Hin Hbad) as [e He]. congruence. }
  destruct (_chunk_size s) as [z|]; [|eapply Hwhole, E].
  destruct (z >? 0)%Z eqn:Hz; [|eapply Hwhole, E].
  apply Z.gtb_lt in Hz. rewrite Hc, Nat.sub_0_r in E.
  apply chunk_loop_ok in E. rewrite firstn_all2 in E.
  - destruct (bind_rows_undecodable _ bad n Hin Hbad) as [e He]. congruence.
  - pose proof (ceil_div_covers total_records (Z.to_nat z)). lia.
Qed.


End Undecodable.


(** * Tables without rows *)

Section EmptyTables.

Variable decode : string -> option string.

Lemma create_indexes_tables (table_name : string) (cols : list column_row) :
  forall q, tables (snd (create_indexes table_name cols q)) = tables q.
Proof.
  induction cols as [|col cols IH]; intros q; cbn [create_indexes]; [reflexivity|].
  destruct (TypeMapper.mem (Key col) ["UNI"; "MUL"]); [|apply IH].
  destruct (TypeMapper.mem _ (index_names q)); [reflexivity|].
  rewrite IH. reflexivity.
Qed.

Lemma find_created (table_name : string) (cols : list column_row) (q : sqlite_conn) :
  exists t, find_sqlite_table table_name
              (create_table_if_not_exists table_name cols q) = Some t.
Proof.
  unfold create_table_if_not_exists.
  destruct (find_sqlite_table table_name q) as [t|] eqn:E; [eauto|].
  unfold find_sqlite_table in *. cbn.
  eexists. induction (tables q) as [|x ts IH]; cbn in *.
  - rewrite String.eqb_refl. reflexivity.
  - destruct (st_name x =? table_name); [discriminate|]. apply IH, E.
Qed.

Lemma run_script_creates (table_name : string) (cols : list column_row)
      (s s' : self) (r : result unit) :
  run_script table_name cols s = (r, s') ->
  exists t, find_sqlite_table table_name (_sqlite s') = Some t.
Proof.
  unfold run_script.
  pose proof (create_indexes_tables table_name cols
                (create_table_if_not_exists table_name cols (_sqlite s))) as Ht.
  destruct (create_indexes _ _ _) as [r' q]. cbn in Ht.
  intros H. injection H as <- <-. cbn.
  destruct (find_created table_name cols (_sqlite s)) as [t Hf].
  exists t. unfold find_sqlite_table in *. rewrite Ht. exact Hf.
Qed.

Lemma try_except_ok_body (body : M unit) (attempting_reconnect : bool)
      (again : M unit) (failed : string) (s s' : self) :
  try_except body (on_mysql_error attempting_reconnect again failed)
             (on_sqlite_error failed) s = (Ok tt, s') ->
  body s = (Ok tt, s').
Proof.
  unfold try_except. destruct (body s) as [[[]|e] s1]; [auto|].
  destruct e; try discriminate.
  destruct (on_mysql_error_raises attempting_reconnect again failed errno s1) as [e He].
  intros H. rewrite H in He. discriminate.
Qed.

(** The defect behind claim C1, in general: either method returns only
    when the [try] block of its first activation returned.  Once that
    block has raised, whatever the reconnect and the second attempt do,
    the method raises. *)
Lemma first_attempt_decides (table_name sql : string) (total_records : nat)
      (s s' : self) :
  (_create_table decode table_name false s = (Ok tt, s') ->
   create_table_block decode table_name false s = (Ok tt, s'))
  /\ (_transfer_table_data decode table_name sql total_records false s = (Ok tt, s') ->
      transfer_block decode table_name sql total_records s = (Ok tt, s')).
Proof.
  split; intros H.
  - unfold _create_table, create_table_call in H.
    apply try_except_ok_body in H. exact H.
  - unfold _transfer_table_data, transfer_table_data_call in H.
    unfold bind at 1 in H. unfold ret at 1 in H.
    apply try_except_ok_body in H. exact H.
Qed.

(** A table creation that returns has left the table in the target. *)
Lemma create_table_creates (table_name : string) (s s' : self) :
  _create_table decode table_name false s = (Ok tt, s') ->
  exists t, find_sqlite_table table_name (_sqlite s') = Some t.
Proof.
  unfold _create_table, create_table_call. intros H.
  apply try_except_ok_body in H. unfold create_table_block in H.
  apply bind_ok in H. destruct H as ([] & s1 & _ & H).
  apply bind_ok in H. destruct H as (ddl & s2 & _ & H).
  apply bind_ok in H. destruct H as ([] & s3 & Hs & H).
  unfold commit, log_event, modify in H. injection H as <-. cbn.
  unfold executescript in Hs.
  apply bind_ok in Hs. destruct Hs as ([] & s4 & _ & Hs).
  eapply run_script_creates, Hs.
Qed.

Lemma server_call_sqlite (s s' : self) (r : result unit) :
  server_call s = (r, s') -> _sqlite s' = _sqlite s.
Proof.
  unfold server_call.
  destruct (faults (_mysql s)) as [|[errno|] rest]; intros H; injection H as <- <-;
    reflexivity.
Qed.

Lemma query_table_sqlite (statement table_name : string) (s s' : self)
      (t : mysql_table) :
  query_table decode statement table_name s = (Ok t, s') -> _sqlite s' = _sqlite s.
Proof.
  unfold query_table. intros H.
  apply bind_ok in H. destruct H as ([] & s1 & H1 & H).
  apply bind_ok in H. destruct H as ([] & s2 & H2 & H).
  apply bind_ok in H. destruct H as (s3 & s4 & H3 & H).
  unfold log_event, modify in H1. injection H1 as <-.
  apply server_call_sqlite in H2. unfold get in H3. injection H3 as <- <-.
  destruct (find _ _); [|discriminate]. injection H as _ <-. exact H2.
Qed.

Lemma count_records_sqlite (table_name : string) (s s' : self) (n : nat) :
  count_records decode table_name s = (Ok n, s') -> _sqlite s' = _sqlite s.
Proof.
  unfold count_records. intros H.
  apply bind_ok in H. destruct H as (t & s1 & H1 & H).
  apply bind_ok in H. destruct H as ([] & s2 & H2 & H).
  apply bind_ok in H. destruct H as ([] & s3 & H3 & H).
  apply query_table_sqlite in H1. unfold log_event, modify in H2. injection H2 as <-.
  apply server_call_sqlite in H3. injection H as _ <-.
  rewrite H3. exact H1.
Qed.

(** Claim C9.  When the table creation returns and the count of the rows
    is zero, the orchestrator is done with the table: the table is in the
    target, the events of the step hold no [executemany], the step
    returns without an error, and the loop goes on with the tables that
    are left. *)
Theorem empty_table_created_and_skipped (row table_name : string)
        (rest : list string) (s s1 s2 : self) :
  decode row = Some table_name ->
  _create_table decode table_name false (set_current_chunk_number 0 s) = (Ok tt, s1) ->
  count_records decode table_name s1 = (Ok 0, s2) ->
  transfer_table decode row s = (Ok tt, s2)
  /\ (exists t, find_sqlite_table table_name (_sqlite s2) = Some t)
  /\ (exists evs, events s2 = (events s ++ evs)%list /\ Forall not_insert evs)
  /\ transfer_tables decode (row :: rest) s = transfer_tables decode rest s2.
Proof.
  intros Hd Hc Hn.
  assert (Hstep : transfer_table decode row s = (Ok tt, s2)).
  { unfold transfer_table. unfold bind at 1. unfold modify at 1.
    unfold bind at 1. unfold decode_name. rewrite Hd. unfold ret at 1.
    unfold bind at 1. rewrite Hc. unfold bind at 1. rewrite Hn. reflexivity. }
  split; [exact Hstep|]. split; [|split].
  - rewrite (count_records_sqlite _ _ _ _ Hn). eapply create_table_creates, Hc.
  - destruct (create_table_no_insert decode table_name false
                (set_current_chunk_number 0 s)) as (e1 & E1 & F1).
    destruct (count_records_no_insert decode table_name s1) as (e2 & E2 & F2).
    rewrite Hc in E1. rewrite Hn in E2. cbn in E1, E2.
    exists (e1 ++ e2)%list. rewrite E2, E1, app_assoc.
    split; [reflexivity|]. apply Forall_app; auto.
  - cbn [transfer_tables]. unfold bind at 1. rewrite Hstep. reflexivity.
Qed.

End EmptyTables.

Lemma empty_table_created_and_skipped_witness :
  let s := new_object [mk_mysql_table "empty" keyed_columns []] None false [] in
  let s1 := snd (_create_table ascii_decode "empty" false (set_current_chunk_number 0 s)) in
  let s2 := snd (count_records ascii_decode "empty" s1) in
  transfer_table ascii_decode "empty" s = (Ok tt, s2)
  /\ (exists t, find_sqlite_table "empty" (_sqlite s2) = Some t)
  /\ (exists evs, events s2 = (events s ++ evs)%list /\ Forall not_insert evs)
  /\ transfer_tables ascii_decode ["empty"] s = transfer_tables ascii_decode [] s2.
Proof.
  cbv zeta.
  refine (empty_table_created_and_skipped ascii_decode "empty" "empty" []
            (new_object [mk_mysql_table "empty" keyed_columns []] None false [])
            _ _ eq_refl _ _); vm_compute; reflexivity.
Defined.

(** * A whole run on a server that raises nothing *)

Section QuietRun.

Variable decode : string -> option string.

Lemma unchanged_refl (s : self) : unchanged s s.
Proof. repeat split. Qed.

Lemma unchanged_trans (s1 s2 s3 : self) :
  unchanged s1 s2 -> unchanged s2 s3 -> unchanged s1 s3.
Proof.
  intros (A1 & A2 & A3 & A4) (B1 & B2 & B3 & B4). repeat split; congruence.
Qed.

Lemma query_table_quiet (statement table_name : string) (s : self) (t : mysql_table) :
  faults (_mysql s) = [] ->
  find (named decode table_name) (database (_mysql s)) = Some t ->
  query_table decode statement table_name s = (Ok t, emit (EvQuery statement) s).
Proof.
  intros Hq Hf. unfold query_table, bind, log_event, modify, get, server_call.
  cbn. rewrite Hq. cbn. rewrite Hf. reflexivity.
Qed.

Lemma show_columns_quiet (table_name : string) (s : self) (t : mysql_table) :
  faults (_mysql s) = [] ->
  find (named decode table_name) (database (_mysql s)) = Some t ->
  exists s',
    show_columns decode table_name s = (Ok (tbl_columns t), s')
    /\ _sqlite s' = _sqlite s /\ unchanged s s'
    /\ _current_chunk_number s' = _current_chunk_number s.
Proof.
  intros Hq Hf. unfold show_columns. unfold bind at 1.
  rewrite (query_table_quiet _ _ _ t Hq Hf).
  unfold bind, log_event, modify, server_call, ret. cbn. rewrite Hq.
  eexists. split; [reflexivity|]. cbn. repeat split.
Qed.

Lemma count_records_quiet (table_name : string) (s : self) (t : mysql_table) :
  faults (_mysql s) = [] ->
  find (named decode table_name) (database (_mysql s)) = Some t ->
  exists s',
    count_records decode table_name s = (Ok (List.length (tbl_rows t)), s')
    /\ _sqlite s' = _sqlite s /\ unchanged s s'
    /\ _current_chunk_number s' = _current_chunk_number s.
Proof.
  intros Hq Hf. unfold count_records. unfold bind at 1.
  rewrite (query_table_quiet _ _ _ t Hq Hf).
  unfold bind, log_event, modify, server_call, ret. cbn. rewrite Hq.
  eexists. split; [reflexivity|]. cbn. repeat split.
Qed.

Lemma select_all_quiet (table_name : string) (s : self) (t : mysql_table) :
  faults (_mysql s) = [] ->
  find (named decode table_name) (database (_mysql s)) = Some t ->
  exists s',
    select_all decode table_name s = (Ok (map Field (tbl_columns t)), s')
    /\ _sqlite s' = _sqlite s /\ unchanged s s'
    /\ _current_chunk_number s' = _current_chunk_number s
    /\ result_set (_mysql s') = tbl_rows t.
Proof.
  intros Hq Hf. unfold select_all. unfold bind at 1.
  rewrite (query_table_quiet _ _ _ t Hq Hf).
  unfold bind, log_event, modify, server_call, ret.
  eexists. split; [reflexivity|]. cbn. repeat split.
Qed.

Lemma create_indexes_none (table_name : string) (cols : list column_row)
      (q : sqlite_conn) :
  forallb (fun c => negb (TypeMapper.mem (Key c) ["UNI"; "MUL"])) cols = true ->
  create_indexes table_name cols q = (Ok tt, q).
Proof.
  induction cols as [|c cols IH]; cbn [forallb create_indexes]; [reflexivity|].
  intros H. apply andb_true_iff in H. destruct H as [Hc Hcols].
  apply negb_true_iff in Hc. rewrite Hc. apply IH, Hcols.
Qed.

Lemma create_table_quiet (table_name : string) (s : self) (t : mysql_table)
      (script : string) :
  faults (_mysql s) = [] ->
  find (named decode table_name) (database (_mysql s)) = Some t ->
  Schema.render_create_table_sql table_name (tbl_columns t) = Ok script ->
  forallb (fun c => negb (TypeMapper.mem (Key c) ["UNI"; "MUL"])) (tbl_columns t) = true ->
  exists s',
    _create_table decode table_name false s = (Ok tt, s')
    /\ _sqlite s' = create_table_if_not_exists table_name (tbl_columns t) (_sqlite s)
    /\ unchanged s s'
    /\ _current_chunk_number s' = _current_chunk_number s.
Proof.
  intros Hq Hf Hr Hix.
  destruct (show_columns_quiet table_name s t Hq Hf) as (s1 & Hs1 & Hq1 & Hu1 & Hc1).
  unfold _create_table, create_table_call.
  eexists. split.
  - apply try_except_ok. unfold create_table_block.
    unfold bind at 1. unfold ret at 1.
    unfold _build_create_table_sql. unfold bind at 1. unfold bind at 1.
    rewrite Hs1, Hr. unfold ret at 1. cbn [fst snd].
    unfold executescript. unfold bind at 1. unfold bind at 1.
    unfold log_event at 1, modify at 1. unfold run_script.
    cbn [_sqlite emit]. rewrite create_indexes_none by exact Hix.
    unfold commit, log_event, modify. reflexivity.
  - cbn. rewrite Hq1. destruct Hu1 as (A1 & A2 & A3 & A4). repeat split; assumption.
Qed.

Lemma bind_rows_keyed (cols : list column_row) (rows : list raw_row) :
  forallb (keyed decode cols) rows = true ->
  snd (bind_rows decode rows) = None
  /\ Forall (fun b => violates_not_null cols b || conflicts cols b b = true)
            (fst (bind_rows decode rows)).
Proof.
  induction rows as [|r rows IH]; cbn [forallb bind_rows].
  - intros _. split; [reflexivity|constructor].
  - intros H. apply andb_true_iff in H. destruct H as [Hr Hrows].
    unfold keyed in Hr. destruct (decode_row decode r) as [b|]; [|discriminate].
    destruct (IH Hrows) as [Hn Hall]. destruct (bind_rows decode rows) as [bs f].
    cbn in *. split; [exact Hn|]. constructor; assumption.
Qed.

(** One step of the loop of [transfer] on a table that is safe to run
    again. *)
Lemma transfer_table_quiet (row table_name : string) (s : self) (t : mysql_table) :
  faults (_mysql s) = [] ->
  decode row = Some table_name ->
  find (named decode table_name) (database (_mysql s)) = Some t ->
  rerun_safe_table decode table_name t = true ->
  exists s',
    transfer_table decode row s = (Ok tt, s')
    /\ _sqlite s' = copy_table decode t table_name (_sqlite s)
    /\ unchanged s s'.
Proof.
  intros Hq Hd Hf Hsafe. unfold rerun_safe_table in Hsafe.
  apply andb_true_iff in Hsafe. destruct Hsafe as [Hsafe Hkeyed].
  apply andb_true_iff in Hsafe. destruct Hsafe as [Hrender Hix].
  destruct (Schema.render_create_table_sql table_name (tbl_columns t)) as [script|] eqn:Hr;
    [|discriminate].
  set (s0 := set_current_chunk_number 0 s).
  destruct (create_table_quiet table_name s0 t script Hq Hf Hr Hix)
    as (s1 & Hrun1 & Hsq1 & Hu1 & Hc1).
  assert (Hq1 : faults (_mysql s1) = []) by (destruct Hu1 as (-> & _); exact Hq).
  assert (Hf1 : find (named decode table_name) (database (_mysql s1)) = Some t)
    by (destruct Hu1 as (_ & -> & _); exact Hf).
  destruct (count_records_quiet table_name s1 t Hq1 Hf1)
    as (s2 & Hrun2 & Hsq2 & Hu2 & Hc2).
  assert (Hstart : forall (k : M unit),
             transfer_table decode row s
             = (if (0 <? List.length (tbl_rows t))%nat
                then
                  log_event (EvLog INFO ("Transferring table " ++ table_name));;
                  columns <- select_all decode table_name;;
                  _transfer_table_data decode table_name
                    (insert_statement table_name columns)
                    (List.length (tbl_rows t)) false
                else ret tt) s2).
  { intros _. unfold transfer_table. unfold bind at 1. unfold modify at 1.
    unfold bind at 1. unfold decode_name. rewrite Hd. unfold ret at 1.
    fold s0. unfold bind at 1. rewrite Hrun1.
    unfold bind at 1. rewrite Hrun2. reflexivity. }
  rewrite (Hstart (ret tt)). clear Hstart.
  assert (Hu02 : unchanged s s2).
  { eapply unchanged_trans; [|exact Hu2].
    eapply unchanged_trans; [|exact Hu1]. repeat split. }
  change (_sqlite s0) with (_sqlite s) in Hsq1.
  unfold copy_table. rewrite <- Hsq1, <- Hsq2.
  destruct (tbl_rows t) as [|r rows] eqn:Hrows.
  - cbn. exists s2. repeat split; try apply Hu02.
  - cbn [List.length Nat.ltb Nat.leb].
    set (s3 := emit (EvLog INFO ("Transferring table " ++ table_name)) s2).
    assert (Hq3 : faults (_mysql s3) = [])
      by (cbn; destruct Hu2 as (-> & _); exact Hq1).
    assert (Hf3 : find (named decode table_name) (database (_mysql s3)) = Some t)
      by (cbn; destruct Hu2 as (_ & -> & _); exact Hf1).
    destruct (select_all_quiet table_name s3 t Hq3 Hf3)
      as (s4 & Hrun4 & Hsq4 & Hu4 & Hc4 & Hrs4).
    assert (Hq4 : faults (_mysql s4) = []) by (destruct Hu4 as (-> & _); exact Hq3).
    assert (Hc04 : _current_chunk_number s4 = 0).
    { rewrite Hc4. cbn. rewrite Hc2, Hc1. reflexivity. }
    destruct (transfer_table_data_quiet decode table_name
                (insert_statement table_name (map Field (tbl_columns t)))
                (S (List.length rows)) s4 Hq4 Hc04)
      as (s5 & Hrun5 & Hsq5 & Hu5); [lia | rewrite Hrs4, Hrows; cbn; lia |].
    unfold bind at 1. unfold log_event at 1, modify at 1. fold s3.
    unfold bind at 1. rewrite Hrun4, Hrun5.
    rewrite Hrs4, Hsq4 in *. cbn [_sqlite emit s3] in *. rewrite Hrows in *.
    assert (Hok : fst (copy_outcome decode table_name (r :: rows) (_sqlite s2)) = Ok tt).
    { unfold copy_outcome.
      destruct (find_created table_name (tbl_columns t) (_sqlite s)) as [T HT].
      rewrite Hsq2, Hsq1, HT. cbn [fst].
      destruct (bind_rows_keyed _ _ Hkeyed) as [-> _]. reflexivity. }
    rewrite Hok. exists s5. split; [reflexivity|]. split; [exact Hsq5|].
    eapply unchanged_trans; [exact Hu02|].
    eapply unchanged_trans; [|exact Hu5].
    eapply unchanged_trans; [|exact Hu4]. repeat split.
Qed.

End QuietRun.

Section WholeRun.

Variable decode : string -> option string.

Lemma transfer_tables_quiet (rows : list string) :
  forall s,
    faults (_mysql s) = [] ->
    forallb (rerun_safe_row decode (database (_mysql s))) rows = true ->
    exists s',
      transfer_tables decode rows s = (Ok tt, s')
      /\ _sqlite s' = fold_left (copy_row decode (database (_mysql s))) rows (_sqlite s)
      /\ unchanged s s'.
Proof.
  induction rows as [|row rows IH]; intros s Hq Hsafe; cbn [transfer_tables fold_left].
  - exists s. repeat split.
  - cbn [forallb] in Hsafe. apply andb_true_iff in Hsafe. destruct Hsafe as [Hrow Hrows].
    unfold rerun_safe_row in Hrow. unfold copy_row at 2.
    destruct (decode row) as [table_name|] eqn:Hd; [|discriminate].
    destruct (find (named decode table_name) (database (_mysql s))) as [t|] eqn:Hf;
      [|discriminate].
    destruct (transfer_table_quiet decode row table_name s t Hq Hd Hf Hrow)
      as (s1 & Hrun1 & Hsq1 & Hu1).
    pose proof Hu1 as (Hf1 & Hdb1 & _).
    destruct (IH s1) as (s2 & Hrun2 & Hsq2 & Hu2);
      [congruence | rewrite Hdb1; exact Hrows |].
    unfold bind. rewrite Hrun1. exists s2. split; [exact Hrun2|].
    split; [rewrite Hsq2, Hsq1, Hdb1; reflexivity|].
    eapply unchanged_trans; eassumption.
Qed.

(** The whole of [transfer] on a source that is safe to run again: it
    returns, and the target is the one the steps of the loop build. *)
Lemma transfer_quiet (s : self) :
  faults (_mysql s) = [] ->
  rerun_safe decode (database (_mysql s)) = true ->
  exists s',
    transfer decode s = (Ok tt, s')
    /\ _sqlite s'
       = fold_left (copy_row decode (database (_mysql s)))
                   (map tbl_name (database (_mysql s))) (_sqlite s)
    /\ unchanged s s'.
Proof.
  intros Hq Hsafe. unfold transfer.
  set (s0 := emit EvFetchAll (emit (EvQuery "SHOW TABLES") s)).
  assert (Hshow : show_tables s = (Ok (map tbl_name (database (_mysql s))), s0)).
  { unfold show_tables, bind, log_event, modify, server_call, get, ret. cbn.
    rewrite Hq. cbn. rewrite Hq. reflexivity. }
  destruct (transfer_tables_quiet (map tbl_name (database (_mysql s))) s0)
    as (s1 & Hrun1 & Hsq1 & Hu1); [exact Hq | exact Hsafe |].
  unfold bind at 1. rewrite Hshow. unfold bind at 1. rewrite Hrun1.
  unfold bind at 1. unfold get at 1.
  destruct (_vacuum s1); unfold bind, log_event, modify;
    (eexists; split; [reflexivity|]; cbn; split; [exact Hsq1|]);
    destruct Hu1 as (A1 & A2 & A3 & A4); repeat split; assumption.
Qed.

End WholeRun.

(** * Running twice *)

Section Rerun.

Variable decode : string -> option string.

Lemma fold_insert_absorbed (cols : list column_row) (rows : list bound_row)
      (bound : list bound_row) :
  Forall (fun b => breaks_constraint cols rows b = true) bound ->
  fold_left (insert_or_ignore cols) bound rows = rows.
Proof.
  induction 1 as [|b bound Hb Hall IH]; cbn; [reflexivity|].
  unfold insert_or_ignore at 2. rewrite Hb. exact IH.
Qed.

Lemma insert_bound_absorbed (T : sqlite_table) (bound : list bound_row) :
  absorbed T bound -> insert_bound T bound = T.
Proof.
  intros H. unfold insert_bound. rewrite fold_insert_absorbed by exact H.
  destruct T; reflexivity.
Qed.

Lemma breaks_grow (cols : list column_row) (rows more : list bound_row) (b : bound_row) :
  breaks_constraint cols rows b = true ->
  breaks_constraint cols (rows ++ more) b = true.
Proof.
  unfold breaks_constraint. rewrite existsb_app.
  intros H. apply orb_true_iff in H. destruct H as [-> | ->]; cbn; [reflexivity|].
  apply orb_true_r.
Qed.

Lemma fold_insert_grows (cols : list column_row) (bound : list bound_row) :
  forall rows, exists more,
    fold_left (insert_or_ignore cols) bound rows = (rows ++ more)%list.
Proof.
  induction bound as [|b bound IH]; intros rows; cbn.
  - exists []. symmetry. apply app_nil_r.
  - destruct (IH (insert_or_ignore cols rows b)) as [more ->].
    unfold insert_or_ignore. destruct (breaks_constraint cols rows b).
    + eauto.
    + exists ([b] ++ more)%list. rewrite app_assoc. reflexivity.
Qed.

Lemma fold_insert_settles (cols : list column_row) (bound : list bound_row) :
  Forall (fun b => violates_not_null cols b || conflicts cols b b = true) bound ->
  forall rows,
    Forall (fun b => breaks_constraint cols (fold_left (insert_or_ignore cols) bound rows) b
                     = true) bound.
Proof.
  induction 1 as [|b bound Hb Hall IH]; intros rows; cbn [fold_left]; constructor.
  - destruct (fold_insert_grows cols bound (insert_or_ignore cols rows b)) as [more ->].
    apply breaks_grow. unfold insert_or_ignore.
    destruct (breaks_constraint cols rows b) eqn:E; [exact E|].
    unfold breaks_constraint. rewrite existsb_app. cbn.
    apply orb_true_iff in Hb. destruct Hb as [-> | ->]; [reflexivity|].
    rewrite orb_true_r. apply orb_true_r.
  - apply IH.
Qed.

(** Facts on looking tables up. *)

Lemma find_app_found {A} (p : A -> bool) (l more : list A) (x : A) :
  find p l = Some x -> find p (l ++ more) = Some x.
Proof.
  induction l as [|y l IH]; cbn; [discriminate|]. destruct (p y); auto.
Qed.

Lemma find_app_missing {A} (p : A -> bool) (l more : list A) :
  find p l = None -> find p (l ++ more) = find p more.
Proof.
  induction l as [|y l IH]; cbn; [reflexivity|]. destruct (p y); [discriminate|auto].
Qed.

Lemma find_replace_other (t : sqlite_table) (ts : list sqlite_table) (n : string) :
  st_name t <> n ->
  find (fun x => st_name x =? n) (replace_table t ts)
  = find (fun x => st_name x =? n) ts.
Proof.
  intros Hn. induction ts as [|x ts IH]; cbn; [reflexivity|].
  destruct (st_name x =? st_name t) eqn:E; cbn.
  - apply String.eqb_eq in E.
    assert (E1 : (st_name t =? n) = false) by (apply String.eqb_neq; exact Hn).
    assert (E2 : (st_name x =? n) = false) by (apply String.eqb_neq; congruence).
    rewrite E1, E2. reflexivity.
  - destruct (st_name x =? n); [reflexivity|exact IH].
Qed.

Lemma find_put_other (T : sqlite_table) (q : sqlite_conn) (n : string) :
  st_name T <> n -> find_sqlite_table n (put_table T q) = find_sqlite_table n q.
Proof. intros H. unfold find_sqlite_table, put_table. cbn. apply find_replace_other, H. Qed.

(** The table of name [table_name] after [CREATE TABLE IF NOT EXISTS]: the
    one that was there, or an empty one with the given columns. *)
Lemma created_table (table_name : string) (cols : list column_row) (q : sqlite_conn) :
  exists T,
    find_sqlite_table table_name (create_table_if_not_exists table_name cols q) = Some T
    /\ st_name T = table_name
    /\ (find_sqlite_table table_name q = Some T
        \/ (find_sqlite_table table_name q = None
            /\ T = mk_sqlite_table table_name cols [])).
Proof.
  unfold create_table_if_not_exists.
  destruct (find_sqlite_table table_name q) as [T|] eqn:E.
  - exists T. rewrite E. split; [reflexivity|]. split; [|auto].
    eapply find_sqlite_table_name, E.
  - exists (mk_sqlite_table table_name cols []). split; [|split; auto].
    unfold find_sqlite_table in *. cbn [tables].
    rewrite find_app_missing by exact E. cbn. rewrite String.eqb_refl. reflexivity.
Qed.

Lemma created_keeps (table_name n : string) (cols : list column_row)
      (q : sqlite_conn) (T : sqlite_table) :
  find_sqlite_table n q = Some T ->
  find_sqlite_table n (create_table_if_not_exists table_name cols q) = Some T.
Proof.
  intros H. unfold create_table_if_not_exists.
  destruct (find_sqlite_table table_name q); [exact H|].
  unfold find_sqlite_table in *. cbn [tables]. apply find_app_found, H.
Qed.

Lemma created_other (table_name n : string) (cols : list column_row) (q : sqlite_conn) :
  table_name <> n ->
  find_sqlite_table n (create_table_if_not_exists table_name cols q)
  = find_sqlite_table n q.
Proof.
  intros Hn. unfold create_table_if_not_exists.
  destruct (find_sqlite_table table_name q); [reflexivity|].
  unfold find_sqlite_table. cbn [tables].
  destruct (find (fun t => st_name t =? n) (tables q)) as [x|] eqn:E.
  - apply find_app_found, E.
  - rewrite find_app_missing by exact E. cbn.
    assert (E1 : (table_name =? n) = false) by (apply String.eqb_neq; exact Hn).
    rewrite E1. reflexivity.
Qed.

(** One step of the loop, in one shape for tables with and without rows. *)
Lemma copy_table_eq (t : mysql_table) (table_name : string) (q : sqlite_conn)
      (T : sqlite_table) :
  find_sqlite_table table_name
    (create_table_if_not_exists table_name (tbl_columns t) q) = Some T ->
  copy_table decode t table_name q
  = put_table (insert_bound T (fst (bind_rows decode (tbl_rows t))))
              (create_table_if_not_exists table_name (tbl_columns t) q).
Proof.
  intros HT. unfold copy_table. cbv zeta.
  destruct (tbl_rows t) as [|r rows].
  - cbn [bind_rows fst]. rewrite insert_bound_nil.
    symmetry. eapply put_table_same, HT.
  - unfold copy_outcome. rewrite HT. reflexivity.
Qed.

Lemma copy_table_fixed (t : mysql_table) (table_name : string) (q : sqlite_conn) :
  settled decode q table_name t -> copy_table decode t table_name q = q.
Proof.
  intros (T & HT & Habs).
  assert (Hc : create_table_if_not_exists table_name (tbl_columns t) q = q)
    by (unfold create_table_if_not_exists; rewrite HT; reflexivity).
  rewrite (copy_table_eq t table_name q T) by (rewrite Hc; exact HT).
  rewrite Hc, insert_bound_absorbed by exact Habs.
  eapply put_table_same, HT.
Qed.

Section OneSource.

Variable db : list mysql_table.

Lemma copy_table_settles (t : mysql_table) (table_name : string) (q : sqlite_conn) :
  columns_agree decode db q ->
  find (named decode table_name) db = Some t ->
  forallb (keyed decode (tbl_columns t)) (tbl_rows t) = true ->
  settled decode (copy_table decode t table_name q) table_name t.
Proof.
  intros Hagree Hf Hkeyed.
  destruct (created_table table_name (tbl_columns t) q) as (T & HT & Hname & Horigin).
  rewrite (copy_table_eq t table_name q T HT).
  assert (Hcols : st_columns T = tbl_columns t).
  { destruct Horigin as [H|[_ ->]]; [|reflexivity]. eapply Hagree; eassumption. }
  eexists. split.
  - eapply find_put_table; [exact HT|exact Hname].
  - unfold absorbed, insert_bound. cbn [st_columns st_rows]. rewrite Hcols.
    apply fold_insert_settles. apply bind_rows_keyed, Hkeyed.
Qed.

Lemma copy_table_keeps_settled (t t1 : mysql_table) (table_name n1 : string)
      (q : sqlite_conn) :
  settled decode q n1 t1 -> settled decode (copy_table decode t table_name q) n1 t1.
Proof.
  intros (T1 & HT1 & Habs).
  destruct (created_table table_name (tbl_columns t) q) as (T & HT & Hname & _).
  rewrite (copy_table_eq t table_name q T HT).
  pose proof (created_keeps table_name n1 (tbl_columns t) q T1 HT1) as HT1'.
  destruct (String.eqb_spec table_name n1) as [<-|Hne].
  - assert (T = T1) by congruence. subst T.
    eexists. split; [eapply find_put_table; [exact HT|exact Hname]|].
    unfold absorbed, insert_bound in *. cbn [st_columns st_rows].
    destruct (fold_insert_grows (st_columns T1) (fst (bind_rows decode (tbl_rows t)))
                (st_rows T1)) as [more ->].
    eapply Forall_impl; [|exact Habs]. intros b Hb. apply breaks_grow, Hb.
  - exists T1. split; [|exact Habs].
    rewrite find_put_other; [exact HT1'|]. cbn. congruence.
Qed.

Lemma copy_table_agree (t : mysql_table) (table_name : string) (q : sqlite_conn) :
  columns_agree decode db q ->
  find (named decode table_name) db = Some t ->
  columns_agree decode db (copy_table decode t table_name q).
Proof.
  intros Hagree Hf n Tn tn HTn Hfn.
  destruct (created_table table_name (tbl_columns t) q) as (T & HT & Hname & Horigin).
  rewrite (copy_table_eq t table_name q T HT) in HTn.
  destruct (String.eqb_spec table_name n) as [<-|Hne].
  - rewrite (find_put_table table_name _ T) in HTn; [|exact HT|exact Hname].
    injection HTn as <-. cbn [insert_bound st_columns].
    assert (tn = t) by congruence. subst tn.
    destruct Horigin as [H|[_ ->]]; [|reflexivity]. eapply Hagree; eassumption.
  - rewrite find_put_other in HTn by (cbn; congruence).
    rewrite created_other in HTn by exact Hne.
    eapply Hagree; eassumption.
Qed.

(** After the first run every table the loop went through is settled. *)
Lemma first_run_settles (rows : list string) :
  forall q,
    columns_agree decode db q ->
    forallb (rerun_safe_row decode db) rows = true ->
    let q' := fold_left (copy_row decode db) rows q in
    columns_agree decode db q'
    /\ (forall n t, settled decode q n t -> settled decode q' n t)
    /\ (forall row n t,
           In row rows -> decode row = Some n -> find (named decode n) db = Some t ->
           settled decode q' n t).
Proof.
  induction rows as [|row rows IH]; intros q Hagree Hsafe; cbn [fold_left].
  - repeat split; [assumption|auto|contradiction].
  - cbn [forallb] in Hsafe. apply andb_true_iff in Hsafe. destruct Hsafe as [Hrow Hrows].
    unfold rerun_safe_row in Hrow. unfold copy_row at 2 4 6.
    destruct (decode row) as [n0|] eqn:Hd; [|discriminate].
    destruct (find (named decode n0) db) as [t0|] eqn:Hf; [|discriminate].
    unfold rerun_safe_table in Hrow. apply andb_true_iff in Hrow.
    destruct Hrow as [_ Hkeyed].
    destruct (IH (copy_table decode t0 n0 q)) as (Ha & Hkeep & Hnew);
      [apply copy_table_agree; assumption | exact Hrows |].
    split; [exact Ha|]. split.
    + intros n t Hs. apply Hkeep, copy_table_keeps_settled, Hs.
    + intros r n t [<-|Hin] Hdr Hfr.
      * assert (n = n0) by congruence. subst n.
        assert (t = t0) by congruence. subst t.
        apply Hkeep, copy_table_settles; assumption.
      * eapply Hnew; eassumption.
Qed.

(** A run over settled tables changes nothing. *)
Lemma second_run_fixed (rows : list string) (q : sqlite_conn) :
  (forall row n t,
      In row rows -> decode row = Some n -> find (named decode n) db = Some t ->
      settled decode q n t) ->
  fold_left (copy_row decode db) rows q = q.
Proof.
  induction rows as [|row rows IH]; intros Hs; cbn [fold_left]; [reflexivity|].
  assert (Hrow : copy_row decode db q row = q).
  { unfold copy_row. destruct (decode row) as [n|] eqn:Hd; [|reflexivity].
    destruct (find (named decode n) db) as [t|] eqn:Hf; [|reflexivity].
    apply copy_table_fixed. eapply Hs; [left; reflexivity|eassumption..]. }
  rewrite Hrow. apply IH. intros r n t Hin. apply Hs. right. exact Hin.
Qed.

End OneSource.

(** Claim C4, amended.  Take a source in which every table renders, has no
    column with a unique or secondary index, and has only rows that decode
    and carry a primary key.  On a server that raises nothing, the run on a
    new_object target returns, the run after it on the target it left returns
    too, and the second run leaves every table as it was: the same rows,
    hence the same number of rows per table. *)
Theorem rerun_leaves_keyed_tables (db : list mysql_table) (chunk_size : option Z)
        (vacuum : bool) :
  rerun_safe decode db = true ->
  let once := transfer decode (new_object db chunk_size vacuum []) in
  let twice := transfer decode (reopened (snd once)) in
  fst once = Ok tt
  /\ fst twice = Ok tt
  /\ _sqlite (snd twice) = _sqlite (snd once)
  /\ row_counts (_sqlite (snd twice)) = row_counts (_sqlite (snd once)).
Proof.
  intros Hsafe once twice.
  destruct (transfer_quiet decode (new_object db chunk_size vacuum []) eq_refl Hsafe)
    as (s1 & Hrun1 & Hsq1 & Hu1).
  cbn [new_object _mysql database _sqlite] in Hsq1.
  assert (Hdb : database (_mysql (reopened s1)) = db)
    by (destruct Hu1 as (_ & H & _); exact H).
  destruct (transfer_quiet decode (reopened s1) eq_refl)
    as (s2 & Hrun2 & Hsq2 & _); [rewrite Hdb; exact Hsafe|].
  rewrite Hdb in Hsq2. cbn [reopened _sqlite] in Hsq2.
  subst once twice. cbv zeta. rewrite Hrun1. cbn [fst snd]. rewrite Hrun2. cbn [fst snd].
  assert (Hfix : _sqlite s2 = _sqlite s1).
  { rewrite Hsq2. apply (second_run_fixed db).
    rewrite Hsq1.
    apply (first_run_settles db (map tbl_name db) (mk_sqlite_conn [] [])).
    - intros n T t H. discriminate.
    - exact Hsafe. }
  repeat split; [exact Hfix|]. rewrite Hfix. reflexivity.
Qed.

End Rerun.

Lemma rerun_leaves_keyed_tables_witness :
  let once := transfer ascii_decode (new_object keyed_db (Some 2%Z) false []) in
  let twice := transfer ascii_decode (reopened (snd once)) in
  row_counts (_sqlite (snd twice)) = row_counts (_sqlite (snd once)).
Proof.
  exact (proj2 (proj2 (proj2
    (rerun_leaves_keyed_tables ascii_decode keyed_db (Some 2%Z) false eq_refl)))).
Defined.

(** * More on the type mapper *)

Module TypeMapperMore.
Import TypeMapper.

Ltac each_char c := destruct c as [[] [] [] [] [] [] [] []]; vm_compute; reflexivity.

Lemma isspace_upper_char (c : ascii) :
  PyStr.isspace (PyStr.upper_char c) = PyStr.isspace c.
Proof. each_char c. Qed.

Lemma isdigit_upper_char (c : ascii) :
  PyStr.isdigit (PyStr.upper_char c) = PyStr.isdigit c.
Proof. each_char c. Qed.

Lemma digit_upper_char (c : ascii) :
  PyStr.isdigit c = true -> PyStr.upper_char c = c.
Proof. destruct c as [[] [] [] [] [] [] [] []]; vm_compute; intros H; congruence. Qed.

Lemma eqb_upper_char (c d : ascii) :
  isalpha d = false -> Ascii.eqb (PyStr.upper_char c) d = Ascii.eqb c d.
Proof.
  intros Hd.
  destruct (Ascii.eqb_spec c d) as [->|Hne].
  - destruct d as [[] [] [] [] [] [] [] []]; vm_compute in Hd |- *;
      congruence.
  - apply Ascii.eqb_neq. intros E. apply Hne. subst d.
    destruct c as [[] [] [] [] [] [] [] []]; vm_compute in Hd |- *; congruence.
Qed.

Lemma upper_char_idem (c : ascii) :
  PyStr.upper_char (PyStr.upper_char c) = PyStr.upper_char c.
Proof. each_char c. Qed.

Lemma upper_idem (s : string) : PyStr.upper (PyStr.upper s) = PyStr.upper s.
Proof.
  induction s as [|c s IH]; cbn; [reflexivity|]. rewrite upper_char_idem, IH. reflexivity.
Qed.

Lemma upper_empty (s : string) : PyStr.upper s = EmptyString <-> s = EmptyString.
Proof. destruct s; cbn; split; congruence. Qed.

Lemma lstrip_upper (s : string) :
  PyStr.lstrip_by PyStr.isspace (PyStr.upper s)
  = PyStr.upper (PyStr.lstrip_by PyStr.isspace s).
Proof.
  induction s as [|c s IH]; cbn; [reflexivity|].
  rewrite isspace_upper_char. destruct (PyStr.isspace c); [exact IH|reflexivity].
Qed.

Lemma rstrip_upper (s : string) :
  PyStr.rstrip_by PyStr.isspace (PyStr.upper s)
  = PyStr.upper (PyStr.rstrip_by PyStr.isspace s).
Proof.
  induction s as [|c s IH]; cbn; [reflexivity|].
  rewrite IH, isspace_upper_char.
  destruct (PyStr.rstrip_by PyStr.isspace s); cbn; [|reflexivity].
  destruct (PyStr.isspace c); reflexivity.
Qed.

Lemma strip_upper (s : string) : PyStr.strip (PyStr.upper s) = PyStr.upper (PyStr.strip s).
Proof. unfold PyStr.strip. rewrite lstrip_upper, rstrip_upper. reflexivity. Qed.

Lemma column_prefix_upper (s : string) :
  column_prefix (PyStr.upper s) = PyStr.upper (column_prefix s).
Proof.
  induction s as [|c s IH]; cbn; [reflexivity|].
  rewrite eqb_upper_char by reflexivity.
  destruct (Ascii.eqb c "("); cbn; [reflexivity|]. rewrite IH. reflexivity.
Qed.

Lemma valid_column_type_upper (s : string) :
  _valid_column_type (PyStr.upper s) = option_map PyStr.upper (_valid_column_type s).
Proof.
  unfold _valid_column_type, COLUMN_PATTERN_match.
  rewrite strip_upper, column_prefix_upper.
  destruct (column_prefix (PyStr.strip s)); reflexivity.
Qed.

Lemma take_digits_upper (s : string) : take_digits (PyStr.upper s) = take_digits s.
Proof.
  induction s as [|c s IH]; cbn; [reflexivity|].
  rewrite isdigit_upper_char. destruct (PyStr.isdigit c) eqn:E; [|reflexivity].
  rewrite IH, digit_upper_char by exact E. reflexivity.
Qed.

Lemma drop_digits_upper (s : string) :
  drop_digits (PyStr.upper s) = PyStr.upper (drop_digits s).
Proof.
  induction s as [|c s IH]; cbn; [reflexivity|].
  rewrite isdigit_upper_char. destruct (PyStr.isdigit c); [exact IH|reflexivity].
Qed.

Lemma at_dollar_upper (s : string) : at_dollar (PyStr.upper s) = at_dollar s.
Proof.
  destruct s as [|c [|d s]]; cbn; try reflexivity.
  apply eqb_upper_char. reflexivity.
Qed.

(** The pattern for the length can only match at an opening parenthesis. *)
Lemma length_pattern_here_paren (c : ascii) (r : string) :
  length_pattern_here (String c r)
  = if Ascii.eqb c "(" then
      match take_digits r, drop_digits r with
      | EmptyString, _ => None
      | ds, String d r' =>
          if Ascii.eqb d ")" then
            if at_dollar r' then Some ("(" ++ ds ++ ")") else None
          else None
      | _, _ => None
      end
    else None.
Proof.
  destruct (Ascii.eqb_spec c "(") as [->|Hne].
  - cbn. destruct (take_digits r); [reflexivity|].
    destruct (drop_digits r) as [|d r']; [reflexivity|].
    destruct (Ascii.eqb_spec d ")") as [->|Hd]; [reflexivity|].
    destruct d as [[] [] [] [] [] [] [] []]; try reflexivity.
    contradiction Hd; reflexivity.
  - destruct c as [[] [] [] [] [] [] [] []]; try reflexivity.
    contradiction Hne; reflexivity.
Qed.

Lemma length_pattern_here_upper (s : string) :
  length_pattern_here (PyStr.upper s) = length_pattern_here s.
Proof.
  destruct s as [|c r]; [reflexivity|]. cbn [PyStr.upper].
  rewrite !length_pattern_here_paren, eqb_upper_char by reflexivity.
  destruct (Ascii.eqb c "("); [|reflexivity].
  rewrite take_digits_upper, drop_digits_upper.
  destruct (take_digits r); [reflexivity|].
  destruct (drop_digits r) as [|d r']; cbn [PyStr.upper]; [reflexivity|].
  rewrite eqb_upper_char by reflexivity. rewrite at_dollar_upper. reflexivity.
Qed.

Lemma search_upper (s : string) :
  COLUMN_LENGTH_PATTERN_search (PyStr.upper s) = COLUMN_LENGTH_PATTERN_search s.
Proof.
  induction s as [|c s IH]; [reflexivity|].
  change (PyStr.upper (String c s)) with (String (PyStr.upper_char c) (PyStr.upper s)).
  cbn [COLUMN_LENGTH_PATTERN_search].
  change (String (PyStr.upper_char c) (PyStr.upper s)) with (PyStr.upper (String c s)).
  rewrite length_pattern_here_upper, IH. reflexivity.
Qed.

Lemma translate_upper (s : string) :
  _translate_type_from_mysql_to_sqlite (PyStr.upper s)
  = _translate_type_from_mysql_to_sqlite s.
Proof.
  unfold _translate_type_from_mysql_to_sqlite, _column_type_length.
  rewrite valid_column_type_upper, search_upper.
  destruct (_valid_column_type s) as [m|]; cbn [option_map]; [|reflexivity].
  rewrite upper_idem. reflexivity.
Qed.

(** Property X1.  The type mapper does not look at the case of its input:
    two type declarations that differ only in the case of their letters map
    to the same result, be it a type or the exception. *)
Theorem translate_ignores_case (s1 s2 : string) :
  PyStr.upper s1 = PyStr.upper s2 ->
  _translate_type_from_mysql_to_sqlite s1 = _translate_type_from_mysql_to_sqlite s2.
Proof.
  intros H. rewrite <- (translate_upper s1), <- (translate_upper s2), H. reflexivity.
Qed.

Lemma translate_ignores_case_witness :
  _translate_type_from_mysql_to_sqlite "VarChar(20)"
  = _translate_type_from_mysql_to_sqlite "varchar(20)".
Proof. exact (translate_ignores_case "VarChar(20)" "varchar(20)" eq_refl). Defined.

(** ** The shape of the length suffix *)

Lemma take_drop_digits_split (s : string) : s = take_digits s ++ drop_digits s.
Proof.
  induction s as [|c s IH]; cbn; [reflexivity|].
  destruct (PyStr.isdigit c); cbn; [f_equal; exact IH|reflexivity].
Qed.

Lemma take_digits_all (s : string) : PyStr.all_chars PyStr.isdigit (take_digits s) = true.
Proof.
  induction s as [|c s IH]; cbn; [reflexivity|].
  destruct (PyStr.isdigit c) eqn:E; cbn; [rewrite E; exact IH|reflexivity].
Qed.

Lemma at_dollar_cases (s : string) :
  at_dollar s = true -> s = EmptyString \/ s = NL.
Proof.
  destruct s as [|c [|d s]]; cbn; try discriminate; auto.
  intros H. apply Ascii.eqb_eq in H. subst c. right. reflexivity.
Qed.

Lemma string_app_assoc (a b c : string) : (a ++ b) ++ c = a ++ b ++ c.
Proof. induction a as [|x a IH]; cbn; [reflexivity|]. rewrite IH. reflexivity. Qed.

Lemma length_pattern_here_shape (s m : string) :
  length_pattern_here s = Some m ->
  exists ds,
    ds <> EmptyString
    /\ PyStr.all_chars PyStr.isdigit ds = true
    /\ m = "(" ++ ds ++ ")"
    /\ (s = m \/ s = m ++ NL).
Proof.
  destruct s as [|c r]; [discriminate|].
  rewrite length_pattern_here_paren.
  destruct (Ascii.eqb_spec c "(") as [->|_]; [|discriminate].
  pose proof (take_drop_digits_split r) as Hsplit.
  pose proof (take_digits_all r) as Hall.
  destruct (take_digits r) as [|d0 ds0] eqn:Ht; [discriminate|].
  destruct (drop_digits r) as [|d r'] eqn:Hd; [discriminate|].
  destruct (Ascii.eqb_spec d ")") as [->|_]; [|discriminate].
  destruct (at_dollar r') eqn:Hend; [|discriminate].
  intros H. injection H as <-.
  exists (String d0 ds0). split; [discriminate|]. split; [exact Hall|].
  split; [reflexivity|].
  rewrite Hsplit.
  destruct (at_dollar_cases r' Hend) as [-> | ->]; [left|right]; cbn;
    [reflexivity|].
  rewrite string_app_assoc. reflexivity.
Qed.

Lemma search_shape (s m : string) :
  COLUMN_LENGTH_PATTERN_search s = Some m ->
  exists pre ds,
    ds <> EmptyString
    /\ PyStr.all_chars PyStr.isdigit ds = true
    /\ m = "(" ++ ds ++ ")"
    /\ (s = pre ++ m \/ s = pre ++ m ++ NL).
Proof.
  induction s as [|c s IH]; cbn [COLUMN_LENGTH_PATTERN_search].
  - destruct (length_pattern_here EmptyString) eqn:E; discriminate.
  - destruct (length_pattern_here (String c s)) as [m'|] eqn:E.
    + intros H. injection H as <-.
      destruct (length_pattern_here_shape _ _ E) as (ds & H1 & H2 & H3 & H4).
      exists EmptyString, ds. auto.
    + intros H. destruct (IH H) as (pre & ds & H1 & H2 & H3 & H4).
      exists (String c pre), ds. repeat split; try assumption.
      destruct H4 as [-> | ->]; [left|right]; reflexivity.
Qed.

(** Property X2.  The length suffix is empty, or it is a non-empty run of
    digits in parentheses that stands at the very end of the declaration (a
    single final newline apart).  So a declaration with anything else after
    the closing parenthesis, a trailing space included, has no suffix. *)
Theorem column_type_length_shape (s : string) :
  _column_type_length s = EmptyString
  \/ exists pre ds,
      ds <> EmptyString
      /\ PyStr.all_chars PyStr.isdigit ds = true
      /\ _column_type_length s = "(" ++ ds ++ ")"
      /\ (s = pre ++ "(" ++ ds ++ ")" \/ s = (pre ++ "(" ++ ds ++ ")") ++ NL).
Proof.
  unfold _column_type_length.
  destruct (COLUMN_LENGTH_PATTERN_search s) as [m|] eqn:E; [right|left; reflexivity].
  destruct (search_shape s m E) as (pre & ds & H1 & H2 & -> & H4).
  exists pre, ds. repeat split; try assumption.
  destruct H4 as [H4|H4]; [left; exact H4|right].
  rewrite string_app_assoc. exact H4.
Qed.

(** ** The range of the type mapper *)

Lemma Ok_inj {A} (a b : A) : Ok a = Ok b -> a = b.
Proof. congruence. Qed.

Ltac in_list :=
  unfold plain_target_types, sized_target_types; cbn [In];
  repeat match goal with |- _ \/ _ => first [left; reflexivity | right] end.

(** Property X3.  Whatever the declaration, a result is one of fourteen
    names, or one of CHARACTER, NCHAR, NVARCHAR and VARCHAR followed by the
    length suffix of the declaration. *)
Theorem translate_range (s t : string) :
  _translate_type_from_mysql_to_sqlite s = Ok t ->
  In t plain_target_types
  \/ exists name, In name sized_target_types /\ t = name ++ _column_type_length s.
Proof.
  unfold _translate_type_from_mysql_to_sqlite.
  destruct (_valid_column_type s) as [m|]; [|discriminate]. cbv zeta.
  repeat match goal with
         | |- (if ?b then _ else _) = _ -> _ =>
             destruct b;
             [intros H; apply Ok_inj in H; subst t;
              first [left; solve [in_list]
                    | right; eexists; split; [|reflexivity]; solve [in_list]]|]
         end.
  intros H. apply Ok_inj in H. subst t. left. in_list.
Qed.

Lemma translate_range_witness :
  In "INTEGER" plain_target_types
  \/ exists name, In name sized_target_types
                  /\ "INTEGER" = name ++ _column_type_length "int(11)".
Proof. exact (translate_range "int(11)" "INTEGER" eq_refl). Defined.

(** ** Tokens that are not a bare type name *)

Lemma unknown_token_text (s m : string) :
  _valid_column_type s = Some m ->
  mem (PyStr.upper m) known_types = false ->
  _translate_type_from_mysql_to_sqlite s = Ok "TEXT".
Proof.
  intros Hm Hk. unfold _translate_type_from_mysql_to_sqlite. rewrite Hm.
  unfold known_types in Hk.
  repeat match type of Hk with
         | mem _ (_ :: _) = false =>
             let E := fresh "E" in
             apply TypeMapperFacts.mem_false_cons in Hk; destruct Hk as [E Hk]
         end.
  cbv zeta. unfold mem. cbn [existsb].
  repeat match goal with
         | E : (_ =? _) = false |- _ => rewrite E; clear E
         end.
  reflexivity.
Qed.

Lemma isalpha_upper_char (c : ascii) : isalpha (PyStr.upper_char c) = isalpha c.
Proof. each_char c. Qed.

Lemma all_alpha_upper (s : string) :
  PyStr.all_chars isalpha (PyStr.upper s) = PyStr.all_chars isalpha s.
Proof.
  induction s as [|c s IH]; cbn; [reflexivity|].
  rewrite isalpha_upper_char, IH. reflexivity.
Qed.

Lemma mem_all_alpha (x : string) (l : list string) :
  forallb (PyStr.all_chars isalpha) l = true ->
  PyStr.all_chars isalpha x = false ->
  mem x l = false.
Proof.
  intros Hl Hx. unfold mem. induction l as [|k l IH]; cbn; [reflexivity|].
  cbn in Hl. apply andb_true_iff in Hl. destruct Hl as [Hk Hl].
  rewrite (IH Hl), orb_false_r. apply String.eqb_neq. intros E. congruence.
Qed.

(** Property X4.  The token is everything before the first parenthesis, so a
    modifier written without parentheses belongs to it.  A token of ASCII
    characters of which one is not a letter (the space of [int unsigned]
    or of [double precision], a digit, an underscore) is no known type
    name, and the declaration maps to TEXT.  The token has to be ASCII:
    [str.upper] turns some other characters into ASCII letters. *)
Theorem token_with_non_letter_is_text (s m : string) :
  _valid_column_type s = Some m ->
  PyStr.all_chars isascii m = true ->
  PyStr.all_chars isalpha m = false ->
  _translate_type_from_mysql_to_sqlite s = Ok "TEXT".
Proof.
  intros Hm _ Ha. apply (unknown_token_text s m Hm).
  apply mem_all_alpha; [reflexivity|]. rewrite all_alpha_upper. exact Ha.
Qed.

Lemma token_with_non_letter_is_text_witness :
  _translate_type_from_mysql_to_sqlite "int unsigned" = Ok "TEXT".
Proof.
  exact (token_with_non_letter_is_text "int unsigned" "int unsigned"
           eq_refl eq_refl eq_refl).
Defined.

End TypeMapperMore.

(** * More on the DDL builder *)

Module SchemaMore.
Import TypeMapper Schema.

Lemma column_step_result (table_name : string) (a : acc) (row : column_row) :
  if bad_type row
  then column_step table_name a row = Raise (ValueError "Invalid column_type!")
  else exists a', column_step table_name a row = Ok a'.
Proof.
  unfold bad_type, column_step.
  destruct (_valid_column_type (Type_ row)) as [m|] eqn:Hm.
  - destruct (TypeMapperFacts.translate_some_ok _ _ Hm) as [t ->].
    destruct (mem (Key row) ["PRI"; "UNI"; "MUL"]); [|eauto].
    destruct (Key row =? "PRI"); eauto.
  - unfold _translate_type_from_mysql_to_sqlite. rewrite Hm. reflexivity.
Qed.

Lemma column_loop_result (table_name : string) (rows : list column_row) :
  forall a,
    if existsb bad_type rows
    then column_loop table_name a rows = Raise (ValueError "Invalid column_type!")
    else exists a', column_loop table_name a rows = Ok a'.
Proof.
  induction rows as [|row rows IH]; intros a; cbn [existsb column_loop].
  - eauto.
  - pose proof (column_step_result table_name a row) as Hs.
    destruct (bad_type row); cbn [orb].
    + rewrite Hs. reflexivity.
    + destruct Hs as [a' ->]. apply IH.
Qed.

(** Property X5.  The builder fails exactly when some column has a type with
    no leading token (an empty type, or one that starts with a parenthesis),
    and then with the [ValueError] of the type mapper; nothing else about
    the columns, their names or their keys makes it fail. *)
Theorem render_fails_iff_bad_type (table_name : string) (rows : list column_row) :
  (existsb bad_type rows = true ->
   render_create_table_sql table_name rows = Raise (ValueError "Invalid column_type!"))
  /\ (existsb bad_type rows = false ->
      exists script, render_create_table_sql table_name rows = Ok script).
Proof.
  unfold render_create_table_sql.
  pose proof (column_loop_result table_name rows
                (mk_acc ("CREATE TABLE IF NOT EXISTS " ++ DQ ++ table_name ++ DQ ++ " (")
                        "PRIMARY KEY (" false "")) as H.
  cbv zeta. split; intros Hb; rewrite Hb in H.
  - rewrite H. reflexivity.
  - destruct H as [a ->]. eauto.
Qed.

Lemma render_fails_iff_bad_type_witness :
  render_create_table_sql "t"
    [mk_column_row "a" "int(11)" "NO" "PRI"; mk_column_row "b" "(5)" "YES" ""]
  = Raise (ValueError "Invalid column_type!")
  /\ exists script, render_create_table_sql "t" Scenario.orders_columns = Ok script.
Proof.
  split.
  - exact (proj1 (render_fails_iff_bad_type "t"
             [mk_column_row "a" "int(11)" "NO" "PRI"; mk_column_row "b" "(5)" "YES" ""])
             eq_refl).
  - exact (proj2 (render_fails_iff_bad_type "t" Scenario.orders_columns) eq_refl).
Defined.

(** ** Whitespace of the script *)

Lemma forallb_rev' {A} (p : A -> bool) (l : list A) :
  forallb p (rev l) = forallb p l.
Proof.
  induction l as [|x l IH]; cbn; [reflexivity|].
  rewrite forallb_app, IH. cbn. rewrite andb_true_r. apply andb_comm.
Qed.

Lemma all_chars_of_list (p : ascii -> bool) (l : list ascii) :
  PyStr.all_chars p (string_of_list_ascii l) = forallb p l.
Proof. induction l as [|c l IH]; cbn; [reflexivity|]. rewrite IH. reflexivity. Qed.

Lemma split_aux_words (s : string) :
  forall cur,
    forallb (fun c => negb (PyStr.isspace c)) cur = true ->
    Forall word (PyStr.split_aux s cur).
Proof.
  assert (Hflush : forall cur rest,
             forallb (fun c => negb (PyStr.isspace c)) cur = true ->
             Forall word rest ->
             Forall word match cur with
                         | [] => rest
                         | _ => string_of_list_ascii (rev cur) :: rest
                         end).
  { intros cur rest Hcur Hrest. destruct cur as [|c cur]; [exact Hrest|].
    constructor; [|exact Hrest]. split.
    - intros E. apply (f_equal list_ascii_of_string) in E.
      rewrite list_ascii_of_string_of_list_ascii in E. cbn in E.
      destruct (rev cur); discriminate.
    - rewrite all_chars_of_list, forallb_rev'. exact Hcur. }
  induction s as [|c s IH]; intros cur Hcur; cbn [PyStr.split_aux].
  - apply Hflush; [exact Hcur|constructor].
  - destruct (PyStr.isspace c) eqn:E.
    + apply Hflush; [exact Hcur|]. apply IH. reflexivity.
    + apply IH. cbn. rewrite E. exact Hcur.
Qed.

Lemma single_spaced_word (w rest : string) :
  PyStr.all_chars (fun c => negb (PyStr.isspace c)) w = true ->
  w <> EmptyString ->
  forall b, single_spaced_from b (w ++ rest) = single_spaced_from false rest.
Proof.
  induction w as [|c w IH]; [congruence|].
  cbn [PyStr.all_chars append single_spaced_from]. intros Hw _ b.
  apply andb_true_iff in Hw. destruct Hw as [Hc Hw].
  apply negb_true_iff in Hc. rewrite Hc.
  destruct w as [|d w]; [reflexivity|]. apply IH; [exact Hw|discriminate].
Qed.

Lemma string_app_nil_r (s : string) : s ++ EmptyString = s.
Proof. induction s as [|c s IH]; cbn; [reflexivity|]. rewrite IH. reflexivity. Qed.

Lemma join_words_spaced (words : list string) :
  Forall word words ->
  words <> [] ->
  single_spaced_from true (PyStr.join " " words) = true.
Proof.
  induction 1 as [|w words [Hne Hw] Hall IH]; [congruence|]. intros _.
  cbn [PyStr.join]. destruct words as [|w' words].
  - rewrite <- (string_app_nil_r w).
    rewrite single_spaced_word by assumption. reflexivity.
  - rewrite single_spaced_word by assumption.
    change (" " ++ PyStr.join " " (w' :: words))
      with (String " " (PyStr.join " " (w' :: words))).
    cbn [single_spaced_from]. cbn [PyStr.isspace]. apply IH. discriminate.
Qed.

Lemma normalised_single_spaced (s : string) :
  single_spaced (PyStr.join " " (PyStr.split s)) = true.
Proof.
  pose proof (split_aux_words s [] eq_refl) as Hw. fold (PyStr.split s) in Hw.
  destruct (PyStr.split s) as [|w words] eqn:E; [reflexivity|].
  pose proof (join_words_spaced (w :: words) Hw) as Hj.
  unfold single_spaced.
  destruct (PyStr.join " " (w :: words)); [reflexivity|]. apply Hj. discriminate.
Qed.

(** Property X6.  Whatever the names of the table and of the columns, the
    script the builder returns holds no line break or tab and no two spaces
    in a row, and neither starts nor ends with a space: a name with such
    whitespace in it does not appear in the script as it is spelt. *)
Theorem render_single_spaced (table_name : string) (rows : list column_row)
        (script : string) :
  render_create_table_sql table_name rows = Ok script ->
  single_spaced script = true.
Proof.
  unfold render_create_table_sql.
  destruct (column_loop _ _ _) as [a|]; [|discriminate]. cbv zeta.
  intros H. apply TypeMapperMore.Ok_inj in H. subst script.
  apply normalised_single_spaced.
Qed.

Lemma render_single_spaced_witness :
  single_spaced (Scenario.orders_script "NOT NULL") = true.
Proof.
  exact (render_single_spaced "orders" Scenario.orders_columns
           (Scenario.orders_script "NOT NULL") eq_refl).
Defined.

End SchemaMore.

(** * The INSERT statement *)

Module InsertStatement.
Import Scenario.

Lemma string_app_not_empty (a b : string) :
  b <> EmptyString -> a ++ b <> EmptyString.
Proof. destruct a; cbn; [auto|discriminate]. Qed.

Lemma rstrip_by_app (p : ascii -> bool) (a b : string) :
  PyStr.rstrip_by p b <> EmptyString ->
  PyStr.rstrip_by p (a ++ b) = a ++ PyStr.rstrip_by p b.
Proof.
  intros Hb. induction a as [|c a IH]; [reflexivity|].
  cbn [append PyStr.rstrip_by]. rewrite IH.
  pose proof (string_app_not_empty a _ Hb) as Hne.
  destruct (a ++ PyStr.rstrip_by p b); [congruence|reflexivity].
Qed.

Lemma repeat_snoc (t : string) (n : nat) :
  PyStr.repeat t (S n) = PyStr.repeat t n ++ t.
Proof.
  induction n as [|n IH]; cbn [PyStr.repeat].
  - rewrite SchemaMore.string_app_nil_r. reflexivity.
  - cbn [PyStr.repeat] in IH. rewrite IH at 1.
    rewrite TypeMapperMore.string_app_assoc. reflexivity.
Qed.

Lemma format_other (c : ascii) (r : string) (args : list string) :
  Ascii.eqb c "{" = false ->
  PyStr.format (String c r) args = String c (PyStr.format r args).
Proof.
  intros Hc. cbn [PyStr.format]. rewrite Hc. cbn [andb].
  destruct r; reflexivity.
Qed.

Lemma format_field (r : string) (a : string) (args : list string) :
  PyStr.format (String "{" (String "}" r)) (a :: args) = a ++ PyStr.format r args.
Proof. reflexivity. Qed.

(** One field of the template with its separator, and the last field. *)
Lemma format_quoted_field (rest a : string) (args : list string) :
  PyStr.format ((Schema.DQ ++ "{}" ++ Schema.DQ ++ ", ") ++ rest) (a :: args)
  = quoted a ++ ", " ++ PyStr.format rest args.
Proof.
  unfold quoted, Schema.DQ. cbn [append].
  rewrite format_other by reflexivity. rewrite format_field.
  rewrite TypeMapperMore.string_app_assoc. cbn [append]. do 2 f_equal.
  rewrite !format_other by reflexivity. reflexivity.
Qed.

Lemma format_last_field (a : string) (args : list string) :
  PyStr.format (Schema.DQ ++ "{}" ++ Schema.DQ) (a :: args) = quoted a.
Proof.
  unfold quoted, Schema.DQ. cbn [append].
  rewrite format_other by reflexivity. rewrite format_field. reflexivity.
Qed.

Lemma format_fields (columns : list string) :
  forall c,
    PyStr.format (PyStr.repeat (Schema.DQ ++ "{}" ++ Schema.DQ ++ ", ")
                               (List.length columns)
                    ++ Schema.DQ ++ "{}" ++ Schema.DQ)
                 (c :: columns)
    = PyStr.join ", " (map quoted (c :: columns)).
Proof.
  induction columns as [|c' columns IH]; intros c.
  - cbn [List.length PyStr.repeat append map PyStr.join]. apply format_last_field.
  - cbn [List.length PyStr.repeat].
    rewrite TypeMapperMore.string_app_assoc, format_quoted_field, IH. reflexivity.
Qed.

Lemma placeholders (n : nat) :
  PyStr.repeat "?, " n ++ "?" = PyStr.join ", " (List.repeat "?" (S n)).
Proof.
  induction n as [|n IH]; [reflexivity|].
  cbn [PyStr.repeat]. rewrite TypeMapperMore.string_app_assoc, IH. reflexivity.
Qed.

(** Property X7.  The statement [transfer] builds names the columns in
    cursor order, each in double quotes and separated by a comma and a
    space, and has one question mark per column, separated the same way;
    with no column both lists are empty.  A name is copied as it is, braces
    included. *)
Theorem insert_statement_closed_form (table_name : string) (columns : list string) :
  insert_statement table_name columns
  = "INSERT OR IGNORE INTO " ++ quoted table_name ++ " ("
      ++ PyStr.join ", " (map quoted columns)
      ++ ") VALUES ("
      ++ PyStr.join ", " (List.repeat "?" (List.length columns)) ++ ")".
Proof.
  unfold insert_statement. cbv zeta.
  assert (Hf : PyStr.format
                 (PyStr.rstrip " ," (PyStr.repeat (Schema.DQ ++ "{}" ++ Schema.DQ ++ ", ")
                                                  (List.length columns)))
                 columns
               = PyStr.join ", " (map quoted columns)).
  { destruct columns as [|c columns]; [reflexivity|].
    cbn [List.length]. rewrite repeat_snoc. unfold PyStr.rstrip.
    rewrite rstrip_by_app by (vm_compute; discriminate).
    change (PyStr.rstrip_by (PyStr.in_chars " ,") (Schema.DQ ++ "{}" ++ Schema.DQ ++ ", "))
      with (Schema.DQ ++ "{}" ++ Schema.DQ).
    apply format_fields. }
  assert (Hp : PyStr.rstrip " ," (PyStr.repeat "?, " (List.length columns))
               = PyStr.join ", " (List.repeat "?" (List.length columns))).
  { destruct (List.length columns) as [|n]; [reflexivity|].
    rewrite repeat_snoc. unfold PyStr.rstrip.
    rewrite rstrip_by_app by (vm_compute; discriminate).
    change (PyStr.rstrip_by (PyStr.in_chars " ,") "?, ") with "?".
    apply placeholders. }
  rewrite Hf, Hp. unfold quoted.
  rewrite !TypeMapperMore.string_app_assoc. reflexivity.
Qed.

End InsertStatement.

(** * The kinds of events the methods emit *)

Lemma emits_weaken {A} (P Q : event -> Prop) (m : M A) :
  (forall e, P e -> Q e) -> emits P m -> emits Q m.
Proof.
  intros HPQ Hm s. destruct (Hm s) as (evs & E & F). exists evs.
  split; [exact E|]. eapply Forall_impl; [exact HPQ|exact F].
Qed.

Lemma kind_eqb_eq (a b : event_kind) : kind_eqb a b = true <-> a = b.
Proof. destruct a, b; cbn; split; congruence. Qed.

Lemma only_incl (small big : list event_kind) (e : event) :
  forallb (fun k => existsb (kind_eqb k) big) small = true ->
  only small e -> only big e.
Proof.
  unfold only. intros Hincl Hs. apply existsb_exists in Hs.
  destruct Hs as (k & Hk & Heq). apply kind_eqb_eq in Heq. subst k.
  rewrite forallb_forall in Hincl. apply Hincl, Hk.
Qed.

Section Kinds.

Variable decode : string -> option string.

Lemma transfer_chunk_kinds (sql table_name : string) (size chunk : nat) :
  emits (only copying_rows) (transfer_chunk decode sql table_name size chunk).
Proof. unfold transfer_chunk, fetchmany, executemany. emits_auto. Qed.

Lemma chunk_loop_kinds (sql table_name : string) (size : nat) :
  forall count chunk,
    emits (only copying_rows) (chunk_loop decode sql table_name size chunk count).
Proof.
  induction count as [|count IH]; intros chunk; cbn [chunk_loop].
  - emits_auto.
  - apply emits_bind; [apply transfer_chunk_kinds|intros _; apply IH].
Qed.

Lemma transfer_block_kinds (table_name sql : string) (total_records : nat) :
  emits (only copying_rows) (transfer_block decode table_name sql total_records).
Proof.
  unfold transfer_block, fetchall, executemany, commit.
  emits_auto; apply chunk_loop_kinds.
Qed.

Lemma create_table_block_kinds (table_name : string) :
  emits (only creating) (create_table_block decode table_name false).
Proof.
  unfold create_table_block, _build_create_table_sql, show_columns, query_table,
    executescript, commit.
  emits_auto.
Qed.

Lemma create_table_block_working (table_name : string) (attempting_reconnect : bool) :
  emits (only working) (create_table_block decode table_name attempting_reconnect).
Proof.
  unfold create_table_block, _build_create_table_sql, show_columns, query_table,
    executescript, commit, reconnect.
  emits_auto.
Qed.

Lemma on_mysql_error_working (attempting_reconnect : bool) (again : M unit)
      (failed : string) (errno : nat) :
  kind_of (EvLog ERROR failed) = KLog ->
  emits (only working) again ->
  emits (only working) (on_mysql_error attempting_reconnect again failed errno).
Proof.
  intros Hf Ha. unfold on_mysql_error.
  assert (Hlog : only working (EvLog ERROR failed)) by (unfold only; rewrite Hf; reflexivity).
  emits_auto; exact Ha.
Qed.

Lemma on_sqlite_error_working (failed msg : string) :
  kind_of (EvLog ERROR failed) = KLog ->
  emits (only working) (on_sqlite_error failed msg).
Proof.
  intros Hf. unfold on_sqlite_error.
  assert (Hlog : only working (EvLog ERROR failed)) by (unfold only; rewrite Hf; reflexivity).
  emits_auto.
Qed.

Lemma create_table_working (table_name : string) (attempting_reconnect : bool) :
  emits (only working) (_create_table decode table_name attempting_reconnect).
Proof.
  assert (Hcall : forall again att,
             emits (only working) again ->
             emits (only working) (create_table_call decode again table_name att)).
  { intros again att Ha. unfold create_table_call. cbv zeta.
    apply emits_try_except.
    - apply create_table_block_working.
    - intros errno. apply on_mysql_error_working; [reflexivity|exact Ha].
    - intros msg. apply on_sqlite_error_working. reflexivity. }
  unfold _create_table. apply Hcall, Hcall. emits_auto.
Qed.

Lemma transfer_table_data_working (table_name sql : string) (total_records : nat)
      (attempting_reconnect : bool) :
  emits (only working)
        (_transfer_table_data decode table_name sql total_records attempting_reconnect).
Proof.
  assert (Hcall : forall again att,
             emits (only working) again ->
             emits (only working)
                   (transfer_table_data_call decode again table_name sql total_records att)).
  { intros again att Ha. unfold transfer_table_data_call. cbv zeta.
    apply emits_bind; [unfold reconnect; emits_auto|intros _].
    apply emits_try_except.
    - eapply emits_weaken; [|apply transfer_block_kinds].
      intros e. apply only_incl. reflexivity.
    - intros errno. apply on_mysql_error_working; [reflexivity|exact Ha].
    - intros msg. apply on_sqlite_error_working. reflexivity. }
  unfold _transfer_table_data. apply Hcall, Hcall. emits_auto.
Qed.

Lemma transfer_table_working (row : string) :
  emits (only working) (transfer_table decode row).
Proof.
  unfold transfer_table, decode_name.
  apply emits_bind; [emits_auto|intros _].
  apply emits_bind; [emits_auto|intros table_name].
  apply emits_bind; [apply create_table_working|intros _].
  apply emits_bind; [unfold count_records, query_table; emits_auto|intros total].
  destruct (0 <? total)%nat; [|emits_auto].
  apply emits_bind; [emits_auto|intros _].
  apply emits_bind; [unfold select_all, query_table; emits_auto|intros columns].
  apply transfer_table_data_working.
Qed.

Lemma transfer_tables_working (rows : list string) :
  emits (only working) (transfer_tables decode rows).
Proof.
  induction rows as [|row rows IH]; cbn [transfer_tables]; [emits_auto|].
  apply emits_bind; [apply transfer_table_working|intros _; exact IH].
Qed.

End Kinds.

(** * How a run ends *)

Section Completion.

Variable decode : string -> option string.

(** Property X8.  [transfer] logs [Done!] exactly when it returns, as the
    last thing it does, and only then, if asked to, has it logged and run
    the [VACUUM] just before.  A run that raises has neither logged [Done!]
    nor run a [VACUUM]. *)
Theorem transfer_completion (s s' : self) (r : result unit) :
  transfer decode s = (r, s') ->
  exists evs,
    events s' = (events s ++ evs)%list
    /\ match r with
       | Ok _ =>
           exists before,
             Forall (only working) before
             /\ evs = (before
                       ++ (if _vacuum s'
                           then [EvLog INFO vacuum_message; EvExecute "VACUUM"]
                           else [])
                       ++ [EvLog INFO "Done!"])%list
       | Raise _ => Forall (only working) evs
       end.
Proof.
  unfold transfer. intros H.
  assert (Hshow : emits (only working) show_tables)
    by (unfold show_tables; emits_auto).
  unfold bind at 1 in H. destruct (Hshow s) as (e1 & E1 & F1).
  destruct (show_tables s) as [[rows|e] s1]; cbn [snd] in E1.
  2:{ injection H as <- <-. exists e1. auto. }
  unfold bind at 1 in H.
  destruct (transfer_tables_working decode rows s1) as (e2 & E2 & F2).
  destruct (transfer_tables decode rows s1) as [[[]|e] s2]; cbn [snd] in E2.
  2:{ injection H as <- <-. exists (e1 ++ e2)%list. rewrite E2, E1, app_assoc.
      split; [reflexivity|]. apply Forall_app; auto. }
  unfold bind at 1 in H. unfold get at 1 in H.
  exists ((e1 ++ e2) ++ (if _vacuum s2
                         then [EvLog INFO vacuum_message; EvExecute "VACUUM"]
                         else []) ++ [EvLog INFO "Done!"])%list.
  destruct (_vacuum s2) eqn:Hv;
    unfold bind, log_event, modify in H; injection H as <- <-; cbn;
    rewrite Hv, E2, E1, <- !app_assoc; (split; [reflexivity|]);
    exists (e1 ++ e2)%list; rewrite <- !app_assoc;
    (split; [apply Forall_app; auto|reflexivity]).
Qed.

End Completion.

Lemma transfer_completion_witness :
  exists evs,
    events (snd (transfer Scenario.ascii_decode
                   (Scenario.new_object Scenario.keyed_db None true [])))
    = ([] ++ evs)%list
    /\ exists before,
        Forall (only working) before
        /\ evs = (before ++ [EvLog INFO vacuum_message; EvExecute "VACUUM"]
                         ++ [EvLog INFO "Done!"])%list.
Proof.
  refine (transfer_completion Scenario.ascii_decode
            (Scenario.new_object Scenario.keyed_db None true [])
            (snd (transfer Scenario.ascii_decode
                    (Scenario.new_object Scenario.keyed_db None true [])))
            (Ok tt) _).
  vm_compute. reflexivity.
Defined.

(** * Reconnecting *)

Section Reconnects.

Variable decode : string -> option string.

Lemma count_reconnects_app (a b : list event) :
  Scenario.count_reconnects (a ++ b)
  = Scenario.count_reconnects a + Scenario.count_reconnects b.
Proof.
  unfold Scenario.count_reconnects. rewrite filter_app, length_app. reflexivity.
Qed.

Lemma count_reconnects_none (kinds : list event_kind) (evs : list event) :
  existsb (kind_eqb KReconnect) kinds = false ->
  Forall (only kinds) evs ->
  Scenario.count_reconnects evs = 0.
Proof.
  intros Hk. induction 1 as [|e evs He Hall IH]; [reflexivity|].
  unfold Scenario.count_reconnects in *. cbn [filter].
  destruct e; try exact IH.
  unfold only in He. cbn in He. congruence.
Qed.

Lemma within_of_emits {A} (kinds : list event_kind) (m : M A) :
  existsb (kind_eqb KReconnect) kinds = false ->
  emits (only kinds) m -> reconnects_within 0 m.
Proof.
  intros Hk Hm s. destruct (Hm s) as (evs & E & F). exists evs.
  split; [exact E|]. rewrite (count_reconnects_none kinds evs Hk F). lia.
Qed.

Lemma within_bind {A B} (a b : nat) (m : M A) (k : A -> M B) :
  reconnects_within a m -> (forall x, reconnects_within b (k x)) ->
  reconnects_within (a + b) (bind m k).
Proof.
  intros Hm Hk s. unfold bind. destruct (Hm s) as (e1 & E1 & C1).
  destruct (m s) as [[x|e] s1]; cbn [snd] in *.
  - destruct (Hk x s1) as (e2 & E2 & C2). exists (e1 ++ e2)%list.
    rewrite E2, E1, app_assoc, count_reconnects_app. split; [reflexivity|lia].
  - exists e1. split; [exact E1|lia].
Qed.

Lemma within_try_except {A} (a b : nat) (body : M A) (h1 : nat -> M A)
      (h2 : string -> M A) :
  reconnects_within a body ->
  (forall n, reconnects_within b (h1 n)) ->
  (forall m, reconnects_within b (h2 m)) ->
  reconnects_within (a + b) (try_except body h1 h2).
Proof.
  intros Hb H1 H2 s. unfold try_except. destruct (Hb s) as (e1 & E1 & C1).
  assert (Hk : forall (h : M A),
             reconnects_within b h ->
             exists evs, events (snd (h (snd (body s)))) = (events s ++ evs)%list
                         /\ Scenario.count_reconnects evs <= a + b).
  { intros h Hh. destruct (Hh (snd (body s))) as (e2 & E2 & C2).
    exists (e1 ++ e2)%list. rewrite E2, E1, app_assoc, count_reconnects_app.
    split; [reflexivity|lia]. }
  destruct (body s) as [[x|[errno|msg|msg| |]] s1]; cbn [snd] in *; eauto;
    exists e1; (split; [exact E1|lia]).
Qed.

Lemma within_more {A} (a b : nat) (m : M A) :
  a <= b -> reconnects_within a m -> reconnects_within b m.
Proof.
  intros Hab Hm s. destruct (Hm s) as (evs & E & C). exists evs.
  split; [exact E|lia].
Qed.

Lemma reconnect_within : reconnects_within 1 reconnect.
Proof.
  intros s. exists [EvReconnect]. split; [|cbn; lia].
  unfold reconnect, bind, log_event, modify, server_call. cbn.
  destruct (faults (_mysql s)) as [|[errno|] rest]; reflexivity.
Qed.

Lemma within_bind_le {A B} (a b c : nat) (m : M A) (k : A -> M B) :
  a + b <= c ->
  reconnects_within a m -> (forall x, reconnects_within b (k x)) ->
  reconnects_within c (bind m k).
Proof. intros Hc Hm Hk. eapply within_more; [exact Hc|]. apply within_bind; assumption. Qed.

Lemma within_try_except_le {A} (a b c : nat) (body : M A) (h1 : nat -> M A)
      (h2 : string -> M A) :
  a + b <= c ->
  reconnects_within a body ->
  (forall n, reconnects_within b (h1 n)) ->
  (forall m, reconnects_within b (h2 m)) ->
  reconnects_within c (try_except body h1 h2).
Proof.
  intros Hc Hb H1 H2. eapply within_more; [exact Hc|].
  apply within_try_except; assumption.
Qed.

Lemma log_event_within (e : event) :
  kind_of e <> KReconnect -> reconnects_within 0 (log_event e).
Proof.
  intros He s. exists [e]. split; [reflexivity|].
  destruct e; cbn; try lia. contradiction He. reflexivity.
Qed.

Lemma raise_within {A} (e : exn) : reconnects_within 0 (@raise A e).
Proof. intros s. exists []. rewrite app_nil_r. split; [reflexivity|cbn; lia]. Qed.

Lemma ret_within {A} (a : A) : reconnects_within 0 (ret a).
Proof. intros s. exists []. rewrite app_nil_r. split; [reflexivity|cbn; lia]. Qed.

Lemma error_log_kind (failed : string) : kind_of (EvLog ERROR failed) <> KReconnect.
Proof. cbn. destruct (failed =? "Done!"); discriminate. Qed.

Lemma on_mysql_error_within (n : nat) (attempting_reconnect : bool) (again : M unit)
      (failed : string) (errno : nat) :
  reconnects_within n again ->
  reconnects_within n (on_mysql_error attempting_reconnect again failed errno).
Proof.
  intros Ha. unfold on_mysql_error.
  apply (within_bind_le n 0); [lia| |].
  - destruct (errno =? CR_SERVER_LOST)%nat;
      [|eapply within_more; [|apply ret_within]; lia].
    destruct attempting_reconnect; cbn [negb].
    + apply (within_bind_le 0 0); [lia|apply log_event_within; discriminate|].
      intros _. apply raise_within.
    + apply (within_bind_le 0 n); [lia|apply log_event_within; discriminate|].
      intros _. exact Ha.
  - intros _. apply (within_bind_le 0 0); [lia|apply log_event_within, error_log_kind|].
    intros _. apply raise_within.
Qed.

Lemma on_sqlite_error_within (n : nat) (failed msg : string) :
  reconnects_within n (on_sqlite_error failed msg).
Proof.
  unfold on_sqlite_error.
  apply (within_bind_le 0 0); [lia|apply log_event_within, error_log_kind|].
  intros _. apply raise_within.
Qed.

Lemma on_mysql_error_within_retry (again : M unit) (failed : string) (errno : nat) :
  reconnects_within 0 (on_mysql_error true again failed errno).
Proof.
  unfold on_mysql_error.
  apply (within_bind_le 0 0); [lia| |].
  - destruct (errno =? CR_SERVER_LOST)%nat; [|apply ret_within]. cbn [negb].
    apply (within_bind_le 0 0); [lia|apply log_event_within; discriminate|].
    intros _. apply raise_within.
  - intros _. apply (within_bind_le 0 0); [lia|apply log_event_within, error_log_kind|].
    intros _. apply raise_within.
Qed.

(** Property X9.  Whatever the server does, one call of [_create_table] or
    of [_transfer_table_data] reconnects at most once. *)
Theorem at_most_one_reconnect (table_name sql : string) (total_records : nat)
        (attempting_reconnect : bool) :
  reconnects_within 1 (_create_table decode table_name attempting_reconnect)
  /\ reconnects_within 1
       (_transfer_table_data decode table_name sql total_records attempting_reconnect).
Proof.
  assert (Hcreate0 : reconnects_within 0 (create_table_block decode table_name false)).
  { eapply within_of_emits; [|apply create_table_block_kinds]. reflexivity. }
  assert (Hcreate1 : reconnects_within 1 (create_table_block decode table_name true)).
  { unfold create_table_block.
    apply (within_bind_le 1 0); [lia|apply reconnect_within|intros _].
    eapply within_of_emits with (kinds := creating); [reflexivity|].
    unfold _build_create_table_sql, show_columns, query_table, executescript, commit.
    emits_auto. }
  assert (Hcopy : reconnects_within 0
                    (transfer_block decode table_name sql total_records)).
  { eapply within_of_emits; [|apply transfer_block_kinds]. reflexivity. }
  assert (Hretry_c : forall again,
             reconnects_within 1 (create_table_call decode again table_name true)).
  { intros again. unfold create_table_call. cbv zeta.
    apply (within_try_except_le 1 0); [lia|exact Hcreate1| |].
    - intros errno. apply on_mysql_error_within_retry.
    - intros msg. apply on_sqlite_error_within. }
  assert (Hretry_t : forall again,
             reconnects_within 1
               (transfer_table_data_call decode again table_name sql total_records true)).
  { intros again. unfold transfer_table_data_call. cbv zeta.
    apply (within_bind_le 1 0); [lia|apply reconnect_within|intros _].
    apply (within_try_except_le 0 0); [lia|exact Hcopy| |].
    - intros errno. apply on_mysql_error_within_retry.
    - intros msg. apply on_sqlite_error_within. }
  split.
  - unfold _create_table. destruct attempting_reconnect; [apply Hretry_c|].
    unfold create_table_call at 1. cbv zeta.
    apply (within_try_except_le 0 1); [lia|exact Hcreate0| |].
    + intros errno. apply on_mysql_error_within, Hretry_c.
    + intros msg. apply on_sqlite_error_within.
  - unfold _transfer_table_data. destruct attempting_reconnect; [apply Hretry_t|].
    unfold transfer_table_data_call at 1. cbv zeta.
    apply (within_bind_le 0 1); [lia|apply ret_within|intros _].
    apply (within_try_except_le 0 1); [lia|exact Hcopy| |].
    + intros errno. apply on_mysql_error_within, Hretry_t.
    + intros msg. apply on_sqlite_error_within.
Qed.

End Reconnects.

Section NoRetry.

Variable decode : string -> option string.

Lemma handler_other_error (body : M unit) (again : M unit) (failed : string)
      (s s1 : self) (e : exn) :
  e <> MySQLError CR_SERVER_LOST ->
  body s = (Raise e, s1) ->
  exists s',
    try_except body (on_mysql_error false again failed) (on_sqlite_error failed) s
    = (Raise e, s')
    /\ _sqlite s' = _sqlite s1
    /\ _mysql s' = _mysql s1
    /\ Scenario.count_reconnects (events s') = Scenario.count_reconnects (events s1).
Proof.
  intros He Hb. unfold try_except. rewrite Hb.
  assert (Hlog : Scenario.count_reconnects (events s1 ++ [EvLog ERROR failed])
                 = Scenario.count_reconnects (events s1)).
  { rewrite count_reconnects_app. cbn. lia. }
  destruct e as [errno|msg|msg| |]; try (exists s1; repeat split; reflexivity).
  - unfold on_mysql_error.
    destruct (errno =? CR_SERVER_LOST)%nat eqn:E.
    + apply Nat.eqb_eq in E. subst errno. contradiction He. reflexivity.
    + unfold bind, ret, log_event, modify, raise.
      eexists. split; [reflexivity|]. cbn. repeat split. exact Hlog.
  - unfold on_sqlite_error, bind, log_event, modify, raise.
    eexists. split; [reflexivity|]. cbn. repeat split. exact Hlog.
Qed.

(** Property X10.  Only a lost connection is retried.  When the first
    attempt raises anything else (another MySQL error, an SQLite error, a
    failed decode, an invalid column type), the method raises that same
    exception without a reconnect, and leaves both connections as the
    attempt left them. *)
Theorem other_errors_not_retried (table_name sql : string) (total_records : nat)
        (s s1 : self) (e : exn) :
  e <> MySQLError CR_SERVER_LOST ->
  (create_table_block decode table_name false s = (Raise e, s1) ->
   exists s',
     _create_table decode table_name false s = (Raise e, s')
     /\ _sqlite s' = _sqlite s1 /\ _mysql s' = _mysql s1
     /\ Scenario.count_reconnects (events s') = Scenario.count_reconnects (events s))
  /\ (transfer_block decode table_name sql total_records s = (Raise e, s1) ->
      exists s',
        _transfer_table_data decode table_name sql total_records false s = (Raise e, s')
        /\ _sqlite s' = _sqlite s1 /\ _mysql s' = _mysql s1
        /\ Scenario.count_reconnects (events s') = Scenario.count_reconnects (events s)).
Proof.
  intros He. split; intros Hb.
  - destruct (handler_other_error _ (create_table_call decode (ret tt) table_name true)
                ("_create_table failed creating table " ++ table_name) s s1 e He Hb)
      as (s' & Hrun & Hq & Hm & Hc).
    exists s'. unfold _create_table, create_table_call. cbv zeta.
    split; [exact Hrun|]. repeat split; try assumption.
    rewrite Hc.
    destruct (within_of_emits creating _ eq_refl
                (create_table_block_kinds decode table_name) s) as (evs & E & C).
    rewrite Hb in E. cbn [snd] in E. rewrite E, count_reconnects_app. lia.
  - destruct (handler_other_error _
                (transfer_table_data_call decode (ret tt) table_name sql total_records true)
                ("transfer failed inserting data into table " ++ table_name) s s1 e He Hb)
      as (s' & Hrun & Hq & Hm & Hc).
    exists s'. unfold _transfer_table_data, transfer_table_data_call. cbv zeta.
    unfold bind at 1. unfold ret at 1.
    split; [exact Hrun|]. repeat split; try assumption.
    rewrite Hc.
    destruct (within_of_emits copying_rows _ eq_refl
                (transfer_block_kinds decode table_name sql total_records) s)
      as (evs & E & C).
    rewrite Hb in E. cbn [snd] in E. rewrite E, count_reconnects_app. lia.
Qed.

End NoRetry.

Lemma other_errors_not_retried_witness :
  let s := Scenario.copying [[Scenario.digit 1]] None [Some 1205] in
  exists s',
    _transfer_table_data Scenario.ascii_decode "t" Scenario.insert_t 1 false s
    = (Raise (MySQLError 1205), s')
    /\ _sqlite s' = _sqlite (snd (transfer_block Scenario.ascii_decode "t"
                                    Scenario.insert_t 1 s))
    /\ _mysql s' = _mysql (snd (transfer_block Scenario.ascii_decode "t"
                                   Scenario.insert_t 1 s))
    /\ Scenario.count_reconnects (events s') = Scenario.count_reconnects (events s).
Proof.
  cbv zeta.
  refine (proj2 (other_errors_not_retried Scenario.ascii_decode "t" Scenario.insert_t 1
                   (Scenario.copying [[Scenario.digit 1]] None [Some 1205])
                   (snd (transfer_block Scenario.ascii_decode "t" Scenario.insert_t 1
                           (Scenario.copying [[Scenario.digit 1]] None [Some 1205])))
                   (MySQLError 1205) _) _).
  - discriminate.
  - vm_compute. reflexivity.
Defined.

(** * The target only grows *)

Lemma grows_refl (q : sqlite_conn) : grows q q.
Proof. intros n T H. exists T. repeat split; [exact H|]. exists []. symmetry. apply app_nil_r. Qed.

Lemma grows_trans (q1 q2 q3 : sqlite_conn) : grows q1 q2 -> grows q2 q3 -> grows q1 q3.
Proof.
  intros H12 H23 n T H. destruct (H12 n T H) as (T2 & F2 & C2 & m2 & R2).
  destruct (H23 n T2 F2) as (T3 & F3 & C3 & m3 & R3).
  exists T3. split; [exact F3|]. split; [congruence|].
  exists (m2 ++ m3)%list. rewrite R3, R2, app_assoc. reflexivity.
Qed.

Lemma append_only_silent {A} (m : M A) :
  (forall s, _sqlite (snd (m s)) = _sqlite s) -> append_only m.
Proof. intros H s. rewrite H. apply grows_refl. Qed.

Lemma append_only_ret {A} (a : A) : append_only (ret a).
Proof. apply append_only_silent. reflexivity. Qed.

Lemma append_only_raise {A} (e : exn) : append_only (@raise A e).
Proof. apply append_only_silent. reflexivity. Qed.

Lemma append_only_lift {A} (r : result A) : append_only (lift r).
Proof. apply append_only_silent. reflexivity. Qed.

Lemma append_only_get : append_only get.
Proof. apply append_only_silent. reflexivity. Qed.

Lemma append_only_log_event (e : event) : append_only (log_event e).
Proof. apply append_only_silent. reflexivity. Qed.

Lemma append_only_modify (f : self -> self) :
  (forall s, _sqlite (f s) = _sqlite s) -> append_only (modify f).
Proof. intros H. apply append_only_silent. exact H. Qed.

Lemma append_only_server_call : append_only server_call.
Proof.
  apply append_only_silent. intros s. unfold server_call.
  destruct (faults (_mysql s)) as [|[errno|] rest]; reflexivity.
Qed.

Lemma append_only_bind {A B} (m : M A) (k : A -> M B) :
  append_only m -> (forall a, append_only (k a)) -> append_only (bind m k).
Proof.
  intros Hm Hk s. unfold bind. pose proof (Hm s) as H1.
  destruct (m s) as [[a|e] s1]; cbn [snd] in *; [|exact H1].
  eapply grows_trans; [exact H1|apply Hk].
Qed.

Lemma append_only_try_except {A} (body : M A) (h1 : nat -> M A) (h2 : string -> M A) :
  append_only body -> (forall n, append_only (h1 n)) -> (forall m, append_only (h2 m)) ->
  append_only (try_except body h1 h2).
Proof.
  intros Hb H1 H2 s. unfold try_except. pose proof (Hb s) as H.
  destruct (body s) as [[a|[errno|msg|msg| |]] s1]; cbn [snd] in *; try exact H;
    (eapply grows_trans; [exact H|]); [apply H1|apply H2].
Qed.

Lemma append_only_run_script (table_name : string) (cols : list column_row) :
  append_only (run_script table_name cols).
Proof.
  intros s n T H. unfold run_script.
  pose proof (create_indexes_tables table_name cols
                (create_table_if_not_exists table_name cols (_sqlite s))) as Ht.
  destruct (create_indexes _ _ _) as [r q]. cbn [snd] in *.
  exists T. split; [|split; [reflexivity|exists []; symmetry; apply app_nil_r]].
  cbn [_sqlite set_sqlite]. unfold find_sqlite_table. rewrite Ht.
  apply (created_keeps table_name n cols (_sqlite s) T H).
Qed.

Lemma grows_put_table (q : sqlite_conn) (t : sqlite_table) (bound : list bound_row) :
  find_sqlite_table (st_name t) q = Some t ->
  grows q (put_table (insert_bound t bound) q).
Proof.
  intros Ht n T H. destruct (String.eqb_spec (st_name t) n) as [<-|Hne].
  - assert (T = t) by congruence. subst T.
    exists (insert_bound t bound).
    split; [eapply find_put_table; [exact Ht|reflexivity]|].
    split; [reflexivity|]. cbn [insert_bound st_rows]. apply fold_insert_grows.
  - exists T. rewrite find_put_other by (cbn; exact Hne).
    split; [exact H|]. split; [reflexivity|]. exists []. symmetry. apply app_nil_r.
Qed.

Section AppendOnly.

Variable decode : string -> option string.

Lemma append_only_executemany (statement table_name : string) (rows : list raw_row) :
  append_only (executemany decode statement table_name rows).
Proof.
  intros s. destruct (find_sqlite_table table_name (_sqlite s)) as [t|] eqn:Ht.
  - rewrite (executemany_found decode _ _ _ _ t Ht). cbn [snd _sqlite set_sqlite].
    apply grows_put_table.
    rewrite (find_sqlite_table_name _ _ _ Ht). exact Ht.
  - rewrite (executemany_missing decode _ _ _ _ Ht). apply grows_refl.
Qed.

Ltac append_only_step :=
  first
    [ apply append_only_ret | apply append_only_raise | apply append_only_lift
    | apply append_only_get | apply append_only_server_call
    | apply append_only_log_event | apply append_only_run_script
    | apply append_only_executemany
    | apply append_only_modify; intros ?; reflexivity
    | apply append_only_bind; [|intros ?]
    | apply append_only_try_except; [| intros ? | intros ?]
    | match goal with
      | |- append_only (match ?x with _ => _ end) => destruct x
      | |- append_only (if ?x then _ else _) => destruct x
      end ].

Lemma append_only_chunk_loop (sql table_name : string) (size : nat) :
  forall count chunk, append_only (chunk_loop decode sql table_name size chunk count).
Proof.
  induction count as [|count IH]; intros chunk; cbn [chunk_loop].
  - apply append_only_ret.
  - apply append_only_bind; [|intros _; apply IH].
    unfold transfer_chunk, fetchmany. repeat append_only_step.
Qed.

Lemma append_only_on_mysql_error (attempting_reconnect : bool) (again : M unit)
      (failed : string) (errno : nat) :
  append_only again ->
  append_only (on_mysql_error attempting_reconnect again failed errno).
Proof. intros Ha. unfold on_mysql_error. repeat append_only_step; exact Ha. Qed.

Lemma append_only_on_sqlite_error (failed msg : string) :
  append_only (on_sqlite_error failed msg).
Proof. unfold on_sqlite_error. repeat append_only_step. Qed.

Lemma append_only_create_table (table_name : string) (attempting_reconnect : bool) :
  append_only (_create_table decode table_name attempting_reconnect).
Proof.
  assert (Hcall : forall again att,
             append_only again ->
             append_only (create_table_call decode again table_name att)).
  { intros again att Ha. unfold create_table_call. cbv zeta.
    apply append_only_try_except;
      [|intros errno; apply append_only_on_mysql_error, Ha
       |intros msg; apply append_only_on_sqlite_error].
    unfold create_table_block, reconnect, _build_create_table_sql, show_columns,
      query_table, executescript, commit.
    repeat append_only_step. }
  unfold _create_table. apply Hcall, Hcall, append_only_ret.
Qed.

Lemma append_only_transfer_table_data (table_name sql : string) (total_records : nat)
      (attempting_reconnect : bool) :
  append_only
    (_transfer_table_data decode table_name sql total_records attempting_reconnect).
Proof.
  assert (Hcall : forall again att,
             append_only again ->
             append_only
               (transfer_table_data_call decode again table_name sql total_records att)).
  { intros again att Ha. unfold transfer_table_data_call. cbv zeta.
    apply append_only_bind; [unfold reconnect; repeat append_only_step|intros _].
    apply append_only_try_except;
      [|intros errno; apply append_only_on_mysql_error, Ha
       |intros msg; apply append_only_on_sqlite_error].
    unfold transfer_block, fetchall, commit.
    repeat append_only_step; apply append_only_chunk_loop. }
  unfold _transfer_table_data. apply Hcall, Hcall, append_only_ret.
Qed.

Lemma append_only_transfer_tables (rows : list string) :
  append_only (transfer_tables decode rows).
Proof.
  induction rows as [|row rows IH]; cbn [transfer_tables]; [apply append_only_ret|].
  apply append_only_bind; [|intros _; exact IH].
  unfold transfer_table, decode_name.
  apply append_only_bind; [repeat append_only_step|intros _].
  apply append_only_bind; [repeat append_only_step|intros table_name].
  apply append_only_bind; [apply append_only_create_table|intros _].
  apply append_only_bind;
    [unfold count_records, query_table; repeat append_only_step|intros total].
  destruct (0 <? total)%nat; [|apply append_only_ret].
  apply append_only_bind; [repeat append_only_step|intros _].
  apply append_only_bind;
    [unfold select_all, query_table; repeat append_only_step|intros columns].
  apply append_only_transfer_table_data.
Qed.

(** In the engine model no run of [transfer] takes anything away from
    the target.  The model performs, for every script, the statements
    [statements_of] gives; what the scripts sent spell is the matter of
    the next section. *)
Lemma transfer_grows : append_only (transfer decode).
Proof.
  unfold transfer, show_tables.
  repeat (apply append_only_bind; [repeat append_only_step|intros ?]);
    try apply append_only_transfer_tables.
  repeat append_only_step.
Qed.

End AppendOnly.

(** * What is sent to SQLite *)

Section Sends.

Variable decode : string -> option string.
Variable db : list mysql_table.

Lemma sends_silent {A} (Q : A -> Prop) (m : M A) :
  (forall s, events (snd (m s)) = events s) ->
  (forall s, database (_mysql (snd (m s))) = database (_mysql s)) ->
  (forall s, database (_mysql s) = db ->
             match fst (m s) with Ok a => Q a | Raise _ => True end) ->
  sends decode db Q m.
Proof.
  intros He Hd Hq s Hs. exists []. rewrite app_nil_r, He, Hd.
  split; [reflexivity|]. split; [constructor|]. split; [exact Hs|]. apply Hq, Hs.
Qed.

Lemma sends_ret {A} (Q : A -> Prop) (a : A) : Q a -> sends decode db Q (ret a).
Proof. intros H. apply sends_silent; intros; cbn; auto. Qed.

Lemma sends_raise {A} (Q : A -> Prop) (e : exn) : sends decode db Q (@raise A e).
Proof. apply sends_silent; intros; cbn; auto. Qed.

Lemma sends_lift (r : result unit) : sends decode db anything (lift r).
Proof. apply sends_silent; intros; cbn; auto. destruct r; exact I. Qed.

Lemma sends_get : sends decode db (fun s => database (_mysql s) = db) get.
Proof. apply sends_silent; intros; cbn; auto. Qed.

Lemma sends_modify (f : self -> self) :
  (forall s, events (f s) = events s) ->
  (forall s, database (_mysql (f s)) = database (_mysql s)) ->
  sends decode db anything (modify f).
Proof. intros He Hd. apply sends_silent; intros; cbn; auto. exact I. Qed.

Lemma sends_log_event (e : event) : spelt decode db e -> sends decode db anything (log_event e).
Proof.
  intros H s Hs. exists [e]. cbn. repeat split; auto.
Qed.

Lemma sends_server_call : sends decode db anything server_call.
Proof.
  apply sends_silent; intros s; unfold server_call;
    destruct (faults (_mysql s)) as [|[errno|] rest]; cbn; auto; intros; exact I.
Qed.

Lemma sends_run_script (table_name : string) (cols : list column_row) :
  sends decode db anything (run_script table_name cols).
Proof.
  apply sends_silent; intros s; unfold run_script;
    destruct (create_indexes _ _ _) as [[[]|e] q]; cbn; auto; intros; exact I.
Qed.

Lemma sends_weaken {A} (Q Q' : A -> Prop) (m : M A) :
  (forall a, Q a -> Q' a) -> sends decode db Q m -> sends decode db Q' m.
Proof.
  intros HQ Hm s Hs. destruct (Hm s Hs) as (evs & E & F & D & V).
  exists evs. repeat split; auto. destruct (fst (m s)); auto.
Qed.

Lemma sends_bind {A B} (Q1 : A -> Prop) (Q2 : B -> Prop) (m : M A) (k : A -> M B) :
  sends decode db Q1 m -> (forall a, Q1 a -> sends decode db Q2 (k a)) -> sends decode db Q2 (bind m k).
Proof.
  intros Hm Hk s Hs. unfold bind. destruct (Hm s Hs) as (e1 & E1 & F1 & D1 & V1).
  destruct (m s) as [[a|e] s1]; cbn in *.
  - destruct (Hk a V1 s1 D1) as (e2 & E2 & F2 & D2 & V2). exists (e1 ++ e2)%list.
    rewrite E2, E1, app_assoc. repeat split; auto. apply Forall_app; auto.
  - exists e1. auto.
Qed.

Lemma sends_try_except {A} (Q : A -> Prop) (body : M A) (h1 : nat -> M A)
      (h2 : string -> M A) :
  sends decode db Q body -> (forall n, sends decode db Q (h1 n)) -> (forall m, sends decode db Q (h2 m)) ->
  sends decode db Q (try_except body h1 h2).
Proof.
  intros Hb H1 H2 s Hs. unfold try_except.
  destruct (Hb s Hs) as (e1 & E1 & F1 & D1 & V1).
  assert (Hk : forall (h : M A),
             sends decode db Q h ->
             exists evs,
               events (snd (h (snd (body s)))) = (events s ++ evs)%list
               /\ Forall (spelt decode db) evs
               /\ database (_mysql (snd (h (snd (body s))))) = db
               /\ match fst (h (snd (body s))) with Ok a => Q a | Raise _ => True end).
  { intros h Hh. destruct (Hh (snd (body s)) D1) as (e2 & E2 & F2 & D2 & V2).
    exists (e1 ++ e2)%list. rewrite E2, E1, app_assoc.
    repeat split; auto. apply Forall_app; auto. }
  destruct (body s) as [[a|[errno|msg|msg| |]] s1]; cbn in *; eauto 10.
Qed.

End Sends.

Ltac sends_step :=
  first
    [ apply sends_ret; exact I | apply sends_raise | apply sends_lift
    | apply sends_server_call | apply sends_run_script
    | apply sends_log_event; solve [exact I | reflexivity | assumption]
    | apply sends_modify; intros ?; reflexivity
    | eapply sends_weaken; [|apply sends_get]; intros ? ?; exact I
    | apply (sends_bind _ _ anything); [|intros ? _]
    | apply sends_try_except; [| intros ? | intros ?]
    | match goal with
      | |- sends _ _ _ (match ?x with _ => _ end) => destruct x
      | |- sends _ _ _ (if ?x then _ else _) => destruct x
      end ].

Ltac sends_auto := repeat sends_step.

Section SendsOfMethods.

Variable decode : string -> option string.
Variable db : list mysql_table.

Hypothesis Hspell : Forall (scripts_spell decode) db.

Lemma spells_of_source (table_name : string) (t : mysql_table) :
  of_source decode db table_name t ->
  script_spells table_name (tbl_columns t)
  /\ insert_spells table_name (map Field (tbl_columns t)).
Proof.
  intros [Hin Hd]. rewrite Forall_forall in Hspell.
  specialize (Hspell t Hin). unfold scripts_spell in Hspell.
  rewrite Hd in Hspell. exact Hspell.
Qed.

Lemma query_table_sends (statement table_name : string) :
  sends decode db (of_source decode db table_name) (query_table decode statement table_name).
Proof.
  unfold query_table.
  apply (sends_bind _ _ anything); [sends_auto|intros _ _].
  apply (sends_bind _ _ anything); [sends_auto|intros _ _].
  apply (sends_bind _ _ (fun s => database (_mysql s) = db)); [apply sends_get|].
  intros s Hs. rewrite Hs.
  destruct (find (named decode table_name) db) as [t|] eqn:Hf; [|apply sends_raise].
  apply sends_ret. apply find_some in Hf. destruct Hf as [Hin Hn].
  split; [exact Hin|]. unfold named in Hn.
  destruct (decode (tbl_name t)) as [n|]; [|discriminate].
  apply String.eqb_eq in Hn. congruence.
Qed.

Lemma show_columns_sends (table_name : string) :
  sends decode db (fun rows => exists t, of_source decode db table_name t /\ rows = tbl_columns t)
        (show_columns decode table_name).
Proof.
  unfold show_columns.
  apply (sends_bind _ _ (of_source decode db table_name));
    [apply query_table_sends|intros t Ht].
  apply (sends_bind _ _ anything); [sends_auto|intros _ _].
  apply (sends_bind _ _ anything); [sends_auto|intros _ _].
  apply sends_ret. eauto.
Qed.

Lemma select_all_sends (table_name : string) :
  sends decode db (fun names => exists t, of_source decode db table_name t
                                /\ names = map Field (tbl_columns t))
        (select_all decode table_name).
Proof.
  unfold select_all.
  apply (sends_bind _ _ (of_source decode db table_name));
    [apply query_table_sends|intros t Ht].
  cbv zeta. apply (sends_bind _ _ anything); [sends_auto|intros _ _].
  apply sends_ret. eauto.
Qed.

Lemma count_records_sends (table_name : string) :
  sends decode db anything (count_records decode table_name).
Proof.
  unfold count_records.
  apply (sends_bind _ _ (of_source decode db table_name));
    [apply query_table_sends|intros t Ht].
  sends_auto.
Qed.

Lemma create_table_block_sends (table_name : string) (attempting_reconnect : bool) :
  sends decode db anything (create_table_block decode table_name attempting_reconnect).
Proof.
  unfold create_table_block.
  apply (sends_bind _ _ anything); [unfold reconnect; sends_auto|intros _ _].
  unfold _build_create_table_sql.
  apply (sends_bind _ _ (fun ddl => spelt decode db (EvExecuteScript (fst ddl)))).
  - apply (sends_bind _ _ _ _ _ _ (show_columns_sends table_name)).
    intros rows (t & Ht & ->).
    destruct (Schema.render_create_table_sql table_name (tbl_columns t)) as [script|e]
      eqn:Hr; [|apply sends_raise].
    apply sends_ret. cbn.
    destruct (spells_of_source table_name t Ht) as [Hs _].
    unfold script_spells in Hs. rewrite Hr in Hs.
    destruct Hs as (statements & Hof & Hread).
    exists table_name, t, statements. repeat split; assumption || apply Ht.
  - intros ddl Hddl. unfold executescript, commit. sends_auto.
Qed.

Lemma handlers_send (attempting_reconnect : bool) (again : M unit) (failed : string) :
  sends decode db anything again ->
  (forall errno, sends decode db anything (on_mysql_error attempting_reconnect again failed errno))
  /\ (forall msg, sends decode db anything (on_sqlite_error failed msg)).
Proof.
  intros Ha. split; [intros errno|intros msg]; unfold on_mysql_error, on_sqlite_error.
  - sends_auto; exact Ha.
  - sends_auto.
Qed.

Lemma create_table_sends (table_name : string) (attempting_reconnect : bool) :
  sends decode db anything (_create_table decode table_name attempting_reconnect).
Proof.
  unfold _create_table, create_table_call. cbv zeta.
  assert (Hagain : sends decode db anything (create_table_call decode (ret tt) table_name true)).
  { unfold create_table_call. cbv zeta.
    destruct (handlers_send true (ret tt)
                ("_create_table failed creating table " ++ table_name)) as [H1 H2];
      [sends_auto|].
    apply sends_try_except; [apply create_table_block_sends|exact H1|exact H2]. }
  destruct (handlers_send attempting_reconnect
              (create_table_call decode (ret tt) table_name true)
              ("_create_table failed creating table " ++ table_name) Hagain) as [H1 H2].
  apply sends_try_except; [apply create_table_block_sends|exact H1|exact H2].
Qed.

Section OneStatement.

Variable sql : string.

Hypothesis Hsql : forall rows, spelt decode db (EvExecuteMany sql rows).

Lemma executemany_sends (table_name : string) (rows : list raw_row) :
  sends decode db anything (executemany decode sql table_name rows).
Proof.
  unfold executemany.
  apply (sends_bind _ _ anything);
    [eapply sends_weaken; [|apply sends_get]; intros ? ?; exact I|intros s _].
  destruct (find_sqlite_table table_name (_sqlite s)).
  - apply (sends_bind _ _ anything); [apply sends_log_event, Hsql|intros _ _].
    sends_auto.
  - apply (sends_bind _ _ anything); [apply sends_log_event, Hsql|intros _ _].
    sends_auto.
Qed.

Lemma chunk_loop_sends (table_name : string) (size : nat) :
  forall count chunk, sends decode db anything (chunk_loop decode sql table_name size chunk count).
Proof.
  induction count as [|count IH]; intros chunk; cbn [chunk_loop].
  - sends_auto.
  - apply (sends_bind _ _ anything); [|intros _ _; apply IH].
    unfold transfer_chunk.
    apply (sends_bind _ _ anything); [sends_auto|intros _ _].
    apply (sends_bind _ _ anything); [sends_auto|intros _ _].
    apply (sends_bind _ _ anything); [unfold fetchmany; sends_auto|intros rows _].
    apply executemany_sends.
Qed.

Lemma transfer_block_sends (table_name : string) (total_records : nat) :
  sends decode db anything (transfer_block decode table_name sql total_records).
Proof.
  assert (Hall : sends decode db anything (rows <- fetchall;;
                                 executemany decode sql table_name rows)).
  { apply (sends_bind _ _ anything); [unfold fetchall; sends_auto|intros rows _].
    apply executemany_sends. }
  unfold transfer_block, commit.
  apply (sends_bind _ _ anything);
    [eapply sends_weaken; [|apply sends_get]; intros ? ?; exact I|intros s _].
  apply (sends_bind _ _ anything); [|intros _ _; sends_auto].
  destruct (_chunk_size s) as [n|]; [|exact Hall].
  destruct (n >? 0)%Z; [apply chunk_loop_sends|exact Hall].
Qed.

Lemma transfer_table_data_sends (table_name : string) (total_records : nat)
      (attempting_reconnect : bool) :
  sends decode db anything
        (_transfer_table_data decode table_name sql total_records attempting_reconnect).
Proof.
  unfold _transfer_table_data.
  assert (Hcall : forall again att,
             sends decode db anything again ->
             sends decode db anything (transfer_table_data_call decode again table_name sql
                               total_records att)).
  { intros again att Ha. unfold transfer_table_data_call. cbv zeta.
    destruct (handlers_send att again
                ("transfer failed inserting data into table " ++ table_name) Ha)
      as [H1 H2].
    apply (sends_bind _ _ anything); [unfold reconnect; sends_auto|intros _ _].
    apply sends_try_except; [apply transfer_block_sends|exact H1|exact H2]. }
  apply Hcall, Hcall. sends_auto.
Qed.

End OneStatement.

Lemma transfer_table_sends (row : string) :
  sends decode db anything (transfer_table decode row).
Proof.
  unfold transfer_table, decode_name.
  apply (sends_bind _ _ anything); [sends_auto|intros _ _].
  apply (sends_bind _ _ anything); [sends_auto|intros table_name _].
  apply (sends_bind _ _ anything); [apply create_table_sends|intros _ _].
  apply (sends_bind _ _ anything); [apply count_records_sends|intros total_records _].
  destruct (0 <? total_records)%nat; [|sends_auto].
  apply (sends_bind _ _ anything); [sends_auto|intros _ _].
  apply (sends_bind _ _ _ _ _ _ (select_all_sends table_name)).
  intros columns (t & Ht & ->).
  apply transfer_table_data_sends. intros rows. cbn.
  exists table_name, t. split; [exact Ht|].
  destruct (spells_of_source table_name t Ht) as [_ Hi]. exact Hi.
Qed.

Lemma transfer_tables_sends (rows : list string) :
  sends decode db anything (transfer_tables decode rows).
Proof.
  induction rows as [|row rows IH]; cbn [transfer_tables]; [sends_auto|].
  apply (sends_bind _ _ anything); [apply transfer_table_sends|intros _ _; exact IH].
Qed.

Lemma transfer_sends : sends decode db anything (transfer decode).
Proof.
  unfold transfer, show_tables.
  apply (sends_bind _ _ anything); [sends_auto|intros rows _].
  apply (sends_bind _ _ anything); [apply transfer_tables_sends|intros _ _].
  apply (sends_bind _ _ anything);
    [eapply sends_weaken; [|apply sends_get]; intros ? ?; exact I|intros s _].
  sends_auto.
Qed.

End SendsOfMethods.

Section NothingTakenAway.

Variable decode : string -> option string.


End NothingTakenAway.


(** * The chunk numbers of a transfer *)

Lemma chunks_of_app (a b : list event) :
  Scenario.chunks_of (a ++ b) = (Scenario.chunks_of a ++ Scenario.chunks_of b)%list.
Proof.
  induction a as [|e a IH]; [reflexivity|].
  destruct e; cbn; rewrite ?IH; reflexivity.
Qed.

Lemma chunks_of_none (kinds : list event_kind) (evs : list event) :
  existsb (kind_eqb KChunk) kinds = false ->
  Forall (only kinds) evs ->
  Scenario.chunks_of evs = [].
Proof.
  intros Hk. induction 1 as [|e evs He Hall IH]; [reflexivity|].
  destruct e; cbn; try exact IH.
  unfold only in He. cbn in He. congruence.
Qed.

Section ChunkNumbers.

Variable decode : string -> option string.

(** One pass of the loop body hands out its chunk number and no other. *)
Lemma transfer_chunk_chunks (sql table_name : string) (size chunk : nat) (s : self) :
  exists evs,
    events (snd (transfer_chunk decode sql table_name size chunk s))
    = (events s ++ evs)%list
    /\ Scenario.chunks_of evs = [chunk]
    /\ Scenario.count_reconnects evs = 0.
Proof.
  assert (Hrest : emits (only [KFetch; KInsert])
                        (modify (set_current_chunk_number chunk);;
                         rows <- fetchmany size;;
                         executemany decode sql table_name rows)).
  { unfold fetchmany, executemany. emits_auto. }
  unfold transfer_chunk. unfold bind at 1. unfold log_event at 1, modify at 1.
  destruct (Hrest (emit (EvChunk chunk) s)) as (evs & E & F).
  exists (EvChunk chunk :: evs). rewrite E. cbn [events emit].
  rewrite <- app_assoc. split; [reflexivity|]. split.
  - cbn. rewrite (chunks_of_none [KFetch; KInsert] evs eq_refl F). reflexivity.
  - change (EvChunk chunk :: evs) with ([EvChunk chunk] ++ evs)%list.
    rewrite count_reconnects_app, (count_reconnects_none [KFetch; KInsert] evs eq_refl F). reflexivity.
Qed.

(** The loop hands out consecutive chunk numbers from the one it starts
    at: all [count] of them when it returns, and those up to the chunk
    that failed when it raises. *)
Lemma chunk_loop_chunks (sql table_name : string) (size : nat) :
  forall (count chunk : nat) (s : self),
  exists evs k,
    events (snd (chunk_loop decode sql table_name size chunk count s))
    = (events s ++ evs)%list
    /\ Scenario.chunks_of evs = seq chunk k
    /\ Scenario.count_reconnects evs = 0
    /\ k <= count
    /\ match fst (chunk_loop decode sql table_name size chunk count s) with
       | Ok _ => k = count
       | Raise _ =>
           0 < k
           /\ _current_chunk_number
                (snd (chunk_loop decode sql table_name size chunk count s))
              = chunk + k - 1
       end.
Proof.
  induction count as [|count IH]; intros chunk s; cbn [chunk_loop].
  - exists [], 0. cbn. rewrite app_nil_r. repeat split; lia.
  - unfold bind at 1 2 3.
    destruct (transfer_chunk_chunks sql table_name size chunk s) as (e1 & E1 & C1 & R1).
    destruct (transfer_chunk decode sql table_name size chunk s) as [[[]|e] s1] eqn:Hc;
      cbn [fst snd] in *.
    + destruct (IH (S chunk) s1) as (e2 & k & E2 & C2 & R2 & Hk & Hres).
      exists (e1 ++ e2)%list, (S k).
      rewrite E2, E1, app_assoc, chunks_of_app, count_reconnects_app, C1, C2, R1, R2.
      repeat split; try lia.
      destruct (fst (chunk_loop decode sql table_name size (S chunk) count s1)).
      * lia.
      * destruct Hres as [Hpos Hnum]. split; [lia|]. rewrite Hnum. lia.
    + exists e1, 1. rewrite C1, R1. repeat split; try lia; try assumption.
      rewrite (transfer_chunk_number decode _ _ _ _ _ _ _ Hc). lia.
Qed.


Lemma transfer_chunk_chunk_size (sql table_name : string) (size chunk : nat) (s : self) :
  _chunk_size (snd (transfer_chunk decode sql table_name size chunk s)) = _chunk_size s.
Proof.
  unfold transfer_chunk, fetchmany, executemany, bind, log_event, modify, get,
    server_call, raise, lift.
  cbn.
  destruct (faults (_mysql s)) as [|[errno|] rest]; cbn; try reflexivity;
    destruct (find_sqlite_table table_name (_sqlite s)); reflexivity.
Qed.

Lemma chunk_loop_chunk_size (sql table_name : string) (size : nat) :
  forall (count chunk : nat) (s : self),
    _chunk_size (snd (chunk_loop decode sql table_name size chunk count s))
    = _chunk_size s.
Proof.
  induction count as [|count IH]; intros chunk s; cbn [chunk_loop]; [reflexivity|].
  unfold bind at 1.
  pose proof (transfer_chunk_chunk_size sql table_name size chunk s) as H1.
  destruct (transfer_chunk decode sql table_name size chunk s) as [[[]|e] s1];
    cbn [snd] in *; [rewrite IH|]; exact H1.
Qed.

(** The [try] block in chunked mode: the chunk numbers it hands out are
    consecutive from [_current_chunk_number], there are no more of them
    than the count of records asks for, and when the block raises the
    last one handed out is the one left in [_current_chunk_number]. *)
Lemma transfer_block_chunks (table_name sql : string) (total_records : nat)
      (n : Z) (s : self) :
  _chunk_size s = Some n ->
  (0 < n)%Z ->
  let run := transfer_block decode table_name sql total_records s in
  exists evs k,
    events (snd run) = (events s ++ evs)%list
    /\ Scenario.chunks_of evs = seq (_current_chunk_number s) k
    /\ Scenario.count_reconnects evs = 0
    /\ _current_chunk_number s + k <= Nat.max (_current_chunk_number s)
                                             (ceil_div total_records (Z.to_nat n))
    /\ _chunk_size (snd run) = Some n
    /\ match fst run with
       | Ok _ => True
       | Raise _ => 0 < k /\ _current_chunk_number (snd run) = _current_chunk_number s + k - 1
       end.
Proof.
  intros Hcs Hn run.
  set (count := ceil_div total_records (Z.to_nat n) - _current_chunk_number s).
  assert (Hrun : run = match chunk_loop decode sql table_name (Z.to_nat n)
                               (_current_chunk_number s) count s with
                       | (Ok _, s1) => (Ok tt, emit EvCommit s1)
                       | (Raise e, s1) => (Raise e, s1)
                       end).
  { subst run. unfold transfer_block. unfold bind at 1. unfold get at 1. rewrite Hcs.
    apply Z.gtb_lt in Hn. rewrite Hn. reflexivity. }
  rewrite Hrun. clear Hrun run.
  destruct (chunk_loop_chunks sql table_name (Z.to_nat n) count (_current_chunk_number s) s)
    as (evs & k & E & C & R & Hk & Hres).
  pose proof (chunk_loop_chunk_size sql table_name (Z.to_nat n) count
                (_current_chunk_number s) s) as Hsize.
  destruct (chunk_loop decode sql table_name (Z.to_nat n) (_current_chunk_number s) count s)
    as [[[]|e] s1]; cbn [fst snd events emit _chunk_size _current_chunk_number] in *.
  - exists (evs ++ [EvCommit])%list, k.
    rewrite E, <- app_assoc, chunks_of_app, count_reconnects_app, C, R. cbn.
    rewrite app_nil_r. repeat split; try congruence. subst count. lia.
  - exists evs, k. repeat split; try congruence; try tauto. subst count. lia.
Qed.

Lemma logs_only {A} (m : M A) (s : self) :
  emits (only [KLog]) m ->
  exists evs,
    events (snd (m s)) = (events s ++ evs)%list
    /\ Scenario.chunks_of evs = []
    /\ Scenario.count_reconnects evs = 0.
Proof.
  intros Hm. destruct (Hm s) as (evs & E & F). exists evs. split; [exact E|]. split.
  - exact (chunks_of_none [KLog] evs eq_refl F).
  - exact (count_reconnects_none [KLog] evs eq_refl F).
Qed.

Lemma retry_handlers_log (again : M unit) (table_name : string) :
  let failed := "transfer failed inserting data into table " ++ table_name in
  (forall errno, emits (only [KLog]) (on_mysql_error true again failed errno))
  /\ (forall msg, emits (only [KLog]) (on_sqlite_error failed msg)).
Proof.
  intros failed.
  assert (Hf : only [KLog] (EvLog ERROR failed)) by reflexivity.
  assert (Hw : only [KLog] (EvLog WARNING lost_aborted)) by reflexivity.
  split; [intros errno|intros msg]; unfold on_mysql_error, on_sqlite_error; cbn [negb];
    emits_auto.
Qed.

(** The activation with [attempting_reconnect=True]: one reconnect, then
    consecutive chunk numbers from the one the object holds. *)
Lemma retry_chunks (table_name sql : string) (total_records : nat) (n : Z) (s : self) :
  _chunk_size s = Some n ->
  (0 < n)%Z ->
  exists evs k,
    events (snd (transfer_table_data_call decode (ret tt) table_name sql
                   total_records true s))
    = (events s ++ evs)%list
    /\ Scenario.chunks_of evs = seq (_current_chunk_number s) k
    /\ Scenario.count_reconnects evs = 1
    /\ _current_chunk_number s + k <= Nat.max (_current_chunk_number s)
                                             (ceil_div total_records (Z.to_nat n)).
Proof.
  intros Hcs Hn. unfold transfer_table_data_call.
  destruct (retry_handlers_log (ret tt) table_name) as [Hmy Hsq].
  cbv zeta in Hmy, Hsq.
  set (failed := "transfer failed inserting data into table " ++ table_name) in *.
  unfold bind at 1. unfold reconnect, bind at 1, log_event at 1, modify at 1, server_call.
  cbn [_mysql emit].
  set (s0 := emit EvReconnect s).
  assert (Hev0 : events s0 = (events s ++ [EvReconnect])%list) by reflexivity.
  assert (Hrest : forall s3,
             events s3 = (events s ++ [EvReconnect])%list ->
             _current_chunk_number s3 = _current_chunk_number s ->
             _chunk_size s3 = Some n ->
             exists evs k,
               events (snd (try_except
                              (transfer_block decode table_name sql total_records)
                              (on_mysql_error true (ret tt) failed)
                              (on_sqlite_error failed) s3))
               = (events s ++ evs)%list
               /\ Scenario.chunks_of evs = seq (_current_chunk_number s) k
               /\ Scenario.count_reconnects evs = 1
               /\ _current_chunk_number s + k
                  <= Nat.max (_current_chunk_number s)
                             (ceil_div total_records (Z.to_nat n))).
  { intros s3 Hev Hnum Hsize.
    destruct (transfer_block_chunks table_name sql total_records n s3 Hsize Hn)
      as (evs & k & E & C & R & Hk & _ & _).
    cbv zeta in E. rewrite Hnum in *. unfold try_except.
    destruct (transfer_block decode table_name sql total_records s3) as [[[]|e] s4];
      cbn [snd] in E.
    - exists ([EvReconnect] ++ evs)%list, k. cbn [snd].
      rewrite E, Hev, <- app_assoc, chunks_of_app, count_reconnects_app, C, R.
      repeat split; try reflexivity. exact Hk.
    - assert (Hlogs : forall (h : M unit), emits (only [KLog]) h ->
                exists evs' , events (snd (h s4)) = (events s ++ evs')%list
                  /\ Scenario.chunks_of evs' = seq (_current_chunk_number s) k
                  /\ Scenario.count_reconnects evs' = 1).
      { intros h Hh. destruct (logs_only h s4 Hh) as (logs & El & Cl & Rl).
        exists ([EvReconnect] ++ evs ++ logs)%list.
        rewrite El, E, Hev, <- !app_assoc, !chunks_of_app, !count_reconnects_app,
          C, R, Cl, Rl, app_nil_r.
        repeat split; reflexivity. }
      destruct e as [errno|msg|msg| |];
        try (exists ([EvReconnect] ++ evs)%list, k; cbn [snd];
             rewrite E, Hev, <- app_assoc, chunks_of_app, count_reconnects_app, C, R;
             repeat split; try reflexivity; exact Hk).
      + destruct (Hlogs _ (Hmy errno)) as (evs' & E' & C' & R').
        exists evs', k. repeat split; assumption.
      + destruct (Hlogs _ (Hsq msg)) as (evs' & E' & C' & R').
        exists evs', k. repeat split; assumption. }
  destruct (faults (_mysql s)) as [|[errno|] rest].
  - apply Hrest; [exact Hev0|reflexivity|exact Hcs].
  - exists [EvReconnect], 0. cbn. repeat split; try reflexivity. lia.
  - apply Hrest; [exact Hev0|reflexivity|exact Hcs].
Qed.

(** Property X12.  When the connection is lost in a chunk, the retry starts
    again at the chunk that failed: the chunk numbers handed out before the
    loss are consecutive from the starting one; the retry reconnects once
    and the numbers it hands out, if it gets that far, are consecutive from
    the last one of the first attempt, so no chunk before the failed one is
    asked for again and none after it is left out. *)
Theorem retry_resumes_at_failed_chunk (table_name sql : string)
        (total_records : nat) (n : Z) (s s1 : self) :
  _chunk_size s = Some n ->
  (0 < n)%Z ->
  transfer_block decode table_name sql total_records s
  = (Raise (MySQLError CR_SERVER_LOST), s1) ->
  exists before after k k',
    events s1 = (events s ++ before)%list
    /\ events (snd (_transfer_table_data decode table_name sql total_records false s))
       = (events s1 ++ after)%list
    /\ Scenario.chunks_of before = seq (_current_chunk_number s) k
    /\ 0 < k
    /\ Scenario.count_reconnects before = 0
    /\ Scenario.chunks_of after = seq (_current_chunk_number s + k - 1) k'
    /\ Scenario.count_reconnects after = 1
    /\ _current_chunk_number s + k - 1 + k' <= ceil_div total_records (Z.to_nat n).
Proof.
  intros Hcs Hn Hb.
  destruct (transfer_block_chunks table_name sql total_records n s Hcs Hn)
    as (before & k & E & C & R & Hk & Hsize & Hres).
  cbv zeta in E, Hsize, Hres. rewrite Hb in E, Hsize, Hres. cbn [fst snd] in *.
  destruct Hres as [Hpos Hnum].
  set (s2 := emit (EvLog WARNING lost_reconnecting) s1).
  destruct (retry_chunks table_name sql total_records n s2 Hsize Hn)
    as (evs & k' & E' & C' & R' & Hk').
  change (_current_chunk_number s2) with (_current_chunk_number s1) in *.
  rewrite Hnum in *.
  unfold _transfer_table_data. unfold transfer_table_data_call at 1.
  unfold bind at 1. unfold ret at 1. unfold try_except. rewrite Hb.
  unfold on_mysql_error. change (CR_SERVER_LOST =? CR_SERVER_LOST)%nat with true.
  cbn [negb]. unfold bind at 1 2. unfold log_event at 1, modify at 1.
  fold s2.
  assert (Hbound : _current_chunk_number s + k - 1 + k'
                   <= ceil_div total_records (Z.to_nat n)) by lia.
  destruct (transfer_table_data_call decode (ret tt) table_name sql total_records true s2)
    as [[[]|e] s3]; cbn [snd] in E'.
  - exists before, ([EvLog WARNING lost_reconnecting] ++ evs ++
                    [EvLog ERROR ("transfer failed inserting data into table " ++ table_name)])%list,
      k, k'.
    unfold bind, log_event, modify, raise. cbn [snd events emit].
    rewrite E'. cbn [events emit s2]. subst s2. cbn [events emit].
    rewrite <- !app_assoc, !chunks_of_app, !count_reconnects_app, C', R'.
    cbn. rewrite app_nil_r. repeat split; try assumption; try reflexivity; lia.
  - exists before, ([EvLog WARNING lost_reconnecting] ++ evs)%list, k, k'.
    cbn [snd]. rewrite E'. subst s2. cbn [events emit].
    rewrite <- !app_assoc, !chunks_of_app, !count_reconnects_app, C', R'.
    cbn. repeat split; try assumption; try reflexivity; lia.
Qed.

End ChunkNumbers.

Lemma retry_resumes_at_failed_chunk_witness :
  let s := Scenario.copying
             [[Scenario.digit 1]; [Scenario.digit 2]; [Scenario.digit 3];
              [Scenario.digit 4]; [Scenario.digit 5]]
             (Some 2%Z) (Scenario.lost_after 1) in
  let s1 := snd (transfer_block Scenario.ascii_decode "t" Scenario.insert_t 5 s) in
  exists before after k k',
    events s1 = (events s ++ before)%list
    /\ events (snd (_transfer_table_data Scenario.ascii_decode "t" Scenario.insert_t
                      5 false s))
       = (events s1 ++ after)%list
    /\ Scenario.chunks_of before = seq (_current_chunk_number s) k
    /\ 0 < k
    /\ Scenario.count_reconnects before = 0
    /\ Scenario.chunks_of after = seq (_current_chunk_number s + k - 1) k'
    /\ Scenario.count_reconnects after = 1
    /\ _current_chunk_number s + k - 1 + k' <= ceil_div 5 (Z.to_nat 2).
Proof.
  cbv zeta.
  refine (retry_resumes_at_failed_chunk Scenario.ascii_decode "t" Scenario.insert_t 5 2%Z
            (Scenario.copying
               [[Scenario.digit 1]; [Scenario.digit 2]; [Scenario.digit 3];
                [Scenario.digit 4]; [Scenario.digit 5]]
               (Some 2%Z) (Scenario.lost_after 1))
            _ _ _ _).
  - reflexivity.
  - lia.
  - vm_compute. reflexivity.
Defined.

(** * The rows a transfer reads *)

Section RowsRead.

Variable decode : string -> option string.

Lemma transfer_block_reads (table_name sql : string) (total_records : nat)
      (s : self) (t : sqlite_table) :
  faults (_mysql s) = [] ->
  find_sqlite_table table_name (_sqlite s) = Some t ->
  let batch := bind_rows decode (rows_read total_records s) in
  exists s',
    transfer_block decode table_name sql total_records s = (raise_if (snd batch), s')
    /\ _sqlite s' = put_table (insert_bound t (fst batch)) (_sqlite s)
    /\ unchanged s s'.
Proof.
  intros Hq Ht batch. subst batch. unfold rows_read, chunking, transfer_block.
  unfold bind at 1. unfold get at 1.
  assert (Hall :
    exists s',
      (rows <- fetchall;; executemany decode sql table_name rows) s
      = (raise_if (snd (bind_rows decode (result_set (_mysql s)))), s')
      /\ _sqlite s' = put_table (insert_bound t (fst (bind_rows decode (result_set (_mysql s)))))
                                (_sqlite s)
      /\ unchanged s s').
  { unfold bind. rewrite fetchall_quiet by exact Hq.
    rewrite (executemany_found _ _ _ _ _ t) by exact Ht.
    eexists. split; [reflexivity|]. cbn. repeat split. }
  assert (Hcommit : forall (m : M unit) r q,
             (exists s', m s = (r, s') /\ _sqlite s' = q /\ unchanged s s') ->
             exists s', (m;; commit) s = (r, s') /\ _sqlite s' = q /\ unchanged s s').
  { intros m r q (s1 & Hm & Hs & Hu). unfold bind. rewrite Hm.
    destruct r as [[]|e]; [|eauto].
    unfold commit, log_event, modify. eexists. split; [reflexivity|].
    cbn. split; [exact Hs|exact Hu]. }
  destruct (_chunk_size s) as [n|]; [|apply Hcommit, Hall].
  destruct (n >? 0)%Z; [|apply Hcommit, Hall].
  apply Hcommit.
  destruct (chunk_loop_quiet decode sql table_name (Z.to_nat n)
              (ceil_div total_records (Z.to_nat n) - _current_chunk_number s)
              (_current_chunk_number s) s t Hq Ht)
    as (s1 & Hrun & (Hsq & _ & Hf & Hdb & Hc1 & Hv)).
  exists s1. split; [exact Hrun|]. split; [exact Hsq|]. repeat split; assumption.
Qed.

(** Property X13.  On a server that raises nothing, and with the table in
    the target, [_transfer_table_data] does to the target what one bulk
    insert of [rows_read] does.  Without chunks these are all the rows of
    the result set, whatever the count of records; a chunk size of zero or
    below means no chunks.  In chunks they are the rows of the chunks the
    count asks for, so the rows of the result set beyond the count are not
    copied. *)
Theorem quiet_transfer_copies_rows_read (table_name sql : string)
        (total_records : nat) (s : self) (t : sqlite_table) :
  faults (_mysql s) = [] ->
  find_sqlite_table table_name (_sqlite s) = Some t ->
  exists s',
    _transfer_table_data decode table_name sql total_records false s
    = (fst (copy_outcome decode table_name (rows_read total_records s) (_sqlite s)), s')
    /\ _sqlite s'
       = snd (copy_outcome decode table_name (rows_read total_records s) (_sqlite s))
    /\ unchanged s s'.
Proof.
  intros Hq Ht.
  destruct (transfer_block_reads table_name sql total_records s t Hq Ht)
    as (s1 & Hrun & Hsq & Hu).
  cbv zeta in Hrun, Hsq.
  unfold copy_outcome. rewrite Ht. cbn [fst snd].
  unfold _transfer_table_data, transfer_table_data_call.
  unfold bind at 1. unfold ret at 1.
  destruct (snd (bind_rows decode (rows_read total_records s))) as [e|] eqn:Hr;
    cbn [raise_if] in *.
  - exists s1. split; [|split; assumption].
    apply try_except_passes; [exact Hrun|]. eapply bind_rows_failure, Hr.
  - exists s1. split; [|split; assumption]. apply try_except_ok, Hrun.
Qed.

End RowsRead.

Lemma quiet_transfer_copies_rows_read_witness :
  let s := Scenario.copying
             [[Scenario.digit 1]; [Scenario.digit 2]; [Scenario.digit 3];
              [Scenario.digit 4]; [Scenario.digit 5]]
             (Some 2%Z) [] in
  exists s',
    _transfer_table_data Scenario.ascii_decode "t" Scenario.insert_t 3 false s
    = (fst (copy_outcome Scenario.ascii_decode "t" (rows_read 3 s) (_sqlite s)), s')
    /\ _sqlite s'
       = snd (copy_outcome Scenario.ascii_decode "t" (rows_read 3 s) (_sqlite s))
    /\ unchanged s s'.
Proof.
  cbv zeta.
  refine (quiet_transfer_copies_rows_read Scenario.ascii_decode "t" Scenario.insert_t 3
            (Scenario.copying
               [[Scenario.digit 1]; [Scenario.digit 2]; [Scenario.digit 3];
                [Scenario.digit 4]; [Scenario.digit 5]]
               (Some 2%Z) [])
            (mk_sqlite_table "t" Scenario.plain_columns []) _ _).
  - reflexivity.
  - vm_compute. reflexivity.
Defined.

(** * What a run on a fresh target copies *)

Lemma mem_In (x : string) (l : list string) : TypeMapper.mem x l = true <-> In x l.
Proof.
  unfold TypeMapper.mem. rewrite existsb_exists. split.
  - intros (y & Hy & E). apply String.eqb_eq in E. subst y. exact Hy.
  - intros H. exists x. split; [exact H|apply String.eqb_refl].
Qed.

Lemma mem_not_In (x : string) (l : list string) :
  TypeMapper.mem x l = false <-> ~ In x l.
Proof.
  rewrite <- mem_In. destruct (TypeMapper.mem x l); split; congruence.
Qed.

Lemma distinct_NoDup (l : list string) : distinct l = true -> NoDup l.
Proof.
  induction l as [|x l IH]; cbn [distinct]; intros H; [constructor|].
  apply andb_true_iff in H. destruct H as [Hx Hl].
  apply negb_true_iff, mem_not_In in Hx. constructor; auto.
Qed.

Lemma NoDup_app_parts {A : Type} (a b : list A) :
  NoDup (a ++ b) -> NoDup a /\ NoDup b /\ forall x, In x b -> ~ In x a.
Proof.
  induction a as [|y a IH]; cbn; intros H.
  - repeat split; [constructor|exact H|auto].
  - inversion H as [|? ? Hy Hab]; subst. destruct (IH Hab) as (Ha & Hb & Hd).
    repeat split; [|exact Hb|].
    + constructor; [|exact Ha]. intros Hin. apply Hy, in_or_app. auto.
    + intros x Hx [-> | Hin]; [apply Hy, in_or_app; auto|eapply Hd; eauto].
Qed.

(** The indexes of a script all get created when their names are new. *)
Lemma create_indexes_fresh (table_name : string) (cols : list column_row) :
  forall q,
    NoDup (index_names_of table_name cols) ->
    (forall x, In x (index_names_of table_name cols) -> ~ In x (index_names q)) ->
    create_indexes table_name cols q
    = (Ok tt, mk_sqlite_conn (tables q)
                (index_names q ++ index_names_of table_name cols)).
Proof.
  unfold index_names_of.
  induction cols as [|col cols IH]; intros q Hnd Hnew; cbn [create_indexes filter map].
  - rewrite app_nil_r. destruct q; reflexivity.
  - cbn [filter] in Hnd, Hnew.
    destruct (TypeMapper.mem (Key col) ["UNI"; "MUL"]); [|apply IH; assumption].
    cbn [map] in Hnd, Hnew. inversion Hnd as [|? ? Hhead Htail]; subst.
    assert (Hm : TypeMapper.mem (index_name table_name col) (index_names q) = false).
    { apply mem_not_In, Hnew. left. reflexivity. }
    rewrite Hm, IH.
    + cbn [tables index_names]. rewrite <- app_assoc. reflexivity.
    + exact Htail.
    + intros x Hx. cbn [index_names]. intros Hin. apply in_app_or in Hin.
      destruct Hin as [Hin|[<-|[]]].
      * eapply Hnew; [right; exact Hx|exact Hin].
      * exact (Hhead Hx).
Qed.

(** Rows that are compatible all enter the table, after the rows that are
    there when none of them clashes with one of those. *)
Lemma fold_insert_compatible (cols : list column_row) :
  forall (bound rows : list bound_row),
    compatible cols bound = true ->
    (forall r, In r bound -> existsb (conflicts cols r) rows = false) ->
    fold_left (insert_or_ignore cols) bound rows = (rows ++ bound)%list.
Proof.
  induction bound as [|r bound IH]; intros rows Hc Hnew; cbn [fold_left].
  - rewrite app_nil_r. reflexivity.
  - cbn [compatible] in Hc. apply andb_true_iff in Hc. destruct Hc as [Hc Hrest].
    apply andb_true_iff in Hc. destruct Hc as [Hnull Hlater].
    apply negb_true_iff in Hnull.
    unfold insert_or_ignore at 2. unfold breaks_constraint.
    rewrite Hnull, (Hnew r) by (left; reflexivity). cbn [orb].
    rewrite IH; [rewrite <- app_assoc; reflexivity|exact Hrest|].
    intros r' Hr'. rewrite existsb_app, (Hnew r') by (right; exact Hr').
    cbn. rewrite forallb_forall in Hlater. rewrite (proj1 (negb_true_iff _) (Hlater r' Hr')).
    reflexivity.
Qed.

Lemma replace_last_table (T T' : sqlite_table) (ts : list sqlite_table) :
  st_name T = st_name T' ->
  find (fun x => st_name x =? st_name T') ts = None ->
  replace_table T' (ts ++ [T]) = (ts ++ [T'])%list.
Proof.
  intros Hn. induction ts as [|x ts IH]; cbn.
  - intros _. rewrite Hn, String.eqb_refl. reflexivity.
  - destruct (st_name x =? st_name T'); [discriminate|].
    intros H. f_equal. apply IH, H.
Qed.

Lemma find_last_table (table_name : string) (T : sqlite_table) (ts : list sqlite_table) :
  st_name T = table_name ->
  find (fun x => st_name x =? table_name) ts = None ->
  find (fun x => st_name x =? table_name) (ts ++ [T]) = Some T.
Proof.
  intros Hn. induction ts as [|x ts IH]; cbn.
  - intros _. rewrite Hn, String.eqb_refl. reflexivity.
  - destruct (st_name x =? table_name); [discriminate|]. exact IH.
Qed.

Section FreshTarget.

Variable decode : string -> option string.

(** [_create_table] on a server that raises nothing, when the script runs
    through. *)
Lemma create_table_runs (table_name : string) (s : self) (t : mysql_table)
      (script : string) (q : sqlite_conn) :
  faults (_mysql s) = [] ->
  find (named decode table_name) (database (_mysql s)) = Some t ->
  Schema.render_create_table_sql table_name (tbl_columns t) = Ok script ->
  create_indexes table_name (tbl_columns t)
    (create_table_if_not_exists table_name (tbl_columns t) (_sqlite s)) = (Ok tt, q) ->
  exists s',
    _create_table decode table_name false s = (Ok tt, s')
    /\ _sqlite s' = q
    /\ unchanged s s'
    /\ _current_chunk_number s' = _current_chunk_number s.
Proof.
  intros Hq Hf Hr Hix.
  destruct (show_columns_quiet decode table_name s t Hq Hf) as (s1 & Hs1 & Hq1 & Hu1 & Hc1).
  unfold _create_table, create_table_call.
  eexists. split.
  - apply try_except_ok. unfold create_table_block.
    unfold bind at 1. unfold ret at 1.
    unfold _build_create_table_sql. unfold bind at 1. unfold bind at 1.
    rewrite Hs1, Hr. unfold ret at 1. cbn [fst snd].
    unfold executescript. unfold bind at 1. unfold bind at 1.
    unfold log_event at 1, modify at 1. unfold run_script.
    cbn [_sqlite emit]. rewrite Hq1, Hix.
    unfold commit, log_event, modify. reflexivity.
  - cbn. destruct Hu1 as (A1 & A2 & A3 & A4). repeat split; assumption.
Qed.

(** One step of the loop of [transfer] for a table the target does not
    have yet: the table is added at the end, with its decoded rows. *)
Lemma transfer_table_adds_image (s : self) (t : mysql_table) :
  faults (_mysql s) = [] ->
  copies_whole decode t = true ->
  find (named decode (decoded_name decode t)) (database (_mysql s)) = Some t ->
  find_sqlite_table (decoded_name decode t) (_sqlite s) = None ->
  NoDup (indexes_of decode t) ->
  (forall x, In x (indexes_of decode t) -> ~ In x (index_names (_sqlite s))) ->
  exists s',
    transfer_table decode (tbl_name t) s = (Ok tt, s')
    /\ tables (_sqlite s') = (tables (_sqlite s) ++ [image decode t])%list
    /\ index_names (_sqlite s') = (index_names (_sqlite s) ++ indexes_of decode t)%list
    /\ unchanged s s'.
Proof.
  intros Hq Hwhole Hf Hnone Hnd Hnew.
  unfold copies_whole in Hwhole.
  apply andb_true_iff in Hwhole. destruct Hwhole as [Hwhole Hcompat].
  apply andb_true_iff in Hwhole. destruct Hwhole as [Hrender Hdecodes].
  unfold image, indexes_of, decoded_name in *.
  destruct (decode (tbl_name t)) as [table_name|] eqn:Hd; [|discriminate].
  destruct (Schema.render_create_table_sql table_name (tbl_columns t)) as [script|] eqn:Hr;
    [|discriminate].
  destruct (snd (bind_rows decode (tbl_rows t))) as [|] eqn:Hfail; [discriminate|].
  set (bound := fst (bind_rows decode (tbl_rows t))) in *.
  set (T0 := mk_sqlite_table table_name (tbl_columns t) []).
  set (q1 := mk_sqlite_conn (tables (_sqlite s) ++ [T0])
                            (index_names (_sqlite s)
                               ++ index_names_of table_name (tbl_columns t))).
  set (s0 := set_current_chunk_number 0 s).
  assert (Hix : create_indexes table_name (tbl_columns t)
                  (create_table_if_not_exists table_name (tbl_columns t) (_sqlite s0))
                = (Ok tt, q1)).
  { unfold create_table_if_not_exists. cbn [_sqlite s0 set_current_chunk_number].
    rewrite Hnone. rewrite create_indexes_fresh; [reflexivity|exact Hnd|exact Hnew]. }
  destruct (create_table_runs table_name s0 t script q1 Hq Hf Hr Hix)
    as (s1 & Hrun1 & Hsq1 & Hu1 & Hc1).
  assert (Hq1 : faults (_mysql s1) = []) by (destruct Hu1 as (-> & _); exact Hq).
  assert (Hf1 : find (named decode table_name) (database (_mysql s1)) = Some t)
    by (destruct Hu1 as (_ & -> & _); exact Hf).
  destruct (count_records_quiet decode table_name s1 t Hq1 Hf1)
    as (s2 & Hrun2 & Hsq2 & Hu2 & Hc2).
  assert (Hstart :
             transfer_table decode (tbl_name t) s
             = (if (0 <? List.length (tbl_rows t))%nat
                then
                  log_event (EvLog INFO ("Transferring table " ++ table_name));;
                  columns <- select_all decode table_name;;
                  _transfer_table_data decode table_name
                    (insert_statement table_name columns)
                    (List.length (tbl_rows t)) false
                else ret tt) s2).
  { unfold transfer_table. unfold bind at 1. unfold modify at 1.
    unfold bind at 1. unfold decode_name. rewrite Hd. unfold ret at 1.
    fold s0. unfold bind at 1. rewrite Hrun1.
    unfold bind at 1. rewrite Hrun2. reflexivity. }
  rewrite Hstart. clear Hstart.
  assert (Hu02 : unchanged s s2).
  { eapply unchanged_trans; [|exact Hu2].
    eapply unchanged_trans; [|exact Hu1]. repeat split. }
  destruct (tbl_rows t) as [|r rows] eqn:Hrows.
  - cbn. exists s2. rewrite Hsq2, Hsq1. repeat split; try apply Hu02.
  - cbn [List.length Nat.ltb Nat.leb].
    set (s3 := emit (EvLog INFO ("Transferring table " ++ table_name)) s2).
    assert (Hq3 : faults (_mysql s3) = [])
      by (cbn; destruct Hu2 as (-> & _); exact Hq1).
    assert (Hf3 : find (named decode table_name) (database (_mysql s3)) = Some t)
      by (cbn; destruct Hu2 as (_ & -> & _); exact Hf1).
    destruct (select_all_quiet decode table_name s3 t Hq3 Hf3)
      as (s4 & Hrun4 & Hsq4 & Hu4 & Hc4 & Hrs4).
    assert (Hq4 : faults (_mysql s4) = []) by (destruct Hu4 as (-> & _); exact Hq3).
    assert (Hc04 : _current_chunk_number s4 = 0).
    { rewrite Hc4. cbn. rewrite Hc2, Hc1. reflexivity. }
    destruct (transfer_table_data_quiet decode table_name
                (insert_statement table_name (map Field (tbl_columns t)))
                (S (List.length rows)) s4 Hq4 Hc04)
      as (s5 & Hrun5 & Hsq5 & Hu5); [lia | rewrite Hrs4, Hrows; cbn; lia |].
    unfold bind at 1. unfold log_event at 1, modify at 1. fold s3.
    unfold bind at 1. rewrite Hrun4, Hrun5.
    rewrite Hrs4, Hsq4 in *. cbn [_sqlite emit s3] in *. rewrite Hrows in *.
    rewrite Hsq2, Hsq1 in *.
    assert (HT0 : find_sqlite_table table_name q1 = Some T0).
    { unfold find_sqlite_table, q1. cbn [tables].
      apply find_last_table; [reflexivity|exact Hnone]. }
    unfold copy_outcome in *. rewrite HT0 in *. fold bound in Hsq5 |- *.
    rewrite Hfail in *. cbn [fst snd raise_if] in *.
    exists s5. split; [reflexivity|]. rewrite Hsq5.
    unfold put_table, insert_bound, q1, T0. cbn [tables index_names st_name st_columns st_rows].
    split; [|split; [reflexivity|]].
    + rewrite fold_insert_compatible by (try exact Hcompat; reflexivity).
      cbn [app]. apply replace_last_table; [reflexivity|exact Hnone].
    + eapply unchanged_trans; [exact Hu02|].
      eapply unchanged_trans; [|exact Hu5].
      eapply unchanged_trans; [|exact Hu4]. repeat split.
Qed.

(** In a source whose decoded table names are distinct, the statement
    about a table reaches that table. *)
Lemma find_named_distinct (done todo : list mysql_table) (t : mysql_table) :
  NoDup (map (decoded_name decode) (done ++ t :: todo)) ->
  Forall (fun t' => copies_whole decode t' = true) (done ++ t :: todo) ->
  find (named decode (decoded_name decode t)) (done ++ t :: todo) = Some t.
Proof.
  intros Hnd Hall.
  assert (Hself : named decode (decoded_name decode t) t = true).
  { apply Forall_elt in Hall. unfold copies_whole, named, decoded_name in *.
    destruct (decode (tbl_name t)); [apply String.eqb_refl|discriminate]. }
  induction done as [|x done IH]; cbn [app find].
  - rewrite Hself. reflexivity.
  - cbn [app map] in Hnd, Hall. inversion Hnd as [|? ? Hx Hrest]; subst.
    inversion Hall as [|? ? Hwx Hwrest]; subst.
    assert (Hne : named decode (decoded_name decode t) x = false).
    { unfold named. unfold copies_whole in Hwx.
      assert (Hdx : decoded_name decode x <> decoded_name decode t).
      { intros E. apply Hx. rewrite E, map_app. apply in_or_app. right. left. reflexivity. }
      unfold decoded_name in Hdx at 1.
      destruct (decode (tbl_name x)); [|reflexivity].
      apply String.eqb_neq. exact Hdx. }
    rewrite Hne. apply IH; assumption.
Qed.

Lemma find_image_none (done : list mysql_table) (table_name : string) :
  ~ In table_name (map (decoded_name decode) done) ->
  find (fun x => st_name x =? table_name) (map (image decode) done) = None.
Proof.
  induction done as [|x done IH]; cbn; [reflexivity|].
  intros H. destruct (decoded_name decode x =? table_name) eqn:E.
  - apply String.eqb_eq in E. exfalso. apply H. left. exact E.
  - apply IH. intros Hin. apply H. right. exact Hin.
Qed.

Lemma transfer_tables_add_images :
  forall (todo done : list mysql_table) (s : self),
    faults (_mysql s) = [] ->
    database (_mysql s) = (done ++ todo)%list ->
    tables (_sqlite s) = map (image decode) done ->
    index_names (_sqlite s) = flat_map (indexes_of decode) done ->
    Forall (fun t => copies_whole decode t = true) (done ++ todo) ->
    NoDup (map (decoded_name decode) (done ++ todo)) ->
    NoDup (flat_map (indexes_of decode) (done ++ todo)) ->
    exists s',
      transfer_tables decode (map tbl_name todo) s = (Ok tt, s')
      /\ tables (_sqlite s') = map (image decode) (done ++ todo)
      /\ unchanged s s'.
Proof.
  induction todo as [|t todo IH]; intros done s Hq Hdb Htabs Hixs Hall Hnames Hindexes;
    cbn [map transfer_tables].
  - exists s. rewrite app_nil_r. split; [reflexivity|]. split; [exact Htabs|].
    repeat split.
  - destruct (transfer_table_adds_image s t) as (s1 & Hrun1 & Ht1 & Hi1 & Hu1).
    + exact Hq.
    + exact (Forall_elt (P := fun t' => copies_whole decode t' = true) _ _ _ Hall).
    + rewrite Hdb. apply find_named_distinct; assumption.
    + unfold find_sqlite_table. rewrite Htabs. apply find_image_none.
      rewrite map_app in Hnames. cbn [map] in Hnames.
      apply NoDup_remove_2 in Hnames. intros Hin. apply Hnames, in_or_app. auto.
    + rewrite flat_map_app in Hindexes. cbn [flat_map] in Hindexes.
      apply NoDup_app_remove_l, NoDup_app_remove_r in Hindexes. exact Hindexes.
    + rewrite Hixs. rewrite flat_map_app in Hindexes. cbn [flat_map] in Hindexes.
      rewrite app_assoc in Hindexes. apply NoDup_app_remove_r in Hindexes.
      destruct (NoDup_app_parts _ _ Hindexes) as (_ & _ & Hd). exact Hd.
    + pose proof Hu1 as (Hf1 & Hdb1 & _).
      destruct (IH (done ++ [t])%list s1) as (s2 & Hrun2 & Ht2 & Hu2).
      * congruence.
      * rewrite Hdb1, Hdb, <- app_assoc. reflexivity.
      * rewrite Ht1, Htabs, map_app. reflexivity.
      * rewrite Hi1, Hixs, flat_map_app. cbn [flat_map]. rewrite app_nil_r. reflexivity.
      * rewrite <- app_assoc. exact Hall.
      * rewrite <- app_assoc. exact Hnames.
      * rewrite <- app_assoc. exact Hindexes.
      * unfold bind. rewrite Hrun1. exists s2. split; [exact Hrun2|].
        split; [rewrite Ht2, <- app_assoc; reflexivity|].
        eapply unchanged_trans; eassumption.
Qed.


End FreshTarget.


(** * When the methods return *)

Section Returns.

Variable decode : string -> option string.

Lemma try_except_returns (body : M unit) (attempting_reconnect : bool)
      (again : M unit) (failed : string) (s s' : self) :
  try_except body (on_mysql_error attempting_reconnect again failed)
             (on_sqlite_error failed) s = (Ok tt, s')
  <-> body s = (Ok tt, s').
Proof.
  split; [apply try_except_ok_body|apply try_except_ok].
Qed.

(** Property X15.  Both methods return exactly when their [try] block
    returns at the first attempt, and then they leave the object as the
    block left it.  A retry never turns a failed attempt into a call that
    returns: once the block has raised, the method raises, whatever the
    reconnect and the second attempt do. *)
Theorem methods_return_iff_first_attempt_returns (table_name sql : string)
        (total_records : nat) (s s' : self) :
  (_create_table decode table_name false s = (Ok tt, s')
   <-> create_table_block decode table_name false s = (Ok tt, s'))
  /\ (_transfer_table_data decode table_name sql total_records false s = (Ok tt, s')
      <-> transfer_block decode table_name sql total_records s = (Ok tt, s')).
Proof.
  split.
  - unfold _create_table, create_table_call. apply try_except_returns.
  - unfold _transfer_table_data, transfer_table_data_call.
    unfold bind at 1. unfold ret at 1. apply try_except_returns.
Qed.

End Returns.
